(** * xsodus_converter: the XML-to-SQL compilation core, embedded in Rocq

    A shallow embedding of the graph resolver, the renderer, the formula
    rewriting passes and the validator of the converter, followed by the
    properties stated about them.

    Conventions.
    - A Python [str] is a [string]; its characters are the code points
      below 256.  The character classes ([str.isspace], [str.isdigit],
      the regex classes) are the Python ones on that range.
    - A Python [dict] is an association list in insertion order; its keys
      are pairwise distinct, which the theorems take as a hypothesis
      ([NoDup] of the keys) where they need it.
    - A Python [set] has no iteration order of its own: every function
      that iterates over a set takes the enumeration [enum] as an
      argument, and the theorems hold for every enumeration that lists
      the members once each.
    - Code that mutates the render context is written in a state and
      error monad over the store of the render. *)

From Stdlib Require Import String Ascii List ZArith Lia Bool Arith Permutation Relations.
Import ListNotations.
Open Scope string_scope.
Open Scope nat_scope.

(* ================================================================== *)
(** * Part I.  Definitions                                             *)
(* ================================================================== *)

(** ** Python strings *)

Module PyStr.

Definition code (c : ascii) : nat := nat_of_ascii c.

(** [str.isspace] on one character: TAB..CR, FS..US, SPACE, NEL, NBSP. *)
Definition isspace (c : ascii) : bool :=
  let n := code c in
  ((9 <=? n) && (n <=? 13)) || ((28 <=? n) && (n <=? 32))
  || (n =? 133) || (n =? 160).

(** The regex class [\d] (Unicode category Nd): the ten ASCII digits. *)
Definition is_decimal (c : ascii) : bool :=
  let n := code c in (48 <=? n) && (n <=? 57).

(** [str.isdigit] on one character: the decimal digits and the
    superscripts two, three and one. *)
Definition isdigit_char (c : ascii) : bool :=
  let n := code c in
  is_decimal c || (n =? 178) || (n =? 179) || (n =? 185).

Fixpoint all_chars (p : ascii -> bool) (s : string) : bool :=
  match s with
  | EmptyString => true
  | String c s' => p c && all_chars p s'
  end.

(** [s.isdigit()]: non-empty and every character a digit. *)
Definition isdigit (s : string) : bool :=
  match s with
  | EmptyString => false
  | _ => all_chars isdigit_char s
  end.

Fixpoint lstrip (s : string) : string :=
  match s with
  | EmptyString => EmptyString
  | String c s' => if isspace c then lstrip s' else s
  end.

Fixpoint rstrip (s : string) : string :=
  match s with
  | EmptyString => EmptyString
  | String c s' =>
      match rstrip s' with
      | EmptyString => if isspace c then EmptyString else String c EmptyString
      | r => String c r
      end
  end.

(** [s.strip()] *)
Definition strip (s : string) : string := rstrip (lstrip s).

(** [s.lstrip(chars)] for a one-character [chars]. *)
Fixpoint lstrip_char (x : ascii) (s : string) : string :=
  match s with
  | EmptyString => EmptyString
  | String c s' => if Ascii.eqb c x then lstrip_char x s' else s
  end.

(** [s.startswith(p)] *)
Fixpoint startswith (p s : string) : bool :=
  match p, s with
  | EmptyString, _ => true
  | String a p', String b s' => Ascii.eqb a b && startswith p' s'
  | String _ _, EmptyString => false
  end.

(** [s[n:]] *)
Fixpoint drop (n : nat) (s : string) : string :=
  match n, s with
  | O, _ => s
  | S n', String _ s' => drop n' s'
  | S _, EmptyString => EmptyString
  end.

(** [s[:n]] *)
Fixpoint take (n : nat) (s : string) : string :=
  match n, s with
  | O, _ => EmptyString
  | S n', String c s' => String c (take n' s')
  | S _, EmptyString => EmptyString
  end.

(** [s[a:b]] for [0 <= a], [0 <= b] *)
Definition slice (a b : nat) (s : string) : string := take (b - a) (drop a s).

(** Offset of the first occurrence of [sub] in [s], scanning from the
    head of [s]. *)
Fixpoint find_here (sub s : string) : option nat :=
  if startswith sub s then Some 0
  else match s with
       | EmptyString => None
       | String _ s' => option_map S (find_here sub s')
       end.

(** [s.find(sub, start)], with Python's [-1] for "not found". *)
Definition find (sub s : string) (start : nat) : Z :=
  if String.length s <? start then (-1)%Z
  else match find_here sub (drop start s) with
       | Some k => Z.of_nat (start + k)
       | None => (-1)%Z
       end.

(** [sub in s] *)
Definition contains (sub s : string) : bool :=
  match find_here sub s with Some _ => true | None => false end.

(** [s.count(c)] for a one-character argument. *)
Fixpoint count_char (x : ascii) (s : string) : nat :=
  match s with
  | EmptyString => 0
  | String c s' => (if Ascii.eqb c x then 1 else 0) + count_char x s'
  end.

(** [sep.join(l)] *)
Fixpoint join (sep : string) (l : list string) : string :=
  match l with
  | [] => EmptyString
  | [x] => x
  | x :: rest => x ++ sep ++ join sep rest
  end.

(** [s.endswith(p)] *)
Definition endswith (p s : string) : bool :=
  (String.length p <=? String.length s)
  && String.eqb (drop (String.length s - String.length p) s) p.

(** [s.count(sub)]: occurrences that do not overlap, left to right. *)
Fixpoint count_from (fuel : nat) (sub s : string) : nat :=
  match fuel with
  | O => 0
  | S fuel' =>
      if startswith sub s then S (count_from fuel' sub (drop (String.length sub) s))
      else match s with
           | EmptyString => 0
           | String _ s' => count_from fuel' sub s'
           end
  end.

Definition count (sub s : string) : nat :=
  match sub with
  | EmptyString => S (String.length s)
  | _ => count_from (S (String.length s)) sub s
  end.

(** [s.replace(old, new)] for a non-empty [old]. *)
Fixpoint replace_from (fuel : nat) (old new s : string) : string :=
  match fuel with
  | O => s
  | S fuel' =>
      if startswith old s
      then new ++ replace_from fuel' old new (drop (String.length old) s)
      else match s with
           | EmptyString => EmptyString
           | String c s' => String c (replace_from fuel' old new s')
           end
  end.

Definition replace (old new s : string) : string :=
  match old with
  | EmptyString => s
  | _ => replace_from (S (String.length s)) old new s
  end.

Definition lower_char (c : ascii) : ascii :=
  let n := code c in
  if ((65 <=? n) && (n <=? 90))
     || ((192 <=? n) && (n <=? 222) && negb (n =? 215))
  then ascii_of_nat (n + 32) else c.

Definition upper_char (c : ascii) : ascii :=
  let n := code c in
  if ((97 <=? n) && (n <=? 122))
     || ((224 <=? n) && (n <=? 254) && negb (n =? 247))
  then ascii_of_nat (n - 32) else c.

(** [s.lower()] *)
Fixpoint lower (s : string) : string :=
  match s with
  | EmptyString => EmptyString
  | String c s' => String (lower_char c) (lower s')
  end.

(** [s.upper()].  The sharp s becomes "SS"; the micro sign and the y
    with diaeresis, whose capitals lie beyond code point 255, are left
    as they are. *)
Fixpoint upper (s : string) : string :=
  match s with
  | EmptyString => EmptyString
  | String c s' =>
      if code c =? 223 then String "S" (String "S" (upper s'))
      else String (upper_char c) (upper s')
  end.

(** [str.isalpha] and [str.isalnum] on one character. *)
Definition isalpha_char (c : ascii) : bool :=
  let n := code c in
  ((65 <=? n) && (n <=? 90)) || ((97 <=? n) && (n <=? 122))
  || (n =? 170) || (n =? 181) || (n =? 186)
  || ((192 <=? n) && (n <=? 214)) || ((216 <=? n) && (n <=? 246))
  || ((248 <=? n) && (n <=? 255)).

Definition isalnum_char (c : ascii) : bool :=
  let n := code c in
  isalpha_char c || isdigit_char c || ((188 <=? n) && (n <=? 190)).

(** [s.isalnum()] *)
Definition isalnum (s : string) : bool :=
  match s with
  | EmptyString => false
  | _ => all_chars isalnum_char s
  end.

(** [s.split(sep, 1)] as used on a string known to contain [sep]. *)
Definition split_once (sep s : string) : string * string :=
  match find_here sep s with
  | Some k => (take k s, drop (k + String.length sep) s)
  | None => (s, EmptyString)
  end.

(** [s.split(sep)] for a non-empty separator. *)
Fixpoint split_from (fuel : nat) (sep s : string) : list string :=
  match fuel with
  | O => [s]
  | S fuel' =>
      match find_here sep s with
      | Some k => take k s :: split_from fuel' sep (drop (k + String.length sep) s)
      | None => [s]
      end
  end.

Definition split (sep s : string) : list string :=
  split_from (S (String.length s)) sep s.

(** The double quote and the newline, which a string literal cannot
    spell. *)
Definition dq : string := String (ascii_of_nat 34) EmptyString.
Definition nl : string := String (ascii_of_nat 10) EmptyString.

(** [str(n)] for a non-negative integer. *)
Fixpoint digits_from (fuel n : nat) (acc : string) : string :=
  match fuel with
  | O => acc
  | S fuel' =>
      let acc' := String (ascii_of_nat (48 + n mod 10)) acc in
      if n / 10 =? 0 then acc' else digits_from fuel' (n / 10) acc'
  end.

Definition str_of_nat (n : nat) : string := digits_from (S n) n EmptyString.

End PyStr.

(** ** Reference cleaning (x2s_core/parser/scenario_parser.py) *)

Definition _clean_ref (value : string) : string :=
  let text := PyStr.strip value in
  if PyStr.startswith "#//" text then PyStr.drop 3 text
  else if PyStr.startswith "#/" text then
    let second_slash := PyStr.find "/" text 2 in
    if (second_slash >? 0)%Z then PyStr.drop (Z.to_nat second_slash + 1) text
    else PyStr.drop 2 text
  else if PyStr.startswith "#" text then PyStr.drop 1 text
  else text.

(** ** Regular expressions (Python's [re] module)

    Patterns are kept as the strings of the source and parsed by
    [Re.parse]; matching is the backtracking search of [re]: leftmost
    match, alternatives in order, greedy repetition unless marked lazy. *)

Module Re.

Inductive cclass := ClsDigit | ClsWord | ClsSpace.

Inductive citem :=
| ICh (c : ascii)
| IRange (a b : ascii)
| ICls (neg : bool) (k : cclass).

Inductive re :=
| Empty
| Lit (c : ascii)
| AnyChar
| CSet (neg : bool) (items : list citem)
| Seq (r1 r2 : re)
| Alt (r1 r2 : re)
| Rep (greedy : bool) (lo : nat) (hi : option nat) (r : re)
| Grp (i : nat) (r : re)
| Bol
| Eol
| WordB (neg : bool)
| Look (neg : bool) (r : re)
| Never.

(** The regex class [\w]: alphanumeric characters and the underscore. *)
Definition is_word (c : ascii) : bool :=
  PyStr.isalnum_char c || (PyStr.code c =? 95).

Definition in_class (k : cclass) (c : ascii) : bool :=
  match k with
  | ClsDigit => PyStr.is_decimal c
  | ClsWord => is_word c
  | ClsSpace => PyStr.isspace c
  end.

Definition in_item (it : citem) (c : ascii) : bool :=
  match it with
  | ICh x => Ascii.eqb x c
  | IRange a b => (PyStr.code a <=? PyStr.code c) && (PyStr.code c <=? PyStr.code b)
  | ICls neg k => xorb neg (in_class k c)
  end.

Definition in_items (items : list citem) (c : ascii) : bool :=
  existsb (fun it => in_item it c) items.

(** One character against a literal or a set, with or without
    [re.IGNORECASE]. *)
Definition lit_ok (icase : bool) (p c : ascii) : bool :=
  if icase then Ascii.eqb (PyStr.lower_char p) (PyStr.lower_char c)
  else Ascii.eqb p c.

Definition set_ok (icase neg : bool) (items : list citem) (c : ascii) : bool :=
  xorb neg
    (if icase
     then in_items items c || in_items items (PyStr.lower_char c)
          || in_items items (PyStr.upper_char c)
     else in_items items c).

(** The state of a match attempt: the offset reached, the character
    before it, the text after it, and the spans of the groups closed
    so far (latest first). *)
Record mstate := mkState {
  pos : nat;
  prev : option ascii;
  rest : list ascii;
  caps : list (nat * (nat * nat))
}.

Definition step (c : ascii) (tl : list ascii) (st : mstate) : mstate :=
  mkState (S (pos st)) (Some c) tl (caps st).

Definition set_cap (i a b : nat) (st : mstate) : mstate :=
  mkState (pos st) (prev st) (rest st) ((i, (a, b)) :: caps st).

Definition word_opt (o : option ascii) : bool :=
  match o with Some c => is_word c | None => false end.

Definition at_boundary (st : mstate) : bool :=
  xorb (word_opt (prev st)) (word_opt (hd_error (rest st))).

Definition below (n : nat) (hi : option nat) : bool :=
  match hi with Some h => n <? h | None => true end.

Fixpoint run (icase : bool) (R : Type) (r : re) (st : mstate)
         (k : mstate -> option R) {struct r} : option R :=
  match r with
  | Empty => k st
  | Never => None
  | Lit p =>
      match rest st with
      | c :: tl => if lit_ok icase p c then k (step c tl st) else None
      | [] => None
      end
  | AnyChar =>
      match rest st with
      | c :: tl => if PyStr.code c =? 10 then None else k (step c tl st)
      | [] => None
      end
  | CSet neg items =>
      match rest st with
      | c :: tl => if set_ok icase neg items c then k (step c tl st) else None
      | [] => None
      end
  | Seq a b => run icase R a st (fun st' => run icase R b st' k)
  | Alt a b =>
      match run icase R a st k with
      | Some x => Some x
      | None => run icase R b st k
      end
  | Rep greedy lo hi body =>
      (fix loop (fuel n : nat) (st : mstate) {struct fuel} : option R :=
         match fuel with
         | O => None
         | S fuel' =>
             if greedy then
               match (if below n hi
                      then run icase R body st (fun st' =>
                             if (pos st <? pos st') || (n <? lo)
                             then loop fuel' (S n) st' else None)
                      else None) with
               | Some x => Some x
               | None => if lo <=? n then k st else None
               end
             else
               match (if lo <=? n then k st else None) with
               | Some x => Some x
               | None =>
                   if below n hi
                   then run icase R body st (fun st' =>
                          if (pos st <? pos st') || (n <? lo)
                          then loop fuel' (S n) st' else None)
                   else None
               end
         end) (List.length (rest st) + lo + 1) 0 st
  | Grp i body =>
      run icase R body st (fun st' => k (set_cap i (pos st) (pos st') st'))
  | Bol => if pos st =? 0 then k st else None
  | Eol =>
      match rest st with
      | [] => k st
      | [c] => if PyStr.code c =? 10 then k st else None
      | _ => None
      end
  | WordB neg => if xorb neg (at_boundary st) then k st else None
  | Look neg body =>
      match run icase unit body st (fun _ => Some tt) with
      | Some _ => if neg then None else k st
      | None => if neg then k st else None
      end
  end.

(** A match object: the span of the match and of its groups. *)
Record mobj := mkMatch {
  m_start : nat;
  m_end : nat;
  m_caps : list (nat * (nat * nat))
}.

Definition attempt (icase : bool) (r : re) (st : mstate) : option mobj :=
  run icase mobj r (mkState (pos st) (prev st) (rest st) [])
      (fun e => Some (mkMatch (pos st) (pos e) (caps e))).

(** First match at or after the state [st], trying each offset in
    turn. *)
Fixpoint scan (icase : bool) (r : re) (p : nat) (pv : option ascii)
         (l : list ascii) : option mobj :=
  match attempt icase r (mkState p pv l []) with
  | Some m => Some m
  | None =>
      match l with
      | [] => None
      | c :: tl => scan icase r (S p) (Some c) tl
      end
  end.

Definition chars (s : string) : list ascii := list_ascii_of_string s.

Definition last_char (s : string) : option ascii :=
  List.last (map Some (chars s)) None.

(** State at offset [p] of the subject [s]. *)
Definition state_at (s : string) (p : nat) : mstate :=
  mkState p (last_char (PyStr.take p s)) (chars (PyStr.drop p s)) [].

Definition search_at (icase : bool) (r : re) (s : string) (p : nat) : option mobj :=
  let st := state_at s p in scan icase r (pos st) (prev st) (rest st).

(** [re.search(r, s)] *)
Definition search (icase : bool) (r : re) (s : string) : option mobj :=
  search_at icase r s 0.

(** [re.match(r, s)] *)
Definition match_ (icase : bool) (r : re) (s : string) : option mobj :=
  attempt icase r (state_at s 0).

(** [re.fullmatch(r, s)] *)
Definition fullmatch (icase : bool) (r : re) (s : string) : option mobj :=
  run icase mobj r (state_at s 0)
      (fun e => match rest e with
                | [] => Some (mkMatch 0 (pos e) (caps e))
                | _ => None
                end).

(** [m.group(0)] and [m.group(i)] on the subject [s]. *)
Definition group0 (s : string) (m : mobj) : string :=
  PyStr.slice (m_start m) (m_end m) s.

Fixpoint cap_lookup (i : nat) (l : list (nat * (nat * nat))) : option (nat * nat) :=
  match l with
  | [] => None
  | (j, span) :: tl => if i =? j then Some span else cap_lookup i tl
  end.

Definition group (s : string) (m : mobj) (i : nat) : option string :=
  match cap_lookup i (m_caps m) with
  | Some (a, b) => Some (PyStr.slice a b s)
  | None => None
  end.

Definition group_or_empty (s : string) (m : mobj) (i : nat) : string :=
  match group s m i with Some g => g | None => EmptyString end.

(** [re.finditer(r, s)]: the matches that do not overlap, left to
    right; after an empty match the scan resumes one character on. *)
Fixpoint finditer_from (fuel : nat) (icase : bool) (r : re) (s : string)
         (p : nat) : list mobj :=
  match fuel with
  | O => []
  | S fuel' =>
      if String.length s <? p then []
      else match search_at icase r s p with
           | None => []
           | Some m =>
               m :: finditer_from fuel' icase r s
                      (if m_end m =? m_start m then S (m_end m) else m_end m)
           end
  end.

Definition finditer (icase : bool) (r : re) (s : string) : list mobj :=
  finditer_from (S (S (String.length s))) icase r s 0.

(** [re.findall(r, s)] for a pattern with exactly one group. *)
Definition findall1 (icase : bool) (r : re) (s : string) : list string :=
  map (fun m => group_or_empty s m 1) (finditer icase r s).

(** [re.sub(r, repl, s)] with a callable [repl]. *)
Fixpoint sub_matches (s : string) (cur : nat) (repl : mobj -> string)
         (ms : list mobj) : string :=
  match ms with
  | [] => PyStr.drop cur s
  | m :: tl =>
      PyStr.slice cur (m_start m) s ++ repl m ++ sub_matches s (m_end m) repl tl
  end.

Definition sub_fn (icase : bool) (r : re) (repl : mobj -> string) (s : string) : string :=
  sub_matches s 0 repl (finditer icase r s).

(** [re.sub(r, repl, s)] with a replacement text free of backslashes. *)
Definition sub (icase : bool) (r : re) (repl : string) (s : string) : string :=
  sub_fn icase r (fun _ => repl) s.

(** *** The pattern syntax *)

Definition is_digit_char (c : ascii) : bool := PyStr.is_decimal c.

Fixpoint read_nat (l : list ascii) (acc : nat) : nat * list ascii :=
  match l with
  | c :: tl =>
      if is_digit_char c then read_nat tl (10 * acc + (PyStr.code c - 48))
      else (acc, l)
  | [] => (acc, l)
  end.

(** The escape [\c] outside and inside a set. *)
Definition escape_item (c : ascii) : citem :=
  match c with
  | "d"%char => ICls false ClsDigit
  | "D"%char => ICls true ClsDigit
  | "w"%char => ICls false ClsWord
  | "W"%char => ICls true ClsWord
  | "s"%char => ICls false ClsSpace
  | "S"%char => ICls true ClsSpace
  | "n"%char => ICh (ascii_of_nat 10)
  | "r"%char => ICh (ascii_of_nat 13)
  | "t"%char => ICh (ascii_of_nat 9)
  | _ => ICh c
  end.

Definition escape_atom (c : ascii) : re :=
  match c with
  | "b"%char => WordB false
  | "B"%char => WordB true
  | _ => match escape_item c with
         | ICh x => Lit x
         | it => CSet false [it]
         end
  end.

(** Items of a set up to the closing bracket. *)
Fixpoint parse_items (fuel : nat) (l : list ascii) (acc : list citem)
  : option (list citem * list ascii) :=
  match fuel with
  | O => None
  | S fuel' =>
      match l with
      | [] => None
      | "]"%char :: tl => Some (rev acc, tl)
      | "\"%char :: c :: tl => parse_items fuel' tl (escape_item c :: acc)
      | a :: "-"%char :: b :: tl =>
          if Ascii.eqb b "]" then parse_items fuel' ("-"%char :: b :: tl) (ICh a :: acc)
          else parse_items fuel' tl (IRange a b :: acc)
      | a :: tl => parse_items fuel' tl (ICh a :: acc)
      end
  end.

(** A quantifier after an atom, if any: bounds and greediness. *)
Definition lazy_mark (l : list ascii) : bool * list ascii :=
  match l with
  | "?"%char :: tl => (false, tl)
  | _ => (true, l)
  end.

Definition parse_quant (l : list ascii)
  : option (nat * option nat * bool * list ascii) :=
  match l with
  | "*"%char :: tl => let '(g, tl') := lazy_mark tl in Some (0, None, g, tl')
  | "+"%char :: tl => let '(g, tl') := lazy_mark tl in Some (1, None, g, tl')
  | "?"%char :: tl => let '(g, tl') := lazy_mark tl in Some (0, Some 1, g, tl')
  | "{"%char :: tl =>
      let '(lo, tl1) := read_nat tl 0 in
      match tl1 with
      | "}"%char :: tl2 =>
          let '(g, tl') := lazy_mark tl2 in Some (lo, Some lo, g, tl')
      | ","%char :: "}"%char :: tl2 =>
          let '(g, tl') := lazy_mark tl2 in Some (lo, None, g, tl')
      | ","%char :: tl2 =>
          let '(hi, tl3) := read_nat tl2 0 in
          match tl3 with
          | "}"%char :: tl4 =>
              let '(g, tl') := lazy_mark tl4 in Some (lo, Some hi, g, tl')
          | _ => None
          end
      | _ => None
      end
  | _ => None
  end.

Definition quantified (a : re) (l : list ascii) : re * list ascii :=
  match parse_quant l with
  | Some (lo, hi, g, tl) => (Rep g lo hi a, tl)
  | None => (a, l)
  end.

(** Alternatives, sequences and atoms; [g] is the number of the next
    group to open. *)
Fixpoint parse_alt (fuel : nat) (l : list ascii) (g : nat)
  : option (re * list ascii * nat) :=
  match fuel with
  | O => None
  | S fuel' =>
      match parse_seq fuel' l g with
      | Some (a, "|"%char :: tl, g1) =>
          match parse_alt fuel' tl g1 with
          | Some (b, tl', g2) => Some (Alt a b, tl', g2)
          | None => None
          end
      | other => other
      end
  end
with parse_seq (fuel : nat) (l : list ascii) (g : nat)
  : option (re * list ascii * nat) :=
  match fuel with
  | O => None
  | S fuel' =>
      match l with
      | [] => Some (Empty, l, g)
      | "|"%char :: _ => Some (Empty, l, g)
      | ")"%char :: _ => Some (Empty, l, g)
      | _ =>
          match parse_atom fuel' l g with
          | Some (a, tl, g1) =>
              let '(a', tl') := quantified a tl in
              match parse_seq fuel' tl' g1 with
              | Some (Empty, tl'', g2) => Some (a', tl'', g2)
              | Some (b, tl'', g2) => Some (Seq a' b, tl'', g2)
              | None => None
              end
          | None => None
          end
      end
  end
with parse_atom (fuel : nat) (l : list ascii) (g : nat)
  : option (re * list ascii * nat) :=
  match fuel with
  | O => None
  | S fuel' =>
      match l with
      | [] => None
      | "("%char :: "?"%char :: ":"%char :: tl =>
          match parse_alt fuel' tl g with
          | Some (a, ")"%char :: tl', g1) => Some (a, tl', g1)
          | _ => None
          end
      | "("%char :: "?"%char :: "="%char :: tl =>
          match parse_alt fuel' tl g with
          | Some (a, ")"%char :: tl', g1) => Some (Look false a, tl', g1)
          | _ => None
          end
      | "("%char :: "?"%char :: "!"%char :: tl =>
          match parse_alt fuel' tl g with
          | Some (a, ")"%char :: tl', g1) => Some (Look true a, tl', g1)
          | _ => None
          end
      | "("%char :: tl =>
          match parse_alt fuel' tl (S g) with
          | Some (a, ")"%char :: tl', g1) => Some (Grp g a, tl', g1)
          | _ => None
          end
      | "["%char :: "^"%char :: tl =>
          match parse_items fuel' tl [] with
          | Some (items, tl') => Some (CSet true items, tl', g)
          | None => None
          end
      | "["%char :: tl =>
          match parse_items fuel' tl [] with
          | Some (items, tl') => Some (CSet false items, tl', g)
          | None => None
          end
      | "\"%char :: c :: tl => Some (escape_atom c, tl, g)
      | "."%char :: tl => Some (AnyChar, tl, g)
      | "^"%char :: tl => Some (Bol, tl, g)
      | "$"%char :: tl => Some (Eol, tl, g)
      | c :: tl => Some (Lit c, tl, g)
      end
  end.

(** [re.compile(p)]; a pattern outside the syntax above never
    matches. *)
Definition parse (p : string) : re :=
  match parse_alt (4 * String.length p + 8) (chars p) 1 with
  | Some (r, [], _) => r
  | _ => Never
  end.

End Re.

(** ** The intermediate representation (x2s_core/models) *)

(** [dict] look-up, membership and keys over association lists. *)
Module Dict.
Definition t (A : Type) := list (string * A).

Definition keys {A} (d : t A) : list string := map fst d.
Definition values {A} (d : t A) : list A := map snd d.

Fixpoint get {A} (k : string) (d : t A) : option A :=
  match d with
  | [] => None
  | (k', v) :: tl => if String.eqb k k' then Some v else get k tl
  end.

Definition mem {A} (k : string) (d : t A) : bool :=
  match get k d with Some _ => true | None => false end.

(** [d[k] = v]: an existing key keeps its place, a new one goes last. *)
Fixpoint set {A} (k : string) (v : A) (d : t A) : t A :=
  match d with
  | [] => [(k, v)]
  | (k', v') :: tl =>
      if String.eqb k k' then (k, v) :: tl else (k', v') :: set k v tl
  end.
End Dict.

(** [x in l] for a list or a set of strings. *)
Definition str_in (x : string) (l : list string) : bool :=
  existsb (String.eqb x) l.

Inductive SnowflakeType := VARCHAR | NUMBER | BOOLEAN | DATE | TIMESTAMP_NTZ.

Inductive DatabaseMode := SNOWFLAKE | HANA.

Inductive HanaVersion :=
  HANA_1_0 | HANA_2_0 | HANA_2_0_SPS01 | HANA_2_0_SPS03 | HANA_2_0_SPS04.

Inductive XMLFormat := CALCULATION_SCENARIO | COLUMN_VIEW.

Module DataTypeSpec.
Record t := mk {
  type : SnowflakeType;
  length : option Z;
  scale : option Z
}.
End DataTypeSpec.

Inductive DataSourceType := TABLE | VIEW | CALCULATION_VIEW | UNKNOWN.

Module Attribute.
Record t := mk {
  name : string;
  data_type : DataTypeSpec.t;
  description : option string
}.
End Attribute.

Module ExpressionType.
Inductive t := COLUMN | LITERAL | FUNCTION | CASE | RAW.
End ExpressionType.

Module Expression.
Inductive t := mk {
  expression_type : ExpressionType.t;
  value : string;
  arguments : option (list t);
  data_type : option DataTypeSpec.t;
  language : option string
}.
End Expression.

Module AttributeMapping.
Record t := mk {
  target_name : string;
  expression : Expression.t;
  data_type : option DataTypeSpec.t;
  source_node : option string
}.
End AttributeMapping.

Module CalculatedAttribute.
Record t := mk {
  name : string;
  expression : Expression.t;
  data_type : option DataTypeSpec.t;
  description : option string;
  hidden : bool;
  properties : Dict.t string
}.
End CalculatedAttribute.

Module PredicateKind.
Inductive t := COMPARISON | BETWEEN | IN_LIST | IS_NULL | RAW.
End PredicateKind.

Module Predicate.
Record t := mk {
  kind : PredicateKind.t;
  left : Expression.t;
  operator : option string;
  right : option Expression.t;
  including : bool
}.
End Predicate.

Module NodeKind.
Inductive t := PROJECTION | JOIN | AGGREGATION | CALCULATION | UNION | RANK.
End NodeKind.

Module JoinType.
Inductive t := INNER | LEFT_OUTER | RIGHT_OUTER | FULL_OUTER.
End JoinType.

Module JoinCondition.
Record t := mk {
  left : Expression.t;
  right : Expression.t;
  operator : string
}.
End JoinCondition.

Module AggregationSpec.
Record t := mk {
  target_name : string;
  function : string;
  expression : Expression.t;
  data_type : option DataTypeSpec.t
}.
End AggregationSpec.

Module OrderBySpec.
Record t := mk {
  column : string;
  direction : string
}.
End OrderBySpec.

(** The subclasses of [Node] add fields to the common ones; [Plain] is
    the base class itself. *)
Inductive NodeExt :=
| Plain
| JoinNode (join_type : JoinType.t) (conditions : list JoinCondition.t)
| AggregationNode (group_by : list string) (aggregations : list AggregationSpec.t)
| UnionNode (union_all : bool)
| RankNode (partition_by : list string) (order_by : list OrderBySpec.t)
           (rank_column : string) (threshold : option Z).

Module Node.
Record t := mk {
  node_id : string;
  kind : NodeKind.t;
  inputs : list string;
  mappings : list AttributeMapping.t;
  filters : list Predicate.t;
  properties : Dict.t string;
  output_attributes : Dict.t Attribute.t;
  view_attributes : list string;
  calculated_attributes : Dict.t CalculatedAttribute.t;
  ext : NodeExt
}.
End Node.

Module CurrencyConversion.
Record t := mk {
  source_currency : Expression.t;
  target_currency : Expression.t;
  client : Expression.t;
  reference_date : Expression.t;
  rate_type : string;
  schema : option string
}.
End CurrencyConversion.

Module Measure.
Record t := mk {
  name : string;
  expression : Expression.t;
  aggregation : string;
  data_type : DataTypeSpec.t;
  currency_conversion : option CurrencyConversion.t
}.
End Measure.

Module Variable_.
Record t := mk {
  variable_id : string;
  description : option string;
  data_type : option string;
  mandatory : bool;
  default_value : option string;
  selection_type : option string;
  multi_line : option bool;
  attribute_name : option string
}.
End Variable_.

Module LogicalAttribute.
Record t := mk {
  name : string;
  column_name : option string;
  column_object : option string;
  schema_name : option string;
  order : option Z;
  description : option string;
  key : bool;
  display : bool;
  hidden : bool;
  semantic_type : option string;
  local_variable : option string
}.
End LogicalAttribute.

Module LogicalCalculatedAttribute.
Record t := mk {
  name : string;
  expression : Expression.t;
  data_type : option DataTypeSpec.t;
  order : option Z;
  description : option string;
  hidden : bool
}.
End LogicalCalculatedAttribute.

Module LogicalMeasure.
Record t := mk {
  name : string;
  aggregation : option string;
  column_name : option string;
  description : option string;
  measure_type : option string;
  data_type : option DataTypeSpec.t;
  formula : option string;
  currency_attribute : option string;
  fixed_currency : option string;
  currency_conversion : option CurrencyConversion.t
}.
End LogicalMeasure.

Module LogicalModel.
Record t := mk {
  model_id : string;
  attributes : list LogicalAttribute.t;
  calculated_attributes : list LogicalCalculatedAttribute.t;
  measures : list LogicalMeasure.t;
  base_node_id : option string
}.
End LogicalModel.

Module DataSource.
Record t := mk {
  source_id : string;
  source_type : DataSourceType;
  schema_name : string;
  object_name : string;
  columns : Dict.t Attribute.t;
  resource_uri : option string
}.
End DataSource.

Module ScenarioMetadata.
Record t := mk {
  scenario_id : string;
  description : option string;
  default_client : option string;
  default_language : option string
}.
End ScenarioMetadata.

Module Scenario.
Record t := mk {
  metadata : ScenarioMetadata.t;
  data_sources : Dict.t DataSource.t;
  nodes : Dict.t Node.t;
  measures : list Measure.t;
  variables : list Variable_.t;
  logical_model : option LogicalModel.t
}.
End Scenario.

(** Truth value of an optional string: [None] and the empty string are
    false. *)
Definition truthy (o : option string) : bool :=
  match o with
  | Some (String _ _) => true
  | _ => false
  end.

(** [a or b] on optional strings with a string default. *)
Definition or_else (o : option string) (d : string) : string :=
  match o with
  | Some (String c s) => String c s
  | _ => d
  end.

(** ** Type inference (xml_to_sql/parser/type_inference.py) *)

Definition re_yyyymmdd : Re.re := Re.parse "\d{8}".
Definition re_iso_date : Re.re := Re.parse "\d{4}-\d{2}-\d{2}".

Definition is_some {A} (o : option A) : bool :=
  match o with Some _ => true | None => false end.

Definition guess_literal_type (value : string) : option DataTypeSpec.t :=
  let stripped := PyStr.strip value in
  match stripped with
  | EmptyString => None
  | _ =>
      if PyStr.isdigit stripped then
        let length := Z.min (Z.of_nat (String.length stripped)) 38 in
        Some (DataTypeSpec.mk NUMBER (Some length) None)
      else if is_some (Re.fullmatch false re_yyyymmdd stripped)
              || is_some (Re.fullmatch false re_iso_date stripped)
      then Some (DataTypeSpec.mk DATE None None)
      else Some (DataTypeSpec.mk VARCHAR
                   (Some (Z.max (Z.of_nat (String.length stripped)) 10)) None)
  end.

(** ** Graph resolver (renderer/renderer.py) *)

(** A [defaultdict]: a total map with a default value. *)
Definition upd {A} (f : string -> A) (k : string) (v : A) : string -> A :=
  fun x => if String.eqb x k then v else f x.

Definition re_digit_prefix : Re.re := Re.parse "^\d+/".

(** The cleaning of an input reference in the topological sort:
    [_clean_ref], then the digit-and-slash prefix removed. *)
Definition clean_input (input_id : string) : string :=
  Re.sub false re_digit_prefix "" (_clean_ref input_id).

Section Resolver.

(** Iteration order of a set of strings given by its members. *)
Variable enum : list string -> list string.

(** The members of [all_ids]. *)
Definition all_ids (scenario : Scenario.t) : list string :=
  (Dict.keys (Scenario.data_sources scenario)
   ++ Dict.keys (Scenario.nodes scenario))%list.

(** The inner loop over the inputs of one node. *)
Fixpoint add_inputs (ids : list string) (node_id : string) (inputs : list string)
         (g : string -> list string) (d : string -> Z)
  : (string -> list string) * (string -> Z) :=
  match inputs with
  | [] => (g, d)
  | input_id :: tl =>
      let cleaned_input := clean_input input_id in
      if str_in cleaned_input ids
      then add_inputs ids node_id tl
             (upd g cleaned_input (g cleaned_input ++ [node_id])%list)
             (upd d node_id (d node_id + 1)%Z)
      else add_inputs ids node_id tl g (upd d node_id (d node_id + 0)%Z)
  end.

(** The loop over [scenario.nodes.items()]. *)
Fixpoint build_graph (ids : list string) (nodes : Dict.t Node.t)
         (g : string -> list string) (d : string -> Z)
  : (string -> list string) * (string -> Z) :=
  match nodes with
  | [] => (g, d)
  | (node_id, node) :: tl =>
      let '(g', d') := add_inputs ids node_id (Node.inputs node) g d in
      build_graph ids tl g' d'
  end.

(** The loop that gives every data source in-degree zero. *)
Fixpoint reset_sources (ds : list string) (d : string -> Z) : string -> Z :=
  match ds with
  | [] => d
  | ds_id :: tl => reset_sources tl (upd d ds_id 0%Z)
  end.

(** The loop over [graph[current]]. *)
Fixpoint visit (deps : list string) (d : string -> Z) (queue : list string)
  : (string -> Z) * list string :=
  match deps with
  | [] => (d, queue)
  | dependent :: tl =>
      let d' := upd d dependent (d dependent - 1)%Z in
      if (d' dependent =? 0)%Z then visit tl d' (queue ++ [dependent])%list
      else visit tl d' queue
  end.

(** The [while queue] loop; [None] when [fuel] iterations did not
    empty the queue. *)
Fixpoint kahn (fuel : nat) (g : string -> list string) (d : string -> Z)
         (queue result : list string) : option (list string) :=
  match queue with
  | [] => Some result
  | current :: queue' =>
      match fuel with
      | O => None
      | S fuel' =>
          let '(d', queue'') := visit (g current) d queue' in
          kahn fuel' g d' queue'' (result ++ [current])%list
      end
  end.

Definition _topological_sort (scenario : Scenario.t) : option (list string) :=
  let ids := all_ids scenario in
  let '(graph, in_degree0) :=
    build_graph ids (Scenario.nodes scenario) (fun _ => []) (fun _ => 0%Z) in
  let in_degree := reset_sources (Dict.keys (Scenario.data_sources scenario)) in_degree0 in
  let queue := filter (fun node_id => (in_degree node_id =? 0)%Z) (enum ids) in
  match kahn (S (List.length (enum ids))) graph in_degree queue [] with
  | None => None
  | Some result =>
      if List.length result <? List.length (enum ids) then
        let missing := filter (fun x => negb (str_in x result)) ids in
        Some (result ++ enum missing)%list
      else Some result
  end.

(** The set [referenced] of [_find_final_node]. *)
Definition referenced (scenario : Scenario.t) : list string :=
  flat_map (fun node => map (PyStr.lstrip_char "#") (Node.inputs node))
           (Dict.values (Scenario.nodes scenario)).

Definition base_node (scenario : Scenario.t) : option string :=
  match Scenario.logical_model scenario with
  | Some lm => if truthy (LogicalModel.base_node_id lm)
               then LogicalModel.base_node_id lm else None
  | None => None
  end.

Definition _find_final_node (scenario : Scenario.t) (ordered : list string)
  : option string :=
  match ordered with
  | [] => None
  | _ =>
      match base_node scenario with
      | Some b => Some b
      | None =>
          match find (fun node_id =>
                        negb (str_in node_id (referenced scenario))
                        && Dict.mem node_id (Scenario.nodes scenario))
                     (rev ordered) with
          | Some node_id => Some node_id
          | None => Some (List.last ordered EmptyString)
          end
      end
  end.

End Resolver.

(** ** Vocabulary of the resolver properties *)

(** An enumeration of sets: each member once, nothing else. *)
Definition enum_ok (enum : list string -> list string) : Prop :=
  forall l, NoDup (enum l) /\ forall x, In x (enum l) <-> In x l.

(** [depends_on s u n]: the node [n] lists an input whose cleaned form
    is the vertex [u]. *)
Definition depends_on (s : Scenario.t) (u n : string) : Prop :=
  exists node input_id,
    In (n, node) (Scenario.nodes s) /\ In input_id (Node.inputs node) /\
    clean_input input_id = u /\ In u (all_ids s).

(** The same, for a node whose id is not also the id of a data source. *)
Definition pure_dep (s : Scenario.t) (u n : string) : Prop :=
  depends_on s u n /\ ~ In n (Dict.keys (Scenario.data_sources s)).

Definition acyclic (R : string -> string -> Prop) : Prop :=
  forall v, ~ clos_trans string R v v.

(** No node has the id of a data source. *)
Definition separate_ids (s : Scenario.t) : Prop :=
  forall n, In n (Dict.keys (Scenario.nodes s)) ->
            ~ In n (Dict.keys (Scenario.data_sources s)).

(** [u] occurs strictly before an occurrence of [n] in [l]. *)
Definition before (u n : string) (l : list string) : Prop :=
  exists l1 l2, l = (l1 ++ n :: l2)%list /\ In u l1.

(** The edges of the dependency graph in the order in which the sort
    records them, as pairs (source, dependent). *)
Definition node_edges (ids : list string) (node_id : string) (inputs : list string)
  : list (string * string) :=
  flat_map (fun input_id =>
              if str_in (clean_input input_id) ids
              then [(clean_input input_id, node_id)] else []) inputs.

Definition edges_of (ids : list string) (nodes : Dict.t Node.t) : list (string * string) :=
  flat_map (fun kv => node_edges ids (fst kv) (Node.inputs (snd kv))) nodes.

Definition edges (s : Scenario.t) : list (string * string) :=
  edges_of (all_ids s) (Scenario.nodes s).

Definition targets (u : string) (E : list (string * string)) : list string :=
  map snd (filter (fun e => String.eqb u (fst e)) E).

Definition count_into (n : string) (E : list (string * string)) : nat :=
  List.length (filter (fun e => String.eqb n (snd e)) E).

(** In-edges of [n] whose source is not yet in [res]. *)
Definition pending (res : list string) (n : string) (E : list (string * string)) : nat :=
  List.length (filter (fun e => String.eqb n (snd e) && negb (str_in (fst e) res)) E).

(** ** Example scenarios *)

Definition plain_node (node_id : string) (inputs : list string) : string * Node.t :=
  (node_id, Node.mk node_id NodeKind.PROJECTION inputs [] [] [] [] [] [] Plain).

Definition table (source_id : string) : string * DataSource.t :=
  (source_id, DataSource.mk source_id TABLE "S" source_id [] None).

Definition scenario_of (sources : Dict.t DataSource.t) (nodes : Dict.t Node.t)
  : Scenario.t :=
  Scenario.mk (ScenarioMetadata.mk "SCN" None None None) sources nodes [] [] None.

(** One enumeration of a set: its members in the order of their last
    occurrence in the list that gives them. *)
Definition nodup_order (l : list string) : list string := nodup string_dec l.

(** A node whose id is also the id of a data source, and which reads
    another node. *)
Definition overlap_scenario : Scenario.t :=
  scenario_of [table "X"] [plain_node "X" ["Y"]; plain_node "Y" []].

(** A node [N] that reads a node [M] whose id is also the id of a data
    source; [M] reads [U], and [U] reads [W]. *)
Definition chain_scenario : Scenario.t :=
  scenario_of [table "M"]
    [plain_node "M" ["U"]; plain_node "W" []; plain_node "U" ["W"];
     plain_node "N" ["M"]].

(** Two nodes that read each other through prefixed references, and a
    third node that nothing reads. *)
Definition cycle_scenario : Scenario.t :=
  scenario_of [] [plain_node "A" ["#/0/B"]; plain_node "B" ["#/0/A"];
                  plain_node "C" []].


(** A join over a table that feeds two projections. *)
Definition dag_scenario : Scenario.t :=
  scenario_of [table "T"]
    [plain_node "Q" ["#//P"; "T"]; plain_node "P" ["#/0/T"]].

(** The terminal node as the resolver is described: the declared base
    node if there is one, otherwise the last node of the order that no
    other node lists as an input, references being compared after the
    cleaning of the topological sort. *)
Definition referenced_by_other (scenario : Scenario.t) (node_id : string) : bool :=
  existsb (fun kv =>
             negb (String.eqb (fst kv) node_id)
             && existsb (fun input_id => String.eqb (clean_input input_id) node_id)
                        (Node.inputs (snd kv)))
          (Scenario.nodes scenario).

Definition described_final_node (scenario : Scenario.t) (ordered : list string)
  : option string :=
  match base_node scenario with
  | Some b => Some b
  | None =>
      find (fun node_id =>
              Dict.mem node_id (Scenario.nodes scenario)
              && negb (referenced_by_other scenario node_id))
           (rev ordered)
  end.

(** ** Replacement templates of [re.sub] *)

Module Template.

Definition is_octal (c : ascii) : bool :=
  (48 <=? PyStr.code c) && (PyStr.code c <=? 55).

Definition is_ascii_letter (c : ascii) : bool :=
  let n := PyStr.code c in
  ((65 <=? n) && (n <=? 90)) || ((97 <=? n) && (n <=? 122)).

Definition oct (c : ascii) : nat := PyStr.code c - 48.

Definition simple_escape (c : ascii) : option ascii :=
  match c with
  | "a"%char => Some (ascii_of_nat 7)
  | "b"%char => Some (ascii_of_nat 8)
  | "f"%char => Some (ascii_of_nat 12)
  | "n"%char => Some (ascii_of_nat 10)
  | "r"%char => Some (ascii_of_nat 13)
  | "t"%char => Some (ascii_of_nat 9)
  | "v"%char => Some (ascii_of_nat 11)
  | "\"%char => Some "\"%char
  | _ => None
  end.

(** The text a template stands for when the pattern has no group and
    the whole match is [whole]; [None] is the [re.error] of a bad
    escape or of a reference to a group that does not exist. *)
Fixpoint expand (fuel : nat) (whole : string) (t : list ascii) : option string :=
  match fuel with
  | O => None
  | S fuel' =>
      match t with
      | [] => Some EmptyString
      | "\"%char :: "g"%char :: "<"%char :: "0"%char :: ">"%char :: tl =>
          option_map (String.append whole) (expand fuel' whole tl)
      | "\"%char :: "g"%char :: _ => None
      | "\"%char :: "0"%char :: tl =>
          match tl with
          | a :: b :: tl' =>
              if is_octal a && is_octal b
              then option_map (String (ascii_of_nat (8 * oct a + oct b)))
                              (expand fuel' whole tl')
              else if is_octal a
              then option_map (String (ascii_of_nat (oct a))) (expand fuel' whole (b :: tl'))
              else option_map (String (ascii_of_nat 0)) (expand fuel' whole tl)
          | [a] =>
              if is_octal a then Some (String (ascii_of_nat (oct a)) EmptyString)
              else option_map (String (ascii_of_nat 0)) (expand fuel' whole tl)
          | [] => Some (String (ascii_of_nat 0) EmptyString)
          end
      | "\"%char :: c :: tl =>
          if PyStr.is_decimal c then
            match tl with
            | a :: b :: tl' =>
                if is_octal c && is_octal a && is_octal b
                   && (64 * oct c + 8 * oct a + oct b <=? 255)
                then option_map (String (ascii_of_nat (64 * oct c + 8 * oct a + oct b)))
                                (expand fuel' whole tl')
                else None
            | _ => None
            end
          else
            match simple_escape c with
            | Some x => option_map (String x) (expand fuel' whole tl)
            | None =>
                if is_ascii_letter c then None
                else option_map (fun r => String "\" (String c r)) (expand fuel' whole tl)
            end
      | ["\"%char] => None
      | c :: tl => option_map (String c) (expand fuel' whole tl)
      end
  end.

(** A pattern that matches the text [s] itself: [re.escape(s)]. *)
Fixpoint literal (s : list ascii) : Re.re :=
  match s with
  | [] => Re.Empty
  | [c] => Re.Lit c
  | c :: tl => Re.Seq (Re.Lit c) (literal tl)
  end.

(** [re.sub(r, template, s)] for a pattern without groups. *)
Definition sub (icase : bool) (r : Re.re) (template s : string) : option string :=
  let ms := Re.finditer icase r s in
  let pieces :=
    map (fun m => expand (S (String.length template)) (Re.group0 s m)
                         (Re.chars template)) ms in
  if forallb is_some pieces
  then Some (Re.sub_matches s 0
               (fun m => match expand (S (String.length template)) (Re.group0 s m)
                                      (Re.chars template) with
                         | Some x => x
                         | None => EmptyString
                         end) ms)
  else None.

End Template.

(** ** The render context and its monad (renderer/renderer.py) *)

Module RenderContext.
Record t := mk {
  scenario : Scenario.t;
  schema_overrides : Dict.t string;
  target_schema : option string;
  client : string;
  language : string;
  database_mode : DatabaseMode;
  hana_version : option HanaVersion;
  xml_format : option XMLFormat;
  cte_aliases : Dict.t string;
  warnings : list string;
  currency_udf : option string;
  currency_schema : option string;
  currency_table : option string
}.

Definition with_warnings (w : list string) (c : t) : t :=
  mk (scenario c) (schema_overrides c) (target_schema c) (client c) (language c)
     (database_mode c) (hana_version c) (xml_format c) (cte_aliases c) w
     (currency_udf c) (currency_schema c) (currency_table c).

Definition with_cte_aliases (a : Dict.t string) (c : t) : t :=
  mk (scenario c) (schema_overrides c) (target_schema c) (client c) (language c)
     (database_mode c) (hana_version c) (xml_format c) a (warnings c)
     (currency_udf c) (currency_schema c) (currency_table c).
End RenderContext.

(** What a call ends in: a value, a raised exception, or no end at
    all. *)
Inductive outcome (A : Type) :=
| Ok (a : A)
| Raise (exn : string)
| Diverge.
Arguments Ok {A} a.
Arguments Raise {A} exn.
Arguments Diverge {A}.

(** A computation over the render context: the context is the one
    mutable object of a render, and it refers to the scenario. *)
Definition M (A : Type) : Type := RenderContext.t -> outcome A * RenderContext.t.

Definition ret {A} (a : A) : M A := fun ctx => (Ok a, ctx).

Definition bind {A B} (m : M A) (k : A -> M B) : M B :=
  fun ctx =>
    match m ctx with
    | (Ok a, ctx') => k a ctx'
    | (Raise e, ctx') => (Raise e, ctx')
    | (Diverge, ctx') => (Diverge, ctx')
    end.

Declare Scope render_scope.
Delimit Scope render_scope with render.
Notation "x <- c ;; k" := (bind c (fun x => k))
  (at level 61, c at next level, right associativity) : render_scope.
Notation "c ;;; k" := (bind c (fun _ => k))
  (at level 61, right associativity) : render_scope.
Open Scope render_scope.

Definition raise {A} (e : string) : M A := fun ctx => (Raise e, ctx).

Definition diverge {A} : M A := fun ctx => (Diverge, ctx).

(** Read the context. *)
Definition ask : M RenderContext.t := fun ctx => (Ok ctx, ctx).

(** [ctx.warnings.append(msg)] *)
Definition warn (msg : string) : M unit :=
  fun ctx => (Ok tt, RenderContext.with_warnings (RenderContext.warnings ctx ++ [msg])%list ctx).

(** [ctx.cte_aliases[k] = v] *)
Definition set_alias (k v : string) : M unit :=
  fun ctx => (Ok tt, RenderContext.with_cte_aliases (Dict.set k v (RenderContext.cte_aliases ctx)) ctx).

(** A [for] loop that threads an accumulator. *)
Fixpoint foldM {A B} (f : B -> A -> M B) (l : list A) (acc : B) : M B :=
  match l with
  | [] => ret acc
  | x :: tl => acc' <- f acc x ;; foldM f tl acc'
  end.

(** [RenderContext.__init__] *)
Definition new_context
           (scenario : Scenario.t)
           (schema_overrides : option (Dict.t string))
           (target_schema client language : option string)
           (database_mode : DatabaseMode)
           (hana_version : option HanaVersion)
           (xml_format : option XMLFormat)
           (currency_udf currency_schema currency_table : option string)
  : RenderContext.t :=
  RenderContext.mk
    scenario
    (match schema_overrides with Some (x :: d) => x :: d | _ => [] end)
    target_schema
    (match client with
     | Some (String c s) => String c s
     | _ => or_else (ScenarioMetadata.default_client (Scenario.metadata scenario)) "PROD"
     end)
    (match language with
     | Some (String c s) => String c s
     | _ => or_else (ScenarioMetadata.default_language (Scenario.metadata scenario)) "EN"
     end)
    database_mode hana_version xml_format [] []
    currency_udf currency_schema currency_table.

(** [RenderContext.get_cte_alias] *)
Definition get_cte_alias (node_id : string) : M string :=
  ctx <- ask ;;
  match Dict.get node_id (RenderContext.cte_aliases ctx) with
  | Some alias => ret alias
  | None =>
      let cleaned := _clean_ref node_id in
      let cleaned := Re.sub false re_digit_prefix "" cleaned in
      let normalized :=
        PyStr.replace "/" "_" (PyStr.replace " " "_" (PyStr.lower cleaned)) in
      set_alias node_id normalized ;;;
      ret normalized
  end.

(** [RenderContext.resolve_schema] *)
Definition resolve_schema (ctx : RenderContext.t) (schema_name : string) : string :=
  if truthy (RenderContext.target_schema ctx)
  then or_else (RenderContext.target_schema ctx) EmptyString
  else match Dict.get schema_name (RenderContext.schema_overrides ctx) with
       | Some v => v
       | None => schema_name
       end.

Definition _quote_identifier_part (name : string) : string :=
  match name with
  | EmptyString => PyStr.dq ++ PyStr.dq
  | String c _ =>
      if PyStr.isalpha_char c && PyStr.isalnum (PyStr.replace "_" "" name)
      then PyStr.upper name
      else PyStr.dq ++ name ++ PyStr.dq
  end.

Definition _quote_identifier (name : string) : string :=
  if PyStr.contains "." name then
    let '(schema_part, object_part) := PyStr.split_once "." name in
    _quote_identifier_part schema_part ++ "." ++ _quote_identifier_part object_part
  else _quote_identifier_part name.

Definition _map_join_type_to_sql (join_type : JoinType.t) : string :=
  match join_type with
  | JoinType.INNER => "INNER"
  | JoinType.LEFT_OUTER => "LEFT OUTER"
  | JoinType.RIGHT_OUTER => "RIGHT OUTER"
  | JoinType.FULL_OUTER => "FULL OUTER"
  end.

Definition negation_map : Dict.t string :=
  [("=", "<>"); ("<>", "="); ("!=", "="); (">", "<="); (">=", "<");
   ("<", ">="); ("<=", ">"); ("IN", "NOT IN"); ("NOT IN", "IN");
   ("LIKE", "NOT LIKE"); ("NOT LIKE", "LIKE"); ("BETWEEN", "NOT BETWEEN");
   ("NOT BETWEEN", "BETWEEN")].

Definition _negate_operator (op : string) : string :=
  let op_upper := PyStr.upper op in
  match Dict.get op_upper negation_map with
  | Some v => v
  | None => "NOT " ++ op
  end.

(** The context handed to the translator for the calculated attributes
    of the logical model: a fresh object with these four fields. *)
Module FormulaContext.
Record t := mk {
  client : string;
  language : string;
  database_mode : DatabaseMode;
  hana_version : option HanaVersion
}.
End FormulaContext.

(** What the renderer calls and this development does not open: the
    expression renderer with the formula translator behind it (their
    rewrite catalogs are external resources), the package-path lookup
    (an external collaborator), the clean-up of HANA parameter
    conditions, the renderers of the node kinds other than the join,
    and the text an enum member formats to inside an f-string (which
    depends on the version of the interpreter).  Each of them that
    receives the render context is a computation over it. *)
Record Collaborators := {
  _render_expression : Expression.t -> option string -> M string;
  translate_raw_formula : string -> M string;
  translate_raw_formula_in : string -> FormulaContext.t -> outcome string;
  _cleanup_hana_parameter_conditions : string -> string;
  get_package : string -> option string;
  _render_projection : Node.t -> M string;
  _render_aggregation : Node.t -> M string;
  _render_union : Node.t -> M string;
  _render_rank : Node.t -> M string;
  _render_calculation : Node.t -> M string;
  format_predicate_kind : PredicateKind.t -> string;
  format_node_kind : NodeKind.t -> string
}.

Definition re_external_cv : Re.re :=
  Re.parse "(?:#/0/(?:Star Join/)?)?([A-Za-z0-9_\.]+)::([A-Za-z0-9_]+)$".

Definition mode_is_hana (m : DatabaseMode) : bool :=
  match m with HANA => true | SNOWFLAKE => false end.

Definition is_calculation_view (t : DataSourceType) : bool :=
  match t with CALCULATION_VIEW => true | _ => false end.

Definition nonempty (s : string) : bool :=
  match s with EmptyString => false | _ => true end.

(** [l.append(x)] *)
Definition snoc {A} (l : list A) (x : A) : list A := List.app l [x].

(** The text [s] between double quotes. *)
Definition quoted (s : string) : string := PyStr.dq ++ s ++ PyStr.dq.

Section Renderer.

Variable C : Collaborators.

(** The package of a calculation view: the schema name when it has
    the shape of a package path, the package lookup otherwise. *)
Definition package_of (ds : DataSource.t) : option string :=
  if nonempty (DataSource.schema_name ds) && PyStr.contains "." (DataSource.schema_name ds)
  then Some (DataSource.schema_name ds)
  else get_package C (DataSource.object_name ds).

Definition _render_from (input_id : string) : M string :=
  ctx <- ask ;;
  match Dict.get input_id (Scenario.data_sources (RenderContext.scenario ctx)) with
  | Some ds =>
      if mode_is_hana (RenderContext.database_mode ctx)
         && is_calculation_view (DataSource.source_type ds)
      then
        let cv_name := DataSource.object_name ds in
        let package := package_of ds in
        if truthy package
        then ret (quoted "_SYS_BIC" ++ "." ++ _quote_identifier (or_else package EmptyString ++ "/" ++ cv_name))
        else
          warn ("Package not found for CV " ++ cv_name ++ ", using _SYS_BIC without path") ;;;
          ret (quoted "_SYS_BIC" ++ "." ++ _quote_identifier cv_name)
      else if mode_is_hana (RenderContext.database_mode ctx)
              && PyStr.startswith "CV_" (DataSource.object_name ds)
      then
        let cv_name := DataSource.object_name ds in
        let package := package_of ds in
        if truthy package
        then ret (quoted "_SYS_BIC" ++ "." ++ quoted (or_else package EmptyString ++ "/" ++ cv_name))
        else
          warn ("Package not found for CV " ++ cv_name ++ ", using _SYS_BIC without path") ;;;
          ret (quoted "_SYS_BIC" ++ "." ++ quoted cv_name)
      else
        let schema := resolve_schema ctx (DataSource.schema_name ds) in
        if nonempty schema
        then ret (_quote_identifier schema ++ "." ++ _quote_identifier (DataSource.object_name ds))
        else ret (_quote_identifier (DataSource.object_name ds))
  | None =>
      let external :=
        if mode_is_hana (RenderContext.database_mode ctx)
           && PyStr.contains "::" input_id && PyStr.contains "CV_" input_id
        then Re.search false re_external_cv input_id
        else None in
      match external with
      | Some cv_match =>
          let package_path := Re.group_or_empty input_id cv_match 1 in
          let cv_name := Re.group_or_empty input_id cv_match 2 in
          let hana_path := package_path ++ "/" ++ cv_name in
          ret (quoted "_SYS_BIC" ++ "." ++ _quote_identifier hana_path)
      | None =>
          match Dict.get input_id (RenderContext.cte_aliases ctx) with
          | Some alias => ret alias
          | None => get_cte_alias input_id
          end
      end
  end.

(** One predicate of the filter loop: the conditions it adds. *)
Definition render_predicate (table_alias : option string) (pred : Predicate.t)
  : M (list string) :=
  match Predicate.kind pred with
  | PredicateKind.COMPARISON =>
      left <- _render_expression C (Predicate.left pred) table_alias ;;
      let op := or_else (Predicate.operator pred) "=" in
      let op := if negb (Predicate.including pred) then _negate_operator op else op in
      match Predicate.right pred with
      | Some r =>
          right <- _render_expression C r table_alias ;;
          ret [left ++ " " ++ op ++ " " ++ right]
      | None => ret []
      end
  | PredicateKind.IS_NULL =>
      left <- _render_expression C (Predicate.left pred) table_alias ;;
      ret [left ++ " IS NULL"]
  | PredicateKind.RAW =>
      raw_expr <- _render_expression C (Predicate.left pred) table_alias ;;
      if nonempty raw_expr then ret ["(" ++ raw_expr ++ ")"] else ret []
  | k =>
      warn ("Unsupported predicate kind: " ++ format_predicate_kind C k) ;;;
      ret []
  end.

(** The conditions collected by the loop of [_render_filters]. *)
Definition filter_conditions (filters : list Predicate.t) (table_alias : option string)
  : M (list string) :=
  foldM (fun conditions pred =>
           added <- render_predicate table_alias pred ;;
           ret (conditions ++ added)%list)
        filters [].

Definition _render_filters (filters : list Predicate.t) (table_alias : option string)
  : M string :=
  match filters with
  | [] => ret EmptyString
  | _ =>
      conditions <- filter_conditions filters table_alias ;;
      ret (PyStr.join " AND " conditions)
  end.

(** The state of the mapping loop of [_render_join]. *)
Record join_columns := mkJoinColumns {
  jc_columns : list string;
  jc_seen_targets : list string;
  jc_column_map : Dict.t string
}.

Definition join_mapping (node : Node.t) (left_alias : string)
           (acc : join_columns) (mapping : AttributeMapping.t) : M join_columns :=
  let target_name := AttributeMapping.target_name mapping in
  if match Node.view_attributes node with
     | [] => false
     | attrs => negb (str_in target_name attrs)
     end
  then ret acc
  else if str_in target_name (jc_seen_targets acc) then ret acc
  else
    source_alias <-
      (if truthy (AttributeMapping.source_node mapping)
       then get_cte_alias
              (PyStr.lstrip_char "#" (or_else (AttributeMapping.source_node mapping) EmptyString))
       else ret left_alias) ;;
    source_expr <- _render_expression C (AttributeMapping.expression mapping) (Some source_alias) ;;
    ret (mkJoinColumns
           (snoc (jc_columns acc) (source_expr ++ " AS " ++ _quote_identifier target_name))
           (snoc (jc_seen_targets acc) target_name)
           (Dict.set (PyStr.upper target_name) source_expr (jc_column_map acc))).

(** The expansion of the mapped columns inside one formula. *)
Fixpoint expand_columns (column_map : Dict.t string) (formula : string) : M string :=
  match column_map with
  | [] => ret formula
  | (col_name, col_expr) :: tl =>
      let pattern := Template.literal (Re.chars (quoted col_name)) in
      if is_some (Re.search true pattern formula)
      then match Template.sub true pattern ("(" ++ col_expr ++ ")") formula with
           | Some formula' => expand_columns tl formula'
           | None => raise "re.error"
           end
      else expand_columns tl formula
  end.

Definition is_raw (e : Expression.t) : bool :=
  match Expression.expression_type e with
  | ExpressionType.RAW => true
  | _ => false
  end.

Definition join_calculated (left_alias : string) (column_map : Dict.t string)
           (columns : list string) (kv : string * CalculatedAttribute.t)
  : M (list string) :=
  let '(calc_name, calc_attr) := kv in
  calc_expr <-
    (if is_raw (CalculatedAttribute.expression calc_attr)
     then
       formula <- expand_columns column_map
                    (Expression.value (CalculatedAttribute.expression calc_attr)) ;;
       translate_raw_formula C formula
     else _render_expression C (CalculatedAttribute.expression calc_attr) (Some left_alias)) ;;
  ret (snoc columns (calc_expr ++ " AS " ++ _quote_identifier calc_name)).

Definition join_condition (left_alias right_alias : string)
           (conditions : list string) (condition : JoinCondition.t) : M (list string) :=
  left_expr <- _render_expression C (JoinCondition.left condition) (Some left_alias) ;;
  right_expr <- _render_expression C (JoinCondition.right condition) (Some right_alias) ;;
  ret (snoc conditions (left_expr ++ " = " ++ right_expr)).

Definition _render_join (node : Node.t) (join_type : JoinType.t)
           (node_conditions : list JoinCondition.t) : M string :=
  match Node.inputs node with
  | input0 :: input1 :: _ =>
      let left_id := PyStr.lstrip_char "#" input0 in
      let right_id := PyStr.lstrip_char "#" input1 in
      left_from <- _render_from left_id ;;
      right_from <- _render_from right_id ;;
      left_alias <- get_cte_alias left_id ;;
      right_alias <- get_cte_alias right_id ;;
      let join_type_str := _map_join_type_to_sql join_type in
      conditions <- foldM (join_condition left_alias right_alias) node_conditions [] ;;
      conditions <-
        (match conditions with
         | [] =>
             warn ("Join " ++ Node.node_id node
                   ++ " creates cartesian product (no join conditions)") ;;;
             ret ["1=1"]
         | _ => ret conditions
         end) ;;
      let on_clause := PyStr.join " AND " conditions in
      cols <- foldM (join_mapping node left_alias) (Node.mappings node)
                    (mkJoinColumns [] [] []) ;;
      columns <- foldM (join_calculated left_alias (jc_column_map cols))
                       (Node.calculated_attributes node) (jc_columns cols) ;;
      let columns :=
        match columns with
        | [] => [left_alias ++ ".*"; right_alias ++ ".*"]
        | _ => columns
        end in
      let select_clause := PyStr.join ("," ++ PyStr.nl ++ "    ") columns in
      where_clause <- _render_filters (Node.filters node) (Some left_alias) ;;
      ctx <- ask ;;
      let where_clause :=
        if mode_is_hana (RenderContext.database_mode ctx) && nonempty where_clause
        then
          let cleaned := _cleanup_hana_parameter_conditions C where_clause in
          if str_in (PyStr.strip cleaned) [EmptyString; "()"] then EmptyString else cleaned
        else where_clause in
      let sql :=
        "SELECT" ++ PyStr.nl ++ "    " ++ select_clause ++ PyStr.nl
        ++ "FROM " ++ left_from ++ " AS " ++ left_alias ++ PyStr.nl
        ++ join_type_str ++ " JOIN " ++ right_from ++ " AS " ++ right_alias
        ++ " ON " ++ on_clause in
      if nonempty where_clause
      then ret (sql ++ PyStr.nl ++ "WHERE " ++ where_clause)
      else ret sql
  | _ =>
      warn ("Join " ++ Node.node_id node ++ " has fewer than 2 inputs") ;;;
      ret "SELECT 1 AS placeholder"
  end.

Definition _render_node (node : Node.t) : M string :=
  match Node.kind node, Node.ext node with
  | NodeKind.PROJECTION, _ => _render_projection C node
  | NodeKind.JOIN, JoinNode join_type conditions => _render_join node join_type conditions
  | NodeKind.AGGREGATION, AggregationNode _ _ => _render_aggregation C node
  | NodeKind.UNION, UnionNode _ => _render_union C node
  | NodeKind.RANK, RankNode _ _ _ _ => _render_rank C node
  | NodeKind.CALCULATION, _ => _render_calculation C node
  | kind, _ =>
      warn ("Unsupported node type " ++ format_node_kind C kind
            ++ " - conversion not possible") ;;;
      ret "SELECT 1 AS placeholder"
  end.

End Renderer.

Definition _generate_view_statement (view_name : string) (mode : DatabaseMode) : string :=
  let quoted_name :=
    if PyStr.contains "." view_name
    then PyStr.join "." (map quoted (PyStr.split "." view_name))
    else quoted view_name in
  match mode with
  | SNOWFLAKE => "CREATE OR REPLACE VIEW " ++ quoted_name ++ " AS"
  | HANA => "DROP VIEW " ++ quoted_name ++ " CASCADE;" ++ PyStr.nl
            ++ "CREATE VIEW " ++ quoted_name ++ " AS"
  end.

Definition _assemble_sql (ctes : list string) (final_select : string)
           (warnings : list string) (view_name : option string)
           (database_mode : DatabaseMode) : string :=
  let lines :=
    match warnings with
    | [] => []
    | _ => "-- Warnings:" :: snoc (map (fun warning => "--   " ++ warning) warnings) EmptyString
    end in
  let lines :=
    if truthy view_name
    then snoc lines (_generate_view_statement (or_else view_name EmptyString) database_mode)
    else lines in
  let lines :=
    match ctes with
    | [] => lines
    | _ => List.app lines ["WITH"; PyStr.join ("," ++ PyStr.nl) ctes; EmptyString]
    end in
  PyStr.join PyStr.nl (snoc lines final_select).

(** ** The validator (xml_to_sql/sql/validator.py) *)

Inductive ValidationSeverity := ERROR | WARNING | INFO.

Definition severity_value (s : ValidationSeverity) : string :=
  match s with
  | ERROR => "error"
  | WARNING => "warning"
  | INFO => "info"
  end.

Module ValidationIssue.
Record t := mk {
  severity : ValidationSeverity;
  message : string;
  code : string;
  line_number : option nat;
  column_number : option nat
}.

(** [__str__] *)
Definition str (i : t) : string :=
  let location :=
    match line_number i with
    | Some l =>
        " (line " ++ PyStr.str_of_nat l
        ++ match column_number i with
           | Some c => ", column " ++ PyStr.str_of_nat c
           | None => EmptyString
           end
        ++ ")"
    | None => EmptyString
    end in
  "[" ++ PyStr.upper (severity_value (severity i)) ++ "] " ++ code i ++ ": "
  ++ message i ++ location.
End ValidationIssue.

Module ValidationResult.
Record t := mk {
  is_valid : bool;
  errors : list ValidationIssue.t;
  warnings : list ValidationIssue.t;
  info : list ValidationIssue.t
}.

(** [ValidationResult()] *)
Definition empty : t := mk true [] [] [].

Definition has_errors (r : t) : bool :=
  match errors r with [] => false | _ => true end.

Definition add_error (message code : string) (line_number : option nat) (r : t) : t :=
  mk false
     (snoc (errors r) (ValidationIssue.mk ERROR message code line_number None))
     (warnings r) (info r).

Definition add_warning (message code : string) (r : t) : t :=
  mk (is_valid r) (errors r)
     (snoc (warnings r) (ValidationIssue.mk WARNING message code None None))
     (info r).

Definition add_info (message code : string) (r : t) : t :=
  mk (is_valid r) (errors r) (warnings r)
     (snoc (info r) (ValidationIssue.mk INFO message code None None)).
End ValidationResult.

Import ValidationResult (add_error, add_warning, add_info).

(** [if c: f(result)] *)
Definition when (c : bool) (f : ValidationResult.t -> ValidationResult.t)
           (r : ValidationResult.t) : ValidationResult.t :=
  if c then f r else r.

(** [for x in l: f(x, result)] *)
Definition for_each {A} (l : list A) (f : A -> ValidationResult.t -> ValidationResult.t)
           (r : ValidationResult.t) : ValidationResult.t :=
  fold_left (fun acc x => f x acc) l r.

Definition re_cte : Re.re := Re.parse "(\w+)\s+AS\s*\(".

(** The loop over the CTE names that reports each repeated name. *)
Fixpoint duplicate_ctes (i : nat) (names seen : list string) (r : ValidationResult.t)
  : ValidationResult.t :=
  match names with
  | [] => r
  | name :: tl =>
      duplicate_ctes (S i) tl (snoc seen name)
        (when (str_in name seen)
              (add_error ("Duplicate CTE name: " ++ name) "DUPLICATE_CTE" (Some (S i))) r)
  end.

Definition validate_sql_structure (sql : string) : ValidationResult.t :=
  let result := ValidationResult.empty in
  if negb (nonempty sql) || negb (nonempty (PyStr.strip sql))
  then add_error "SQL is empty" "EMPTY_SQL" None result
  else
    let sql_upper := PyStr.upper sql in
    let result :=
      when (negb (PyStr.contains "SELECT" sql_upper))
           (add_error "SQL does not contain a SELECT statement" "NO_SELECT" (Some 1))
           result in
    let open_parens := PyStr.count_char "(" sql in
    let close_parens := PyStr.count_char ")" sql in
    let result :=
      when (negb (open_parens =? close_parens))
           (add_error ("Unbalanced parentheses: " ++ PyStr.str_of_nat open_parens
                       ++ " opening, " ++ PyStr.str_of_nat close_parens ++ " closing")
                      "UNBALANCED_PARENTHESES" None)
           result in
    let single_quotes :=
      (Z.of_nat (PyStr.count_char "'" sql) - Z.of_nat (PyStr.count "''" sql) * 2)%Z in
    let result :=
      when (negb (single_quotes mod 2 =? 0)%Z)
           (add_warning "Possible unbalanced single quotes" "UNBALANCED_QUOTES")
           result in
    let result :=
      if PyStr.contains "WITH" sql_upper then
        let cte_matches := Re.findall1 true re_cte sql in
        let result :=
          when (match cte_matches with [] => true | _ => false end)
               (add_warning "WITH clause found but no CTEs with AS detected"
                            "INVALID_CTE_STRUCTURE")
               result in
        let cte_names := map PyStr.upper cte_matches in
        let result := duplicate_ctes 0 cte_names [] result in
        let with_index := PyStr.find "WITH" sql_upper 0 in
        let select_after_with :=
          PyStr.find "SELECT" sql_upper (Z.to_nat (with_index + 4)) in
        when (select_after_with =? -1)%Z
             (add_error "WITH clause found but no SELECT statement after CTEs"
                        "NO_SELECT_AFTER_CTE" None)
             result
      else result in
    when (PyStr.count "SELECT" sql_upper =? 0)
         (add_error "No SELECT statement found" "NO_SELECT_STATEMENT" None)
         result.

Definition re_from_ref : Re.re := Re.parse "FROM\s+(\w+)".
Definition re_join_ref : Re.re := Re.parse "JOIN\s+(\w+)".

Definition SNOWFLAKE_RESERVED_KEYWORDS : list string :=
  ["ACCOUNT"; "ADMIN"; "ALL"; "ALTER"; "AND"; "ANY"; "AS"; "BETWEEN";
   "BY"; "CASE"; "CAST"; "CHECK"; "COLUMN"; "CONNECT"; "CONNECTION";
   "CONSTRAINT"; "CREATE"; "CROSS"; "CURRENT"; "CURRENT_DATE";
   "CURRENT_TIME"; "CURRENT_TIMESTAMP"; "CURRENT_USER"; "DATABASE";
   "DELETE"; "DISTINCT"; "DROP"; "ELSE"; "END"; "EXISTS"; "FALSE";
   "FOLLOWING"; "FOR"; "FOREIGN"; "FROM"; "FULL"; "FUNCTION"; "GRANT";
   "GROUP"; "GROUPING"; "HAVING"; "ILIKE"; "IN"; "INNER"; "INSERT";
   "INTERSECT"; "INTO"; "IS"; "ISSUE"; "JOIN"; "LATERAL"; "LEFT";
   "LIKE"; "LOCALTIME"; "LOCALTIMESTAMP"; "MINUS"; "NATURAL"; "NOT";
   "NULL"; "NULLS"; "OF"; "ON"; "OR"; "ORDER"; "ORGANIZATION";
   "OUTER"; "OVER"; "PARTITION"; "PRECEDING"; "PRIMARY"; "QUALIFY";
   "REFERENCES"; "REVOKE"; "RIGHT"; "RLIKE"; "ROW"; "ROWS"; "SAMPLE";
   "SCHEMA"; "SELECT"; "SET"; "SOME"; "START"; "TABLE"; "TABLESAMPLE";
   "THEN"; "TO"; "TRIGGER"; "TRUE"; "TRY_CAST"; "UNION"; "UNIQUE";
   "UPDATE"; "USING"; "VALUES"; "VIEW"; "WHEN"; "WHENEVER"; "WHERE"; "WITH"].

Definition re_cartesian : Re.re := Re.parse "ON\s+1\s*=\s*1".
Definition re_select_star : Re.re := Re.parse "SELECT\s+\*".
Definition re_from_word : Re.re := Re.parse "\bFROM\b".
Definition re_where_word : Re.re := Re.parse "\bWHERE\b".

Definition has_attributes (scenario : Scenario.t) : bool :=
  match Scenario.logical_model scenario with
  | Some lm => match LogicalModel.attributes lm with [] => false | _ => true end
  | None => false
  end.

Definition validate_performance (sql : string) (scenario : Scenario.t)
  : ValidationResult.t :=
  let result := ValidationResult.empty in
  let sql_upper := PyStr.upper sql in
  let result :=
    when (is_some (Re.search false re_cartesian sql_upper))
         (add_warning "Cartesian product detected (JOIN ON 1=1) - may cause large result sets"
                      "CARTESIAN_PRODUCT")
         result in
  let result :=
    when (is_some (Re.search false re_select_star sql_upper))
         (if has_attributes scenario
          then add_warning
                 "SELECT * used when explicit column list is available - consider using explicit columns"
                 "SELECT_STAR_USAGE"
          else add_info
                 "SELECT * used - consider explicit column list for better performance"
                 "SELECT_STAR_USAGE")
         result in
  let from_count := List.length (Re.finditer false re_from_word sql_upper) in
  let where_count := List.length (Re.finditer false re_where_word sql_upper) in
  let result :=
    when ((0 <? from_count) && (where_count =? 0))
         (add_info "No WHERE clause found - consider adding filters for better performance"
                   "MISSING_WHERE_CLAUSE")
         result in
  let agg_functions := ["COUNT"; "SUM"; "AVG"; "MAX"; "MIN"; "STDDEV"; "VARIANCE"] in
  let has_agg :=
    existsb (fun func => is_some (Re.search false (Re.parse ("\b" ++ func ++ "\s*\(")) sql_upper))
            agg_functions in
  let has_group_by := PyStr.contains "GROUP BY" sql_upper in
  when (has_agg && negb has_group_by && (1 <? from_count))
       (add_warning
          "Aggregation functions used without GROUP BY on multiple tables - verify correctness"
          "AGGREGATION_WITHOUT_GROUPBY")
       result.

Definition re_join_word : Re.re := Re.parse "\bJOIN\b".
Definition re_subquery : Re.re := Re.parse "\(\s*SELECT\s+".

Definition analyze_query_complexity (sql : string) (scenario : Scenario.t)
  : ValidationResult.t :=
  let result := ValidationResult.empty in
  let cte_count := List.length (Re.findall1 true re_cte sql) in
  let result :=
    if 20 <? cte_count
    then add_warning ("High CTE count (" ++ PyStr.str_of_nat cte_count
                      ++ ") - consider breaking into views for better maintainability")
                     "HIGH_CTE_COUNT" result
    else if 10 <? cte_count
    then add_info ("Moderate CTE count (" ++ PyStr.str_of_nat cte_count
                   ++ ") - query may benefit from view decomposition")
                  "MODERATE_CTE_COUNT" result
    else result in
  let join_count := List.length (Re.finditer false re_join_word (PyStr.upper sql)) in
  let result :=
    if 10 <? join_count
    then add_warning ("High JOIN count (" ++ PyStr.str_of_nat join_count
                      ++ ") - consider query optimization")
                     "HIGH_JOIN_COUNT" result
    else if 5 <? join_count
    then add_info ("Moderate JOIN count (" ++ PyStr.str_of_nat join_count
                   ++ ") - verify query performance")
                  "MODERATE_JOIN_COUNT" result
    else result in
  let subquery_count := List.length (Re.finditer false re_subquery (PyStr.upper sql)) in
  let result :=
    when (5 <? subquery_count)
         (add_warning ("High subquery count (" ++ PyStr.str_of_nat subquery_count
                       ++ ") - consider using CTEs or joins")
                      "HIGH_SUBQUERY_COUNT")
         result in
  let node_count := List.length (Scenario.nodes scenario) in
  when (15 <? node_count)
       (add_info ("Complex scenario with " ++ PyStr.str_of_nat node_count
                  ++ " nodes - verify conversion correctness")
                 "COMPLEX_SCENARIO")
       result.

Section SetValidators.

(** Iteration order of a set of strings given by its members. *)
Variable enum : list string -> list string.

(** The names after FROM or JOIN that carry no dot, upper-cased. *)
Definition referenced_names (r : Re.re) (sql : string) : list string :=
  filter (fun ref_name => negb (PyStr.contains "." ref_name))
         (map (fun m => PyStr.upper (Re.group_or_empty sql m 1))
              (Re.finditer true r sql)).

(** The first node that no node lists among its inputs. *)
Definition unreferenced_node (scenario : Scenario.t) : option string :=
  find (fun node_id =>
          negb (existsb (fun other_node => str_in node_id (Node.inputs other_node))
                        (Dict.values (Scenario.nodes scenario))))
       (Dict.keys (Scenario.nodes scenario)).

Definition validate_query_completeness (scenario : Scenario.t) (sql : string)
           (ctx : RenderContext.t) : ValidationResult.t :=
  let result := ValidationResult.empty in
  let cte_names_in_sql := map PyStr.upper (Re.findall1 true re_cte sql) in
  let cte_aliases_from_ctx :=
    map PyStr.upper (Dict.values (RenderContext.cte_aliases ctx)) in
  let all_cte_names := List.app cte_names_in_sql cte_aliases_from_ctx in
  let result :=
    for_each (Dict.keys (RenderContext.cte_aliases ctx))
      (fun node_id =>
         when (negb (Dict.mem node_id (Scenario.nodes scenario))
               && negb (Dict.mem node_id (Scenario.data_sources scenario)))
              (add_error ("Node " ++ node_id ++ " referenced but not found in scenario")
                         "MISSING_NODE" None))
      result in
  let referenced_ctes :=
    List.app (referenced_names re_from_ref sql) (referenced_names re_join_ref sql) in
  let result :=
    for_each (enum referenced_ctes)
      (fun ref_cte =>
         when (negb (str_in ref_cte all_cte_names))
              (let is_data_source :=
                 existsb (fun ds => String.eqb (PyStr.upper (DataSource.object_name ds)) ref_cte)
                         (Dict.values (Scenario.data_sources scenario)) in
               when (negb is_data_source)
                    (add_warning ("CTE " ++ ref_cte ++ " referenced in FROM/JOIN but not defined")
                                 "UNDEFINED_CTE_REFERENCE")))
      result in
  let result :=
    for_each (Scenario.data_sources scenario)
      (fun kv r =>
         let '(ds_id, data_source) := kv in
         let r :=
           when (negb (nonempty (DataSource.schema_name data_source))
                 || negb (nonempty (PyStr.strip (DataSource.schema_name data_source))))
                (add_warning ("Data source " ++ ds_id ++ " has empty schema name")
                             "EMPTY_SCHEMA_NAME") r in
         when (negb (nonempty (DataSource.object_name data_source))
               || negb (nonempty (PyStr.strip (DataSource.object_name data_source))))
              (add_warning ("Data source " ++ ds_id ++ " has empty object name")
                           "EMPTY_OBJECT_NAME") r)
      result in
  match Scenario.nodes scenario with
  | [] => result
  | _ =>
      when (negb (truthy (unreferenced_node scenario)))
           (add_warning "Could not determine final node in scenario" "NO_FINAL_NODE")
           result
  end.

Definition identifier_contexts : list string :=
  ["SELECT\s+([A-Z_][A-Z0-9_]*)\s+AS";
   "SELECT\s+([A-Z_][A-Z0-9_]*)\s*,";
   "SELECT\s+([A-Z_][A-Z0-9_]*)\s+FROM";
   "FROM\s+([A-Z_][A-Z0-9_]*)\s+(?:WHERE|JOIN|GROUP|ORDER|$)";
   "JOIN\s+([A-Z_][A-Z0-9_]*)\s+(?:ON|WHERE|$)";
   "AS\s+([A-Z_][A-Z0-9_]*)\s*(?:,|\(|$)";
   "GROUP\s+BY\s+([A-Z_][A-Z0-9_]*)\s*(?:,|$)";
   "ORDER\s+BY\s+([A-Z_][A-Z0-9_]*)\s*(?:,|$)";
   "WHERE\s+([A-Z_][A-Z0-9_]*)\s*[=<>!]";
   "\.([A-Z_][A-Z0-9_]*)\s*(?:,|$|AS|FROM|WHERE|JOIN|GROUP|ORDER)";
   "\.([A-Z_][A-Z0-9_]*)\s*[=<>!]"].

Definition excluded_keywords : list string :=
  ["NULL"; "TRUE"; "FALSE"; "CURRENT_DATE"; "CURRENT_TIME"; "CURRENT_TIMESTAMP"].

Definition re_is_context : Re.re := Re.parse "\b(IS|IS\s+NOT)\s+$".
Definition re_with_cte : Re.re := Re.parse "WITH\s+([A-Z_][A-Z0-9_]*)\s+AS\s*\(".
Definition re_long_identifier : Re.re := Re.parse "\b([A-Z_][A-Z0-9_]{255,})\b".
Definition re_from_table : Re.re := Re.parse "FROM\s+([A-Z_][A-Z0-9_]*)".
Definition re_iff : Re.re := Re.parse "IFF\s*\([^)]*\)".
Definition re_string_concat : Re.re :=
  Re.parse ("(['" ++ PyStr.dq ++ "][^'" ++ PyStr.dq ++ "]*['" ++ PyStr.dq ++ "])\s*\+\s*(['"
            ++ PyStr.dq ++ "][^'" ++ PyStr.dq ++ "]*['" ++ PyStr.dq ++ "])").
Definition re_hana_if : Re.re := Re.parse "\bIF\s*\([^)]+,\s*[^)]+,\s*[^)]+\)".
Definition re_type_cast : Re.re := Re.parse "::\s*[A-Z_][A-Z0-9_]*".
Definition re_boolean : Re.re := Re.parse "\b(1|0)\s*(?:=|\!=|<>)\s*(?:TRUE|FALSE)".
Definition re_with_recursive : Re.re := Re.parse "WITH\s+RECURSIVE".
Definition re_create_view : Re.re := Re.parse "CREATE\s+(?:OR\s+REPLACE\s+)?VIEW\s+(\w+)".
Definition re_lateral : Re.re := Re.parse "LATERAL\s+(?:FLATTEN|TABLE)".
Definition re_sample : Re.re := Re.parse "SAMPLE\s+(?:ROW|BLOCK|SYSTEM)\s*\([^)]+\)".

Definition hana_patterns : list (string * string) :=
  [("\bSUBSTRING\s*\(",
    "SUBSTRING() function - verify parameter count (Snowflake uses 1-based indexing)");
   ("\bTO_DATE\s*\([^)]*\)", "TO_DATE() function - verify date format string")].

(** The identifiers one context pattern adds to [found_identifiers]. *)
Definition context_identifiers (sql_upper pattern : string) : list string :=
  flat_map
    (fun m =>
       let identifier := Re.group_or_empty sql_upper m 1 in
       if negb (str_in identifier excluded_keywords)
          && str_in identifier SNOWFLAKE_RESERVED_KEYWORDS
       then
         let context_before :=
           PyStr.slice (Re.m_start m - 10) (Re.m_start m) sql_upper in
         if negb (is_some (Re.search false re_is_context context_before))
         then [identifier] else []
       else [])
    (Re.finditer false (Re.parse pattern) sql_upper).

Definition validate_snowflake_specific (sql : string) : ValidationResult.t :=
  let result := ValidationResult.empty in
  let sql_upper := PyStr.upper sql in
  let found_identifiers :=
    List.app
      (flat_map (context_identifiers sql_upper) identifier_contexts)
      (filter (fun identifier => str_in identifier SNOWFLAKE_RESERVED_KEYWORDS)
              (map (fun m => Re.group_or_empty sql_upper m 1)
                   (Re.finditer false re_with_cte sql_upper))) in
  let result :=
    for_each (enum found_identifiers)
      (fun identifier =>
         add_warning ("Reserved keyword '" ++ identifier
                      ++ "' used as identifier - should be quoted")
                     "RESERVED_KEYWORD_AS_IDENTIFIER")
      result in
  let result :=
    when (is_some (Re.search false re_long_identifier sql_upper))
         (add_warning "Unquoted identifier exceeds 255 characters - should be quoted"
                      "IDENTIFIER_TOO_LONG")
         result in
  let result :=
    for_each (Re.finditer false re_from_table sql_upper)
      (fun m =>
         let table_name := Re.group_or_empty sql_upper m 1 in
         when (negb (str_in table_name SNOWFLAKE_RESERVED_KEYWORDS)
               && negb (PyStr.contains "." (Re.group0 sql_upper m)))
              (add_info ("Unqualified table reference '" ++ table_name
                         ++ "' - consider using schema.table format")
                        "UNQUALIFIED_TABLE_REFERENCE"))
      result in
  let result :=
    for_each (Re.finditer true re_iff sql)
      (fun m =>
         let params := PyStr.count_char "," (Re.group0 sql m) in
         when (negb (params =? 2))
              (add_warning "IFF() function should have 3 parameters (condition, then, else)"
                           "INVALID_IFF_SYNTAX"))
      result in
  let result :=
    when (is_some (Re.search false re_string_concat sql))
         (add_warning "String concatenation using '+' operator - should use '||' in Snowflake"
                      "STRING_CONCAT_PLUS")
         result in
  let result :=
    when (is_some (Re.search true re_hana_if sql))
         (add_warning "HANA IF() function detected - should be translated to IFF() for Snowflake"
                      "HANA_IF_NOT_TRANSLATED")
         result in
  let invalid_types := ["CHAR"; "VARCHAR"] in
  let result :=
    for_each (Re.finditer false re_type_cast sql_upper)
      (fun m =>
         let type_name := PyStr.strip (PyStr.drop 2 (Re.group0 sql_upper m)) in
         when (str_in type_name invalid_types
               && negb (PyStr.contains "(" (Re.group0 sql_upper m)))
              (add_warning ("Type casting to " ++ type_name ++ " without length specification")
                           "TYPE_CAST_WITHOUT_LENGTH"))
      result in
  let result :=
    when (is_some (Re.search false re_boolean sql_upper))
         (add_warning "Boolean comparison with numeric values - use TRUE/FALSE instead of 1/0"
                      "BOOLEAN_NUMERIC_COMPARISON")
         result in
  let cte_count := List.length (Re.findall1 true re_cte sql) in
  let result :=
    if 100 <? cte_count
    then add_error ("CTE count (" ++ PyStr.str_of_nat cte_count
                    ++ ") exceeds Snowflake limit of 100")
                   "CTE_COUNT_EXCEEDED" None result
    else if 20 <? cte_count
    then add_warning ("High CTE count (" ++ PyStr.str_of_nat cte_count
                      ++ ") - consider breaking into views for better maintainability")
                     "HIGH_CTE_COUNT" result
    else result in
  let result :=
    when (PyStr.contains "RECURSIVE" sql_upper && PyStr.contains "WITH" sql_upper
          && negb (is_some (Re.search false re_with_recursive sql_upper)))
         (add_warning "RECURSIVE keyword found but not in WITH RECURSIVE clause"
                      "INVALID_RECURSIVE_CTE")
         result in
  let result :=
    if PyStr.contains "CREATE" sql_upper && PyStr.contains "VIEW" sql_upper then
      match Re.search false re_create_view sql_upper with
      | Some view_match =>
          let view_name := Re.group_or_empty sql_upper view_match 1 in
          when (str_in (PyStr.upper view_name) SNOWFLAKE_RESERVED_KEYWORDS)
               (add_error ("View name '" ++ view_name
                           ++ "' is a reserved keyword - must be quoted")
                          "VIEW_NAME_RESERVED_KEYWORD" None)
               result
      | None => result
      end
    else result in
  let join_types := ["INNER"; "LEFT"; "RIGHT"; "FULL"; "OUTER"; "CROSS"] in
  let result :=
    for_each join_types
      (fun join_type r =>
         let join_pattern := Re.parse ("\b" ++ join_type ++ "\s+JOIN") in
         if is_some (Re.search false join_pattern sql_upper)
            && negb (String.eqb join_type "CROSS")
         then
           for_each (Re.finditer false join_pattern sql_upper)
             (fun join_match =>
                let after_join :=
                  PyStr.slice (Re.m_end join_match) (Re.m_end join_match + 50) sql_upper in
                when (negb (PyStr.contains "ON" after_join))
                     (add_warning (join_type ++ " JOIN without ON clause") "JOIN_WITHOUT_ON"))
             r
         else r)
      result in
  let result :=
    when (PyStr.contains "LATERAL" sql_upper
          && negb (is_some (Re.search false re_lateral sql_upper)))
         (add_info "LATERAL keyword found - ensure proper usage with FLATTEN or TABLE functions"
                   "LATERAL_JOIN_USAGE")
         result in
  let result :=
    for_each hana_patterns
      (fun pm =>
         when (is_some (Re.search true (Re.parse (fst pm)) sql))
              (add_info (snd pm) "HANA_FUNCTION_CHECK"))
      result in
  let ddl_keywords := ["CREATE"; "ALTER"; "DROP"; "INSERT"; "UPDATE"; "DELETE"; "TRUNCATE"] in
  let has_select := PyStr.contains "SELECT" sql_upper in
  let has_ddl := existsb (fun keyword => PyStr.contains keyword sql_upper) ddl_keywords in
  let result :=
    when (has_select && has_ddl)
         (add_warning "DDL/DML statements mixed with SELECT - ensure proper statement separation"
                      "MIXED_STATEMENT_TYPES")
         result in
  let result :=
    when (PyStr.contains "SAMPLE" sql_upper
          && negb (is_some (Re.search false re_sample sql_upper)))
         (add_warning "SAMPLE clause found - verify syntax (SAMPLE ROW/BLOCK/SYSTEM)"
                      "SAMPLE_CLAUSE_SYNTAX")
         result in
  when (PyStr.contains "QUALIFY" sql_upper
        && negb (PyStr.contains "ROW_NUMBER" sql_upper)
        && negb (PyStr.contains "RANK" sql_upper))
       (add_info "QUALIFY clause found - typically used with window functions"
                 "QUALIFY_CLAUSE_USAGE")
       result.

End SetValidators.

(** ** [render_scenario] (renderer/renderer.py) *)

(** What [render_scenario] returns: the SQL, or the SQL with the
    warnings when [return_warnings] is set. *)
Inductive rendered :=
| Sql (sql : string)
| SqlAndWarnings (sql : string) (warnings : list string).

Definition lift {A} (o : outcome A) : M A := fun ctx => (o, ctx).

(** The scenario object, read through the context that refers to it. *)
Definition the_scenario : M Scenario.t :=
  ctx <- ask ;; ret (RenderContext.scenario ctx).

(** [for x in l: f(x)] *)
Fixpoint forM_ {A} (l : list A) (f : A -> M unit) : M unit :=
  match l with
  | [] => ret tt
  | x :: tl => f x ;;; forM_ tl f
  end.

Definition re_quoted_name : Re.re :=
  Re.parse (PyStr.dq ++ "([^" ++ PyStr.dq ++ "]+)" ++ PyStr.dq).

Definition placeholder_cte : string :=
  "  final AS (" ++ PyStr.nl ++ "    SELECT NULL AS placeholder" ++ PyStr.nl ++ "  )".

Section RenderScenario.

Variable C : Collaborators.
Variable enum : list string -> list string.

(** [return (sql, ctx.warnings) if return_warnings else sql] *)
Definition return_sql (return_warnings : bool) (sql : string) : M rendered :=
  ctx <- ask ;;
  ret (if return_warnings then SqlAndWarnings sql (RenderContext.warnings ctx)
       else Sql sql).

(** The body of the loop over the ordered ids. *)
Definition render_cte (ctes : list string) (node_id : string) : M (list string) :=
  scenario <- the_scenario ;;
  if Dict.mem node_id (Scenario.data_sources scenario) then ret ctes
  else
    match Dict.get node_id (Scenario.nodes scenario) with
    | None =>
        warn ("Node " ++ node_id ++ " referenced but not found") ;;;
        ret ctes
    | Some node =>
        cte_sql <- _render_node C node ;;
        if nonempty cte_sql then
          cte_alias <- get_cte_alias node_id ;;
          ret (snoc ctes
                 ("  " ++ cte_alias ++ " AS (" ++ PyStr.nl ++ "    "
                  ++ PyStr.replace PyStr.nl (PyStr.nl ++ "    ") cte_sql
                  ++ PyStr.nl ++ "  )"))
        else ret ctes
    end.

(** The five validation passes, in the order of [all_results]. *)
Definition validation_passes (scenario : Scenario.t) (sql : string)
           (ctx : RenderContext.t) : list ValidationResult.t :=
  [validate_sql_structure sql;
   validate_query_completeness enum scenario sql ctx;
   validate_performance sql scenario;
   validate_snowflake_specific enum sql;
   analyze_query_complexity sql scenario].

Definition validation_message (all_errors : list ValidationIssue.t) : string :=
  "SQL validation failed: " ++ PyStr.join "; " (map ValidationIssue.str all_errors).

(** The merge of the validation results: raise on any error,
    otherwise append the warnings and the info to the warnings of the
    context. *)
Definition merge_validation (all_results : list ValidationResult.t) : M unit :=
  if existsb ValidationResult.has_errors all_results then
    raise (validation_message (flat_map ValidationResult.errors all_results))
  else
    forM_ all_results
      (fun result =>
         forM_ (ValidationResult.warnings result)
               (fun warning => warn (ValidationIssue.message warning)) ;;;
         forM_ (ValidationResult.info result)
               (fun info => warn ("Info: " ++ ValidationIssue.message info))).

(** The select list over a data source that is the terminal node. *)
Definition logical_attribute_item (from_clause : string) (attr : LogicalAttribute.t)
  : list string :=
  if truthy (LogicalAttribute.column_name attr)
  then [from_clause ++ "." ++ or_else (LogicalAttribute.column_name attr) EmptyString
        ++ " AS " ++ _quote_identifier (LogicalAttribute.name attr)]
  else [].

Definition logical_calculated_item (from_clause : string)
           (select_items : list string) (calc_attr : LogicalCalculatedAttribute.t)
  : M (list string) :=
  col_expr <-
    (if is_raw (LogicalCalculatedAttribute.expression calc_attr) then
       let formula := Expression.value (LogicalCalculatedAttribute.expression calc_attr) in
       let formula :=
         Re.sub_fn false re_quoted_name
           (fun m => from_clause ++ "."
                     ++ _quote_identifier (Re.group_or_empty formula m 1))
           formula in
       ctx <- ask ;;
       lift (translate_raw_formula_in C formula
               (FormulaContext.mk (RenderContext.client ctx) (RenderContext.language ctx)
                  (RenderContext.database_mode ctx) (RenderContext.hana_version ctx)))
     else _render_expression C (LogicalCalculatedAttribute.expression calc_attr)
                             (Some from_clause)) ;;
  ret (snoc select_items
         (col_expr ++ " AS " ++ _quote_identifier (LogicalCalculatedAttribute.name calc_attr))).

Definition data_source_select (from_clause : string) : M string :=
  scenario <- the_scenario ;;
  match Scenario.logical_model scenario with
  | Some lm =>
      match LogicalModel.attributes lm with
      | [] => ret ("SELECT * FROM " ++ from_clause)
      | attributes =>
          let select_items := flat_map (logical_attribute_item from_clause) attributes in
          select_items <- foldM (logical_calculated_item from_clause)
                                (LogicalModel.calculated_attributes lm) select_items ;;
          match select_items with
          | [] => ret ("SELECT * FROM " ++ from_clause)
          | _ =>
              ret ("SELECT" ++ PyStr.nl ++ "    "
                   ++ PyStr.join ("," ++ PyStr.nl ++ "    ") select_items
                   ++ PyStr.nl ++ "FROM " ++ from_clause)
          end
      end
  | None => ret ("SELECT * FROM " ++ from_clause)
  end.

(** [_assemble_sql] as called at the end of the two regular paths. *)
Definition assemble (ctes : list string) (final_select : string)
           (create_view : bool) (view_name : option string) : M string :=
  ctx <- ask ;;
  let scenario := RenderContext.scenario ctx in
  if create_view then
    let view :=
      or_else view_name (ScenarioMetadata.scenario_id (Scenario.metadata scenario)) in
    ret (_assemble_sql ctes final_select (RenderContext.warnings ctx) (Some view)
                       (RenderContext.database_mode ctx))
  else
    ret (_assemble_sql ctes final_select (RenderContext.warnings ctx) None
                       (RenderContext.database_mode ctx)).

(** The body of [render_scenario] from the loop over the ordered ids
    on. *)
Definition render_ordered (ordered_nodes : list string)
           (create_view : bool) (view_name : option string)
           (return_warnings validate : bool) : M rendered :=
  ctes <- foldM render_cte ordered_nodes [] ;;
  scenario <- the_scenario ;;
  let final_node_id := _find_final_node scenario ordered_nodes in
  if negb (truthy final_node_id) then
    let error_msg := "No terminal node found - cannot generate valid SQL" in
    warn error_msg ;;;
    ctes <-
      (match ctes with
       | [] => set_alias "final" "final" ;;; ret [placeholder_cte]
       | _ => ret ctes
       end) ;;
    let final_select :=
      match ctes with [] => EmptyString | _ => "SELECT * FROM final" end in
    ctx <- ask ;;
    let sql := _assemble_sql ctes final_select (RenderContext.warnings ctx) None SNOWFLAKE in
    (if validate then
       let validation_result :=
         add_error error_msg "MISSING_FINAL_NODE" None ValidationResult.empty in
       if ValidationResult.has_errors validation_result
       then raise (validation_message (ValidationResult.errors validation_result))
       else ret tt
     else ret tt) ;;;
    return_sql return_warnings sql
  else
    let final_node_id := or_else final_node_id EmptyString in
    if Dict.mem final_node_id (Scenario.data_sources scenario) then
      from_clause <- _render_from C final_node_id ;;
      final_select <- data_source_select from_clause ;;
      sql <- assemble ctes final_select create_view view_name ;;
      return_sql return_warnings sql
    else
      ctx <- ask ;;
      let final_alias :=
        match Dict.get final_node_id (RenderContext.cte_aliases ctx) with
        | Some a => a
        | None => "final"
        end in
      ctes_alias <-
        (if negb (Dict.mem final_node_id (RenderContext.cte_aliases ctx)) then
           match ctes with
           | [] =>
               set_alias "final" "final" ;;;
               warn ("Final node " ++ final_node_id
                     ++ " referenced but not found in CTEs; using placeholder CTE") ;;;
               ret ([placeholder_cte], final_alias)
           | _ =>
               warn ("Final node " ++ final_node_id
                     ++ " referenced but not found in CTEs; using last CTE") ;;;
               ctx' <- ask ;;
               ret (ctes, List.last (Dict.values (RenderContext.cte_aliases ctx')) "final")
           end
         else ret (ctes, final_alias)) ;;
      let '(ctes, final_alias) := ctes_alias in
      scenario <- the_scenario ;;
      let final_select :=
        match Dict.get final_node_id (Scenario.nodes scenario) with
        | Some final_node =>
            match Node.view_attributes final_node with
            | [] => "SELECT * FROM " ++ final_alias
            | attrs =>
                "SELECT " ++ PyStr.join ", " (map _quote_identifier attrs)
                ++ " FROM " ++ final_alias
            end
        | None => "SELECT * FROM " ++ final_alias
        end in
      sql <- assemble ctes final_select create_view view_name ;;
      (if validate then
         ctx <- ask ;;
         merge_validation (validation_passes (RenderContext.scenario ctx) sql ctx)
       else ret tt) ;;;
      return_sql return_warnings sql.

(** The body of [render_scenario] once the context exists. *)
Definition render_body (create_view : bool) (view_name : option string)
           (return_warnings validate : bool) : M rendered :=
  scenario <- the_scenario ;;
  match _topological_sort enum scenario with
  | None => diverge
  | Some ordered_nodes =>
      render_ordered ordered_nodes create_view view_name return_warnings validate
  end.

(** [render_scenario]: the outcome of the call and the render context
    it leaves behind. *)
Definition render_scenario
           (scenario : Scenario.t)
           (schema_overrides : option (Dict.t string))
           (target_schema client language : option string)
           (database_mode : DatabaseMode)
           (hana_version : option HanaVersion)
           (xml_format : option XMLFormat)
           (create_view : bool)
           (view_name : option string)
           (currency_udf currency_schema currency_table : option string)
           (return_warnings validate : bool)
  : outcome rendered * RenderContext.t :=
  render_body create_view view_name return_warnings validate
    (new_context scenario schema_overrides target_schema client language
                 database_mode hana_version xml_format
                 currency_udf currency_schema currency_table).

End RenderScenario.

(** ** A join without conditions *)

(** Two tables of schema S and one inner join over them with no join
    condition, no mapping and no filter. *)
Definition join_node : Node.t :=
  Node.mk "J" NodeKind.JOIN ["T1"; "T2"] [] [] [] [] [] [] (JoinNode JoinType.INNER []).


(** Collaborators that are never reached in a scenario whose only node
    is a join without conditions, mappings, calculated attributes and
    filters over plain tables. *)
Definition idle_collaborators : Collaborators :=
  {| _render_expression := fun _ _ => raise "unreachable";
     translate_raw_formula := fun _ => raise "unreachable";
     translate_raw_formula_in := fun _ _ => Raise "unreachable";
     _cleanup_hana_parameter_conditions := fun s => s;
     get_package := fun _ => None;
     _render_projection := fun _ => raise "unreachable";
     _render_aggregation := fun _ => raise "unreachable";
     _render_union := fun _ => raise "unreachable";
     _render_rank := fun _ => raise "unreachable";
     _render_calculation := fun _ => raise "unreachable";
     format_predicate_kind := fun _ => EmptyString;
     format_node_kind := fun _ => EmptyString |}.

(** An issue with the code [c] is among the issues [l]. *)
Definition has_code (c : string) (l : list ValidationIssue.t) : Prop :=
  exists i, In i l /\ ValidationIssue.code i = c.

(** Collaborators whose expression renderer writes a column as its name
    qualified by the alias and anything else as its text. *)
Definition plain_collaborators : Collaborators :=
  {| _render_expression :=
       fun e alias =>
         ret (match Expression.expression_type e, alias with
              | ExpressionType.COLUMN, Some a => a ++ "." ++ Expression.value e
              | _, _ => Expression.value e
              end);
     translate_raw_formula := fun s => ret s;
     translate_raw_formula_in := fun s _ => Ok s;
     _cleanup_hana_parameter_conditions := fun s => s;
     get_package := fun _ => None;
     _render_projection := fun _ => warn "projection" ;;; ret "SELECT 1";
     _render_aggregation := fun _ => ret "SELECT 1";
     _render_union := fun _ => ret "SELECT 1";
     _render_rank := fun _ => ret "SELECT 1";
     _render_calculation := fun _ => ret "SELECT 1";
     format_predicate_kind := fun _ => EmptyString;
     format_node_kind := fun _ => EmptyString |}.

Definition column (name : string) : Expression.t :=
  Expression.mk ExpressionType.COLUMN name None None None.

Definition literal (text : string) : Expression.t :=
  Expression.mk ExpressionType.LITERAL text None None None.

(** The filter [STATUS = X] with [including] false. *)
Definition excluding_filter : Predicate.t :=
  Predicate.mk PredicateKind.COMPARISON (column "STATUS") (Some "=")
               (Some (literal "'X'")) false.

Definition empty_context : RenderContext.t :=
  new_context (scenario_of [] []) None None None None SNOWFLAKE None None None None None.

(** ** Vocabulary of the frame property *)

(** A computation that leaves the scenario of the context as it found
    it, whatever else it does to the context and however it ends. *)
Definition preserves_scenario {A} (m : M A) : Prop :=
  forall ctx, RenderContext.scenario (snd (m ctx)) = RenderContext.scenario ctx.

(** Collaborators that do not write to the scenario. *)
Record read_only (C : Collaborators) : Prop := {
  ro_expression : forall e a, preserves_scenario (_render_expression C e a);
  ro_formula : forall s, preserves_scenario (translate_raw_formula C s);
  ro_projection : forall n, preserves_scenario (_render_projection C n);
  ro_aggregation : forall n, preserves_scenario (_render_aggregation C n);
  ro_union : forall n, preserves_scenario (_render_union C n);
  ro_rank : forall n, preserves_scenario (_render_rank C n);
  ro_calculation : forall n, preserves_scenario (_render_calculation C n)
}.


(** The inner, left, right or full join of two tables of schema S, with
    no join condition, no mapping and no filter. *)
Definition join_scenario_of (join_type : JoinType.t) : Scenario.t :=
  scenario_of [table "T1"; table "T2"]
    [("J", Node.mk "J" NodeKind.JOIN ["T1"; "T2"] [] [] [] [] [] []
                   (JoinNode join_type []))].

(** [render_scenario(scenario, return_warnings=True, validate=validate)] *)
Definition render_with_warnings (C : Collaborators) (enum : list string -> list string)
           (scenario : Scenario.t) (validate : bool) : outcome rendered * RenderContext.t :=
  render_scenario C enum scenario None None None None SNOWFLAKE None None
                  false None None None None true validate.

(** The warnings that mention a cartesian product, with the word in
    lower case only, and in any case. *)
Definition mentions_cartesian (warning : string) : bool :=
  PyStr.contains "cartesian" warning.

Definition mentions_cartesian_any_case (warning : string) : bool :=
  PyStr.contains "cartesian" (PyStr.lower warning).

(** ** Vocabulary of the validation properties *)

Definition sql_of (r : rendered) : string :=
  match r with
  | Sql sql => sql
  | SqlAndWarnings sql _ => sql
  end.

(** The terminal node found for this order is a node that is rendered:
    it is found, its id is not empty, and it is not a data source; only
    on this path does [render_scenario] reach its validation block. *)
Definition validated_path (scenario : Scenario.t) (ordered : list string) : bool :=
  match _find_final_node scenario ordered with
  | Some final =>
      nonempty final && negb (Dict.mem final (Scenario.data_sources scenario))
  | None => false
  end.

(** The messages that the validation block appends to the warnings of
    the context when no pass reports an error. *)
Definition validation_warnings (all_results : list ValidationResult.t) : list string :=
  flat_map (fun result =>
              List.app
                (map ValidationIssue.message (ValidationResult.warnings result))
                (map (fun info => "Info: " ++ ValidationIssue.message info)
                     (ValidationResult.info result)))
           all_results.

(** Two joins whose ids normalise to the same CTE alias. *)
Definition colliding_scenario : Scenario.t :=
  scenario_of [table "T1"; table "T2"]
    [("J 1", Node.mk "J 1" NodeKind.JOIN ["T1"; "T2"] [] [] [] [] [] []
                     (JoinNode JoinType.INNER []));
     ("j_1", Node.mk "j_1" NodeKind.JOIN ["T1"; "J 1"] [] [] [] [] [] []
                     (JoinNode JoinType.INNER []))].


(** The SQL and the context that the join scenario is rendered to. *)
Definition join_warning : string :=
  "Join J creates cartesian product (no join conditions)".

Definition join_sql_of (join_type : JoinType.t) : string :=
  PyStr.join PyStr.nl
    ["-- Warnings:";
     "--   Join J creates cartesian product (no join conditions)";
     "";
     "WITH";
     "  j AS (";
     "    SELECT";
     "        t1.*,";
     "        t2.*";
     "    FROM S.T1 AS t1";
     "    " ++ _map_join_type_to_sql join_type ++ " JOIN S.T2 AS t2 ON 1=1";
     "  )";
     "";
     "SELECT * FROM j"].

Definition join_context_of (join_type : JoinType.t) : RenderContext.t :=
  RenderContext.with_warnings [join_warning]
    (RenderContext.with_cte_aliases [("T1", "t1"); ("T2", "t2"); ("J", "j")]
       (new_context (join_scenario_of join_type) None None None None SNOWFLAKE
                    None None None None None)).

(** A join of the given inputs with no condition, mapping or filter. *)
Definition bare_join (node_id : string) (inputs : list string) : string * Node.t :=
  (node_id, Node.mk node_id NodeKind.JOIN inputs [] [] [] [] [] []
                    (JoinNode JoinType.INNER [])).

(** Two joins without conditions, the second over the first. *)
Definition two_joins_scenario : Scenario.t :=
  scenario_of [table "T1"; table "T2"; table "T3"]
    [bare_join "J1" ["T1"; "T2"]; bare_join "J2" ["J1"; "T3"]].

(** A join without conditions whose id is also the id of a table. *)
Definition shadowed_join_scenario : Scenario.t :=
  scenario_of [table "T1"; table "T2"; table "J"] [bare_join "J" ["T1"; "T2"]].


(** ** The text-level rewrites of the translator (translator/function_translator.py) *)

Definition apostrophe : ascii := ascii_of_nat 39.
Definition double_quote : ascii := ascii_of_nat 34.
Definition backslash : ascii := ascii_of_nat 92.
Definition open_paren : ascii := ascii_of_nat 40.
Definition close_paren : ascii := ascii_of_nat 41.
Definition comma : ascii := ascii_of_nat 44.

(** [c] is one of the two quote characters. *)
Definition is_quote (c : ascii) : bool :=
  Ascii.eqb c double_quote || Ascii.eqb c apostrophe.

(** [i == 0 or result[i-1] != '\\'] *)
Definition unescaped_at (result : string) (i : nat) : bool :=
  (i =? 0) || match String.get (i - 1) result with
              | Some c => negb (Ascii.eqb c backslash)
              | None => true
              end.

Definition is_char (o : option ascii) (c : ascii) : bool :=
  match o with Some x => Ascii.eqb x c | None => false end.

(** [current.append(c)] on the text of the list. *)
Definition push (current : string) (c : ascii) : string :=
  current ++ String c EmptyString.

Definition re_in_call : Re.re := Re.parse "\bIN\s*\(".

(** The scan for the parenthesis that closes [IN(]: [rest] is
    [result[i:]]; the value is [i] and [depth] when the loop ends. *)
Fixpoint scan_in_close (result : string) (rest : list ascii) (i : nat) (depth : Z)
         (in_quote : bool) (quote_char : option ascii) : nat * Z :=
  match rest with
  | [] => (i, depth)
  | c :: tl =>
      if (depth >? 0)%Z then
        let '(in_quote, quote_char) :=
          if is_quote c && unescaped_at result i then
            if negb in_quote then (true, Some c)
            else if is_char quote_char c then (false, None)
            else (in_quote, quote_char)
          else (in_quote, quote_char) in
        let depth :=
          if negb in_quote then
            if Ascii.eqb c open_paren then (depth + 1)%Z
            else if Ascii.eqb c close_paren then (depth - 1)%Z
            else depth
          else depth in
        scan_in_close result tl (S i) depth in_quote quote_char
      else (i, depth)
  end.

(** The split of [args_str] at its top-level commas: [rest] is
    [args_str[j:]]. *)
Fixpoint split_in_args (args_str : string) (rest : list ascii) (j : nat)
         (paren_depth : Z) (in_quote : bool) (quote_char : option ascii)
         (current_arg : string) (args : list string) : list string :=
  match rest with
  | [] =>
      if nonempty current_arg then snoc args (PyStr.strip current_arg) else args
  | c :: tl =>
      let '(in_quote, quote_char) :=
        if is_quote c then
          if negb in_quote then (true, Some c)
          else if is_char quote_char c && unescaped_at args_str j then (false, None)
          else (in_quote, quote_char)
        else (in_quote, quote_char) in
      if negb in_quote then
        if Ascii.eqb c open_paren then
          split_in_args args_str tl (S j) (paren_depth + 1)%Z in_quote quote_char
                        (push current_arg c) args
        else if Ascii.eqb c close_paren then
          split_in_args args_str tl (S j) (paren_depth - 1)%Z in_quote quote_char
                        (push current_arg c) args
        else if Ascii.eqb c comma && (paren_depth =? 0)%Z then
          split_in_args args_str tl (S j) paren_depth in_quote quote_char
                        EmptyString (snoc args (PyStr.strip current_arg))
        else
          split_in_args args_str tl (S j) paren_depth in_quote quote_char
                        (push current_arg c) args
      else
        split_in_args args_str tl (S j) paren_depth in_quote quote_char
                      (push current_arg c) args
  end.

(** The [while iteration < max_iterations] loop; [fuel] is the number
    of iterations left. *)
Fixpoint convert_in_loop (fuel : nat) (result : string) (search_start : nat) : string :=
  match fuel with
  | 0 => result
  | S fuel =>
      match Re.search true re_in_call (PyStr.drop search_start result) with
      | None => result
      | Some m =>
          let in_start := search_start + Re.m_start m in
          let in_end := search_start + Re.m_end m in
          let '(i, depth) :=
            scan_in_close result (Re.chars (PyStr.drop in_end result)) in_end 1%Z
                          false None in
          if negb (depth =? 0)%Z then result
          else
            let close_paren := i - 1 in
            let args_str := PyStr.slice in_end close_paren result in
            let args :=
              split_in_args args_str (Re.chars args_str) 0 0%Z false None
                            EmptyString [] in
            match args with
            | expression :: (_ :: _) as values =>
                let values_list := PyStr.join ", " values in
                let replacement := expression ++ " IN (" ++ values_list ++ ")" in
                let result :=
                  PyStr.take in_start result ++ replacement
                  ++ PyStr.drop (close_paren + 1) result in
                convert_in_loop fuel result (in_start + String.length replacement)
            | _ => result
            end
      end
  end.

Definition _convert_in_function_to_operator (formula : string) : string :=
  convert_in_loop 20 formula 0.

(** *** [_remove_parameter_clauses_hana] *)

Definition re_if_parameter : Re.re :=
  Re.parse "\bif\s*\(\s*\'(?:\$\$IP_[A-Z_]+\$\$|\'{0,3})\'\s*(!?=)\s*\'\'".

Definition re_parameter : Re.re := Re.parse "\$\$IP_[A-Z_]+\$\$".

(** [if val: args.append(val)] for [val = ''.join(current).strip()] *)
Definition append_stripped (args : list string) (current : string) : list string :=
  let val := PyStr.strip current in
  if nonempty val then snoc args val else args.

(** The scan over the arguments of [IF(]: [rest] is [result[i:]]; the
    value is [args] and [i] when the loop ends. *)
Fixpoint scan_if_args (rest : list ascii) (i : nat) (depth : Z) (in_quote : bool)
         (current : string) (args : list string) : list string * nat :=
  match rest with
  | [] => (args, i)
  | c :: tl =>
      if (depth >? 0)%Z then
        let in_quote := if is_quote c then negb in_quote else in_quote in
        if negb in_quote then
          if Ascii.eqb c open_paren then
            scan_if_args tl (S i) (depth + 1)%Z in_quote (push current c) args
          else if Ascii.eqb c close_paren then
            let depth := (depth - 1)%Z in
            if (depth =? 0)%Z then (append_stripped args current, i)
            else scan_if_args tl (S i) depth in_quote (push current c) args
          else if Ascii.eqb c comma && (depth =? 1)%Z then
            scan_if_args tl (S i) depth in_quote EmptyString (append_stripped args current)
          else scan_if_args tl (S i) depth in_quote (push current c) args
        else scan_if_args tl (S i) depth in_quote (push current c) args
      else (args, i)
  end.

(** The first loop: [IF()] expressions over a parameter check. *)
Fixpoint remove_if_loop (fuel : nat) (result : string) : string :=
  match fuel with
  | 0 => result
  | S fuel =>
      match Re.search true re_if_parameter result with
      | None => result
      | Some if_match =>
          let if_start := Re.m_start if_match in
          let args_start := Re.m_end if_match in
          let '(args, i) :=
            scan_if_args (Re.chars (PyStr.drop args_start result)) args_start 1%Z
                         false EmptyString [] in
          match args with
          | [then_value; else_value] =>
              let if_end := i in
              let operator := Re.group_or_empty result if_match 1 in
              let replacement :=
                if String.eqb operator "=" then then_value else else_value in
              let replacement :=
                if str_in (PyStr.strip replacement)
                          ["''"; "''''"; PyStr.dq ++ PyStr.dq]
                then "NULL" else replacement in
              remove_if_loop fuel
                (PyStr.take if_start result ++ replacement
                 ++ PyStr.drop (if_end + 1) result)
          | _ => result
          end
      end
  end.

(** ['IP_' in ahead and ('=' in ahead or 'IN(' in ahead or 'IN (' in ahead)] *)
Definition starts_parameter_clause (ahead : string) : bool :=
  PyStr.contains "IP_" ahead
  && (PyStr.contains "=" ahead || PyStr.contains "IN(" ahead
      || PyStr.contains "IN (" ahead).

(** The scan backwards for the opening parenthesis: the indices still
    to visit are [n - 1, ..., 0]. *)
Fixpoint find_opening_paren (result : string) (param_pos n : nat) (depth : Z)
         (in_quote : bool) : option nat :=
  match n with
  | 0 => None
  | S i =>
      match String.get i result with
      | None => None
      | Some c =>
          let in_quote :=
            if is_quote c && unescaped_at result i then negb in_quote else in_quote in
          if negb in_quote then
            if Ascii.eqb c close_paren then
              find_opening_paren result param_pos i (depth + 1)%Z in_quote
            else if Ascii.eqb c open_paren then
              if (depth =? 0)%Z
                 && starts_parameter_clause
                      (PyStr.upper (PyStr.slice i (param_pos + 30) result))
              then Some i
              else find_opening_paren result param_pos i (depth - 1)%Z in_quote
            else find_opening_paren result param_pos i depth in_quote
          else find_opening_paren result param_pos i depth in_quote
      end
  end.

(** The scan forwards for the matching closing parenthesis and for an
    [OR] at depth 1: [rest] is [result[i:]]. *)
Fixpoint find_closing_paren (result : string) (rest : list ascii) (i : nat) (depth : Z)
         (in_quote has_or : bool) : option nat * bool :=
  match rest with
  | [] => (None, has_or)
  | c :: tl =>
      let in_quote :=
        if is_quote c && unescaped_at result i then negb in_quote else in_quote in
      if negb in_quote then
        if Ascii.eqb c open_paren then
          find_closing_paren result tl (S i) (depth + 1)%Z in_quote has_or
        else if Ascii.eqb c close_paren then
          let depth := (depth - 1)%Z in
          if (depth =? 0)%Z then (Some i, has_or)
          else find_closing_paren result tl (S i) depth in_quote has_or
        else if (depth =? 1)%Z && (i + 3 <=? String.length result) then
          let chunk := PyStr.upper (PyStr.slice i (i + 3) result) in
          find_closing_paren result tl (S i) depth in_quote
            (if String.eqb chunk " OR" || String.eqb chunk "OR " then true else has_or)
        else find_closing_paren result tl (S i) depth in_quote has_or
      else find_closing_paren result tl (S i) depth in_quote has_or
  end.

(** [s[:-k]] *)
Definition drop_last (k : nat) (s : string) : string :=
  PyStr.take (String.length s - k) s.

(** The connector that is dropped before the removed clause. *)
Definition trim_before (before : string) : string :=
  let before_stripped := PyStr.rstrip before in
  if PyStr.endswith " AND" (PyStr.upper before_stripped) then drop_last 4 before_stripped
  else if PyStr.endswith " OR" (PyStr.upper before_stripped) then drop_last 3 before_stripped
  else if PyStr.endswith "AND" before_stripped then drop_last 3 before_stripped
  else if PyStr.endswith "OR" before_stripped then drop_last 2 before_stripped
  else before.

(** The connector that is dropped after the removed clause. *)
Definition trim_after (after : string) : string :=
  let after_stripped := PyStr.lstrip after in
  if PyStr.startswith "AND " (PyStr.upper after_stripped) then PyStr.drop 4 after_stripped
  else if PyStr.startswith "OR " (PyStr.upper after_stripped) then PyStr.drop 3 after_stripped
  else after.

(** The second loop: the clauses around the parameters. *)
Fixpoint remove_clause_loop (fuel : nat) (result : string) : string :=
  match fuel with
  | 0 => result
  | S fuel =>
      match Re.search false re_parameter result with
      | None => result
      | Some param_match =>
          let param_pos := Re.m_start param_match in
          let blanked :=
            PyStr.take (Re.m_start param_match) result ++ "''"
            ++ PyStr.drop (Re.m_end param_match) result in
          match find_opening_paren result param_pos param_pos 0%Z false with
          | None => remove_clause_loop fuel blanked
          | Some opening_paren =>
              match find_closing_paren result
                      (Re.chars (PyStr.drop opening_paren result)) opening_paren 0%Z
                      false false with
              | (Some closing_paren, true) =>
                  let before := PyStr.take opening_paren result in
                  let after := PyStr.drop (closing_paren + 1) result in
                  remove_clause_loop fuel (trim_before before ++ trim_after after)
              | _ => remove_clause_loop fuel blanked
              end
          end
      end
  end.

(** The six fragment patterns with what replaces a match, in the order
    in which the loop tries them. *)
Definition fragment_patterns : list (Re.re * string) :=
  [(Re.parse "\(\s*\(\s*''{2,4}\s*=\s*\d+\s*\)\s+OR\s+[^)]+\)", EmptyString);
   (Re.parse "\(\s*\(\s*''{2,4}\s*=\s*''{2,4}\s*\)\s+OR\s+[^)]+\)", EmptyString);
   (Re.parse "\(\s*''{2,4}\s*=\s*''{2,4}\s+OR\s+[^)]+\)", EmptyString);
   (Re.parse "\([^(]+\s+OR\s+\(\s*''{2,4}\s*=\s*\d+\s*\)\s*\)", EmptyString);
   (Re.parse "DATE\s*\(\s*''{2,4}\s*\)", "NULL");
   (Re.parse "\(\s*DATE\([^)]+\)\s*[<>=]+\s*DATE\s*\(\s*''{2,4}\s*\)\s*\)", EmptyString)].

(** The first pattern of the list that matches, with its match. *)
Fixpoint first_fragment (patterns : list (Re.re * string)) (result : string)
  : option (Re.mobj * string) :=
  match patterns with
  | [] => None
  | (r, replacement) :: tl =>
      match Re.search true r result with
      | Some fragment_match => Some (fragment_match, replacement)
      | None => first_fragment tl result
      end
  end.

(** The third loop: fragments left behind. *)
Fixpoint remove_fragment_loop (fuel : nat) (result : string) : string :=
  match fuel with
  | 0 => result
  | S fuel =>
      match first_fragment fragment_patterns result with
      | Some (fragment_match, replacement) =>
          remove_fragment_loop fuel
            (PyStr.take (Re.m_start fragment_match) result ++ replacement
             ++ PyStr.drop (Re.m_end fragment_match) result)
      | None => result
      end
  end.

Definition _remove_parameter_clauses_hana (formula : string) : string :=
  let result := formula in
  let max_iterations := 20 in
  let result := remove_if_loop max_iterations result in
  let result := remove_clause_loop max_iterations result in
  let result := Re.sub false (Re.parse "\s+") " " result in
  let result := Re.sub false (Re.parse "[\s(]\(\s*\)[\s)]") EmptyString result in
  let result := Re.sub true (Re.parse "\s*AND\s+AND\s*") " AND " result in
  let result := Re.sub true (Re.parse "\s*OR\s+OR\s*") " OR " result in
  let max_fragment_iterations := 20 in
  let result := remove_fragment_loop max_fragment_iterations result in
  let result := Re.sub true (Re.parse "\s+AND\s+\)") " )" result in
  let result := Re.sub true (Re.parse "\s+OR\s+\)") " )" result in
  let result := Re.sub true (Re.parse "\(\s+AND\s+") "(" result in
  let result := Re.sub true (Re.parse "\(\s+OR\s+") "(" result in
  let result := Re.sub true (Re.parse "WHERE\s+AND\s+") "WHERE " result in
  let result := Re.sub true (Re.parse "WHERE\s+OR\s+") "WHERE " result in
  PyStr.strip result.

(** *** Parenthesis balance *)

(** The depth after the characters of [l], starting from [depth];
    [None] once a closing parenthesis has no opening one. *)
Fixpoint paren_depth (l : list ascii) (depth : nat) : option nat :=
  match l with
  | [] => Some depth
  | c :: tl =>
      if Ascii.eqb c open_paren then paren_depth tl (S depth)
      else if Ascii.eqb c close_paren then
        match depth with
        | 0 => None
        | S d => paren_depth tl d
        end
      else paren_depth tl depth
  end.

(** Every parenthesis of [s] has its partner. *)
Definition balanced (s : string) : bool :=
  match paren_depth (Re.chars s) 0 with
  | Some 0 => true
  | _ => false
  end.

(** As many opening as closing parentheses. *)
Definition same_paren_count (s : string) : bool :=
  PyStr.count_char open_paren s =? PyStr.count_char close_paren s.


(** ** Further functions of the cited modules *)

(** *** Operators of filters (x2s_core/parser/scenario_parser.py) *)

Definition filter_operator_mapping : Dict.t string :=
  [("EQ", "="); ("NE", "<>"); ("GT", ">"); ("GE", ">="); ("LT", "<");
   ("LE", "<="); ("BETWEEN", "BETWEEN"); ("IN", "IN"); ("LIKE", "LIKE")].

Definition _map_filter_operator (value : option string) : string :=
  if negb (truthy value) then "="
  else
    let normalized := PyStr.upper (or_else value EmptyString) in
    match Dict.get normalized filter_operator_mapping with
    | Some op => op
    | None => normalized
    end.

(** *** Data types of HANA (renderer/renderer.py) *)

Definition type_defaults : Dict.t string :=
  [("NVARCHAR", "NVARCHAR(100)"); ("VARCHAR", "VARCHAR(100)");
   ("INTEGER", "INTEGER"); ("DECIMAL", "DECIMAL(15,2)"); ("DATE", "DATE");
   ("TIMESTAMP", "TIMESTAMP")].

Definition _map_hana_datatype (datatype : option string) : string :=
  if negb (truthy datatype) then "NVARCHAR(100)"
  else
    let datatype := or_else datatype EmptyString in
    let dt_upper := PyStr.upper datatype in
    if PyStr.contains "(" dt_upper then datatype
    else
      match Dict.get dt_upper type_defaults with
      | Some mapped => mapped
      | None => dt_upper ++ "(100)"
      end.

(** *** Literals and column references (renderer/renderer.py) *)

(** [value.replace(chr(39), chr(39) + chr(39))] *)
Definition double_apostrophes (value : string) : string :=
  PyStr.replace "'" "''" value.

Definition _render_literal (value : string) (data_type : option DataTypeSpec.t) : string :=
  let has_leading_zero :=
    PyStr.isdigit value && (1 <? String.length value) && PyStr.startswith "0" value in
  if negb has_leading_zero
     && (PyStr.isdigit value
         || (PyStr.startswith "-" value && PyStr.isdigit (PyStr.drop 1 value)))
  then value
  else
    let quoted_text := "'" ++ double_apostrophes value ++ "'" in
    match data_type with
    | Some spec =>
        match DataTypeSpec.type spec with
        | DATE =>
            if (String.length value =? 8) && PyStr.isdigit value
            then "TO_DATE('" ++ value ++ "', 'YYYYMMDD')"
            else "'" ++ value ++ "'::DATE"
        | TIMESTAMP_NTZ => "'" ++ value ++ "'::TIMESTAMP_NTZ"
        | _ => quoted_text
        end
    | None => quoted_text
    end.

Definition _render_column_ref (column_name : string) (table_alias : option string)
  : string :=
  if truthy table_alias
  then or_else table_alias EmptyString ++ "." ++ _quote_identifier column_name
  else _quote_identifier column_name.

(** *** Arguments of function calls (translator/function_translator.py) *)

(** [if argument: args.append(argument)] for
    [argument = ''.join(current).strip()] is [append_stripped]. *)

(** The loop of [_split_arguments]: [rest] is [arg_string[idx:]]. *)
Fixpoint split_arguments_loop (rest : list ascii) (depth : nat) (in_quote : bool)
         (current : string) (args : list string) : list string :=
  match rest with
  | [] => append_stripped args current
  | ch :: tl =>
      if Ascii.eqb ch apostrophe then
        match in_quote, tl with
        | true, next :: tl' =>
            if Ascii.eqb next apostrophe
            then split_arguments_loop tl' depth in_quote (current ++ "''") args
            else split_arguments_loop tl depth (negb in_quote) (push current ch) args
        | _, _ => split_arguments_loop tl depth (negb in_quote) (push current ch) args
        end
      else if negb in_quote then
        if Ascii.eqb ch open_paren then
          split_arguments_loop tl (S depth) in_quote (push current ch) args
        else if Ascii.eqb ch close_paren then
          split_arguments_loop tl (Nat.max (depth - 1) 0) in_quote (push current ch) args
        else if Ascii.eqb ch comma && (depth =? 0) then
          split_arguments_loop tl depth in_quote EmptyString (append_stripped args current)
        else split_arguments_loop tl depth in_quote (push current ch) args
      else split_arguments_loop tl depth in_quote (push current ch) args
  end.

Definition _split_arguments (arg_string : string) : list string :=
  split_arguments_loop (Re.chars arg_string) 0 false EmptyString [].

(** The scan of [_extract_function_arguments]: [rest] is [text[i:]];
    the value is the index of the closing parenthesis. *)
Fixpoint closing_index (rest : list ascii) (i : nat) (depth : Z) : option nat :=
  match rest with
  | [] => None
  | ch :: tl =>
      if Ascii.eqb ch open_paren then closing_index tl (S i) (depth + 1)%Z
      else if Ascii.eqb ch close_paren then
        if (depth - 1 =? 0)%Z then Some i
        else closing_index tl (S i) (depth - 1)%Z
      else closing_index tl (S i) depth
  end.

(** [_extract_function_arguments]; [None] stands for [(-1, None)]. *)
Definition _extract_function_arguments (text : string) (open_paren_index : nat)
  : option (nat * list string) :=
  let args_start := open_paren_index + 1 in
  match closing_index (Re.chars (PyStr.drop open_paren_index text))
                      open_paren_index 0%Z with
  | Some i => Some (i + 1, _split_arguments (PyStr.slice args_start i text))
  | None => None
  end.

Definition _normalize_scalar (argument : string) : string :=
  let stripped := PyStr.strip argument in
  if PyStr.startswith PyStr.dq stripped && PyStr.endswith PyStr.dq stripped then
    let inner :=
      PyStr.replace "'" "''" (PyStr.slice 1 (String.length stripped - 1) stripped) in
    "'" ++ inner ++ "'"
  else stripped.


(** *** Vocabulary of the properties of [_split_arguments] *)

(** The characters [x] held by the arguments of a list. *)
Definition held (x : ascii) (args : list string) : nat :=
  list_sum (map (PyStr.count_char x) args).

Definition count_list (x : ascii) (l : list ascii) : nat :=
  List.length (filter (fun c => Ascii.eqb c x) l).

(** An argument that is not empty and has no surrounding whitespace. *)
Definition clean_argument (a : string) : Prop :=
  a <> EmptyString /\ PyStr.strip a = a.


(** *** The dispatcher of the validator (xml_to_sql/sql/validator.py) *)

(** [ValidationResult.has_issues] *)
Definition has_issues (r : ValidationResult.t) : bool :=
  match ValidationResult.errors r, ValidationResult.warnings r, ValidationResult.info r with
  | [], [], [] => false
  | _, _, _ => true
  end.

(** [self.merge(other)] *)
Definition merge (other self : ValidationResult.t) : ValidationResult.t :=
  ValidationResult.mk
    (if ValidationResult.has_errors other then false else ValidationResult.is_valid self)
    (List.app (ValidationResult.errors self) (ValidationResult.errors other))
    (List.app (ValidationResult.warnings self) (ValidationResult.warnings other))
    (List.app (ValidationResult.info self) (ValidationResult.info other)).

(** The value of a member of [HanaVersion], a [str] enumeration. *)
Definition hana_version_value (version : HanaVersion) : string :=
  match version with
  | HANA_1_0 => "1.0"
  | HANA_2_0 => "2.0"
  | HANA_2_0_SPS01 => "2.0_SPS01"
  | HANA_2_0_SPS03 => "2.0_SPS03"
  | HANA_2_0_SPS04 => "2.0_SPS04"
  end.

(** [a < b] on strings: by code point, a proper prefix first. *)
Fixpoint str_lt (a b : string) : bool :=
  match a, b with
  | _, EmptyString => false
  | EmptyString, String _ _ => true
  | String x a', String y b' =>
      if PyStr.code x <? PyStr.code y then true
      else if PyStr.code y <? PyStr.code x then false
      else str_lt a' b'
  end.

(** [version < other] on members of [HanaVersion]: the comparison of
    their values. *)
Definition version_lt (version other : HanaVersion) : bool :=
  str_lt (hana_version_value version) (hana_version_value other).

Definition _validate_hana_version_features (sql : string) (version : HanaVersion)
  : ValidationResult.t :=
  let result := ValidationResult.empty in
  let current := " (current: " ++ hana_version_value version ++ ")" in
  let result :=
    if version_lt version HANA_2_0_SPS01 then
      let result :=
        when (is_some (Re.search true (Re.parse "\bINTERSECT\b") sql))
             (add_error ("INTERSECT operator requires HANA 2.0 SPS01+" ++ current)
                        "HANA_VERSION_INTERSECT" None)
             result in
      when (is_some (Re.search true (Re.parse "\bEXCEPT\b|\bMINUS\b") sql))
           (add_error ("EXCEPT/MINUS operator requires HANA 2.0 SPS01+" ++ current)
                      "HANA_VERSION_MINUS" None)
           result
    else result in
  let result :=
    if version_lt version HANA_2_0_SPS03 then
      when (is_some (Re.search true (Re.parse "IGNORE\s+NULLS") sql))
           (add_warning
              ("IGNORE NULLS in window functions may not be supported in HANA < 2.0 SPS03"
               ++ current)
              "HANA_VERSION_IGNORE_NULLS")
           result
    else result in
  if version_lt version HANA_1_0 then
    when (is_some (Re.search true (Re.parse "\bADD_MONTHS\s*\(") sql))
         (add_error ("ADD_MONTHS function not available in HANA < 1.0" ++ current)
                    "HANA_VERSION_ADD_MONTHS" None)
         result
  else result.

Definition validate_hana_sql (sql : string) (scenario : Scenario.t)
           (hana_version : option HanaVersion) : ValidationResult.t :=
  let result := ValidationResult.empty in
  let structure_result := validate_sql_structure sql in
  let result := merge structure_result result in
  let result :=
    when (is_some (Re.search true (Re.parse "\bIFF\s*\(") sql))
         (add_error "IFF() function is not supported in HANA - should be IF()"
                    "HANA_INVALID_IFF_FUNCTION" None)
         result in
  let result :=
    when (PyStr.contains " || " sql)
         (add_warning
            "String concatenation using '||' detected - HANA typically uses '+' operator"
            "HANA_CONCAT_SYNTAX")
         result in
  let result :=
    when (is_some (Re.search true (Re.parse "CREATE\s+OR\s+REPLACE\s+VIEW") sql))
         (add_warning
            "CREATE OR REPLACE VIEW not supported in all HANA versions - may need to DROP VIEW first"
            "HANA_CREATE_OR_REPLACE")
         result in
  let result :=
    when (is_some (Re.search true (Re.parse "\bNUMBER\s*\(") sql))
         (add_warning "NUMBER data type is Snowflake-specific - HANA uses DECIMAL"
                      "HANA_NUMBER_TYPE")
         result in
  let result :=
    when (is_some (Re.search true (Re.parse "\bTIMESTAMP_NTZ\b") sql))
         (add_warning "TIMESTAMP_NTZ is Snowflake-specific - HANA uses TIMESTAMP"
                      "HANA_TIMESTAMP_TYPE")
         result in
  let result :=
    match hana_version with
    | Some version => merge (_validate_hana_version_features sql version) result
    | None => result
    end in
  let performance_result := validate_performance sql scenario in
  let result := merge performance_result result in
  let complexity_result := analyze_query_complexity sql scenario in
  merge complexity_result result.

Section Dispatcher.

Variable enum : list string -> list string.

Definition validate_sql (sql : string) (mode : DatabaseMode) (scenario : Scenario.t)
           (hana_version : option HanaVersion) (ctx : option RenderContext.t)
  : ValidationResult.t :=
  match mode with
  | HANA => validate_hana_sql sql scenario hana_version
  | SNOWFLAKE =>
      let result := ValidationResult.empty in
      let structure_result := validate_sql_structure sql in
      let result := merge structure_result result in
      let result :=
        match ctx with
        | Some ctx => merge (validate_query_completeness enum scenario sql ctx) result
        | None => result
        end in
      let performance_result := validate_performance sql scenario in
      let result := merge performance_result result in
      let snowflake_result := validate_snowflake_specific enum sql in
      let result := merge snowflake_result result in
      let complexity_result := analyze_query_complexity sql scenario in
      merge complexity_result result
  end.

End Dispatcher.

(** *** Vocabulary of the validation results *)

(** The flag of a result says what its list of errors says. *)
Definition consistent (r : ValidationResult.t) : Prop :=
  ValidationResult.is_valid r = negb (ValidationResult.has_errors r).

(** A result without an error, and valid. *)
Definition error_free (r : ValidationResult.t) : Prop :=
  ValidationResult.errors r = [] /\ ValidationResult.is_valid r = true.


(** *** Vocabulary of the further renderer properties *)

(** The predicate [pred] with its [including] flag set to [flag]. *)
Definition with_including (flag : bool) (pred : Predicate.t) : Predicate.t :=
  Predicate.mk (Predicate.kind pred) (Predicate.left pred) (Predicate.operator pred)
               (Predicate.right pred) flag.

(** The terminal node found for this order is a data source. *)
Definition terminal_data_source (scenario : Scenario.t) (ordered : list string) : bool :=
  match _find_final_node scenario ordered with
  | Some final => nonempty final && Dict.mem final (Scenario.data_sources scenario)
  | None => false
  end.

(** The message and the SQL of a render without a terminal node. *)
Definition missing_final_node : string :=
  "No terminal node found - cannot generate valid SQL".

Definition placeholder_sql : string :=
  PyStr.join PyStr.nl
    ["-- Warnings:";
     "--   No terminal node found - cannot generate valid SQL";
     "";
     "WITH";
     "  final AS (";
     "    SELECT NULL AS placeholder";
     "  )";
     "";
     "SELECT * FROM final"].


(** *** Vocabulary of the properties of the CTE checks *)

(** Some name of [names] is in [seen] or occurs earlier in [names]. *)
Fixpoint has_duplicate (seen names : list string) : bool :=
  match names with
  | [] => false
  | name :: tl => str_in name seen || has_duplicate (snoc seen name) tl
  end.


(** *** Vocabulary of the properties of the regular expressions *)

(** The texts that a pattern can consume, the conditions of its
    assertions and the bounds of its repetitions left aside. *)
Fixpoint lang (icase : bool) (r : Re.re) (w : list ascii) : Prop :=
  match r with
  | Re.Empty | Re.Bol | Re.Eol | Re.WordB _ | Re.Look _ _ => w = []
  | Re.Never => False
  | Re.Lit p => exists c, w = [c] /\ Re.lit_ok icase p c = true
  | Re.AnyChar => exists c, w = [c] /\ (PyStr.code c =? 10) = false
  | Re.CSet neg items => exists c, w = [c] /\ Re.set_ok icase neg items c = true
  | Re.Seq a b => exists w1 w2, w = (w1 ++ w2)%list /\ lang icase a w1 /\ lang icase b w2
  | Re.Alt a b => lang icase a w \/ lang icase b w
  | Re.Rep _ _ _ body => exists ws, w = concat ws /\ Forall (lang icase body) ws
  | Re.Grp _ body => lang icase body w
  end.

(** The state [st'] is the state [st] after the text [w]. *)
Definition advances (st st' : Re.mstate) (w : list ascii) : Prop :=
  Re.rest st = (w ++ Re.rest st')%list /\ Re.pos st' = Re.pos st + List.length w.

(** The loop of a repetition, as [Re.run] has it, over the matcher of
    its body. *)
Definition rep_loop (R : Type) (greedy : bool) (lo : nat) (hi : option nat)
           (body : Re.mstate -> (Re.mstate -> option R) -> option R)
           (k : Re.mstate -> option R) : nat -> nat -> Re.mstate -> option R :=
  fix loop (fuel n : nat) (st : Re.mstate) {struct fuel} : option R :=
    match fuel with
    | O => None
    | S fuel' =>
        if greedy then
          match (if Re.below n hi
                 then body st (fun st' =>
                        if (Re.pos st <? Re.pos st') || (n <? lo)
                        then loop fuel' (S n) st' else None)
                 else None) with
          | Some x => Some x
          | None => if lo <=? n then k st else None
          end
        else
          match (if lo <=? n then k st else None) with
          | Some x => Some x
          | None =>
              if Re.below n hi
              then body st (fun st' =>
                     if (Re.pos st <? Re.pos st') || (n <? lo)
                     then loop fuel' (S n) st' else None)
              else None
          end
    end.

(** What the continuation of a pattern receives: a state that lies
    after a text of the language of the pattern. *)
Definition sound (icase : bool) (r : Re.re) : Prop :=
  forall R st (k : Re.mstate -> option R) x,
    Re.run icase R r st k = Some x ->
    exists w st', advances st st' w /\ lang icase r w /\ k st' = Some x.

(** The item that [\d] stands for. *)
Definition digit_run : Re.re := Re.CSet false [Re.ICls false Re.ClsDigit].

(** *** Vocabulary of the reference prefixes *)

(** The three prefixes of a reference: the external one with its
    segment index, the same-document one, and the bare fragment
    marker. *)
Inductive RefPrefix :=
| External (index : string)
| SameDocument
| Fragment.

Definition prefix_text (p : RefPrefix) : string :=
  match p with
  | External index => "#/" ++ index ++ "/"
  | SameDocument => "#//"
  | Fragment => "#"
  end.

(** A segment index is a non-empty run of digits. *)
Definition recognized (p : RefPrefix) : bool :=
  match p with
  | External index => nonempty index && PyStr.all_chars PyStr.is_decimal index
  | _ => true
  end.

(** What follows the prefix begins neither with whitespace nor with a
    slash. *)
Definition begins_id (r : string) : bool :=
  match r with
  | EmptyString => true
  | String c _ => negb (PyStr.isspace c) && negb (Ascii.eqb c "/")
  end.

(* ================================================================== *)
(** * Part II.  Properties                                             *)
(* ================================================================== *)

(** ** Strings *)

Module PyStrFacts.
Import PyStr.

Lemma length_drop_le n s : String.length (drop n s) <= String.length s.
Proof.
  revert s; induction n as [|n IH]; intros [|c s]; simpl; auto.
  all: try (specialize (IH s); lia).
Qed.

Lemma length_drop_lt n s :
  0 < n -> s <> EmptyString -> String.length (drop n s) < String.length s.
Proof.
  intros Hn Hs. destruct n as [|n]; [lia|].
  destruct s as [|c s]; [congruence|]. simpl.
  pose proof (length_drop_le n s). lia.
Qed.

Lemma length_lstrip_le s : String.length (lstrip s) <= String.length s.
Proof.
  induction s as [|c s IH]; simpl; auto.
  destruct (isspace c); simpl; lia.
Qed.

Lemma length_rstrip_le s : String.length (rstrip s) <= String.length s.
Proof.
  induction s as [|c s IH]; simpl; auto.
  destruct (rstrip s) eqn:E; [destruct (isspace c)|]; simpl in *; lia.
Qed.

Lemma length_strip_le s : String.length (strip s) <= String.length s.
Proof.
  unfold strip. pose proof (length_rstrip_le (lstrip s)).
  pose proof (length_lstrip_le s). lia.
Qed.

Lemma startswith_cons_inv a p s :
  startswith (String a p) s = true -> exists s', s = String a s' /\ startswith p s' = true.
Proof.
  destruct s as [|b s]; simpl; [discriminate|].
  destruct (Ascii.eqb_spec a b); simpl; [subst; eauto|discriminate].
Qed.

Lemma startswith_hash_weaken p s :
  startswith (String "#" p) s = true -> startswith "#" s = true.
Proof.
  intros H. apply startswith_cons_inv in H as (s' & -> & _). reflexivity.
Qed.

End PyStrFacts.

(** ** Reference cleaning *)

Section CleanRef.
Import PyStr PyStrFacts.

(** Cleaning never lengthens a reference, and shortens every reference
    whose stripped form starts with the fragment marker. *)
Lemma clean_ref_length_le t :
  String.length (_clean_ref t) <= String.length t.
Proof.
  unfold _clean_ref. pose proof (length_strip_le t).
  repeat match goal with
         | |- context [if ?b then _ else _] => destruct b
         | |- context [drop ?n ?s] => pose proof (length_drop_le n s); generalize dependent (drop n s); intros
         end; lia.
Qed.

Lemma clean_ref_marked_shorter t :
  startswith "#" (strip t) = true ->
  String.length (_clean_ref t) < String.length t.
Proof.
  intros H. unfold _clean_ref. pose proof (length_strip_le t) as Hl.
  assert (Hne : strip t <> EmptyString).
  { intros E. rewrite E in H. discriminate. }
  rewrite H.
  repeat match goal with
         | |- context [if ?b then _ else _] => destruct b
         end;
    match goal with
    | |- context [drop ?n ?s] =>
        pose proof (length_drop_lt n s ltac:(lia) Hne); lia
    end.
Qed.

Lemma clean_ref_unmarked t :
  startswith "#" (strip t) = false -> _clean_ref t = strip t.
Proof.
  intros H. unfold _clean_ref.
  destruct (startswith "#//" (strip t)) eqn:E1.
  { apply startswith_hash_weaken in E1. congruence. }
  destruct (startswith "#/" (strip t)) eqn:E2.
  { apply startswith_hash_weaken in E2. congruence. }
  now rewrite H.
Qed.

(** The fixed points of cleaning are the references without surrounding
    whitespace and without a leading fragment marker. *)
Lemma clean_ref_fixpoint_iff t :
  _clean_ref t = t <-> strip t = t /\ startswith "#" t = false.
Proof.
  split.
  - intros Hfix. destruct (startswith "#" (strip t)) eqn:E.
    + pose proof (clean_ref_marked_shorter t E) as Hlt.
      rewrite Hfix in Hlt. lia.
    + rewrite (clean_ref_unmarked t E) in Hfix. split; [exact Hfix|].
      now rewrite Hfix in E.
  - intros [Hs Hm]. rewrite clean_ref_unmarked; rewrite Hs; auto.
Qed.

End CleanRef.

(** C6 (as stated, refuted): a reference carrying the same-document
    prefix whose remainder is itself marked is cleaned one layer at a
    time, so cleaning the cleaned reference changes it again. *)
Lemma clean_ref_not_idempotent :
  PyStr.startswith "#//" "#//#Projection_1" = true /\
  _clean_ref "#//#Projection_1" = "#Projection_1" /\
  _clean_ref (_clean_ref "#//#Projection_1") = "Projection_1" /\
  _clean_ref (_clean_ref "#//#Projection_1") <> _clean_ref "#//#Projection_1".
Proof. repeat split; vm_compute; congruence. Qed.

(** ** Topological sort *)

Section ListFacts.
Local Open Scope list_scope.

Lemma str_in_iff x l : str_in x l = true <-> In x l.
Proof.
  unfold str_in. rewrite existsb_exists. split.
  - intros (y & Hy & E). apply String.eqb_eq in E. now subst.
  - intros H. exists x. split; [assumption|apply String.eqb_refl].
Qed.

Lemma str_in_false_iff x l : str_in x l = false <-> ~ In x l.
Proof.
  rewrite <- str_in_iff. destruct (str_in x l); split; congruence.
Qed.

Lemma snoc_decomp {A} (l : list A) c l1 n l2 :
  l ++ [c] = l1 ++ n :: l2 ->
  (l2 = [] /\ l1 = l /\ n = c) \/
  (exists l2', l2 = l2' ++ [c] /\ l = l1 ++ n :: l2').
Proof.
  intros H. destruct l2 as [|y l2 _] using rev_ind.
  - left. apply app_inj_tail in H as [-> ->]. auto.
  - right. exists l2.
    rewrite app_comm_cons, app_assoc in H.
    apply app_inj_tail in H as [H ->]. auto.
Qed.

Lemma filter_length_zero {A} (f : A -> bool) l :
  List.length (filter f l) = 0 -> forall x, In x l -> f x = false.
Proof.
  intros H x Hx. destruct (f x) eqn:E; [|reflexivity].
  assert (In x (filter f l)) as Hin by (apply filter_In; auto).
  destruct (filter f l); [contradiction|discriminate].
Qed.

Lemma filter_length_pos {A} (f : A -> bool) l :
  0 < List.length (filter f l) -> exists x, In x l /\ f x = true.
Proof.
  destruct (filter f l) as [|x tl] eqn:E; simpl; [lia|]. intros _.
  exists x. apply filter_In. rewrite E. now left.
Qed.

End ListFacts.

Section GraphFacts.
Local Open Scope list_scope.
Variable ids : list string.

Lemma targets_app u E1 E2 : targets u (E1 ++ E2) = targets u E1 ++ targets u E2.
Proof. unfold targets. now rewrite filter_app, map_app. Qed.

Lemma count_into_app n E1 E2 :
  count_into n (E1 ++ E2) = count_into n E1 + count_into n E2.
Proof. unfold count_into. now rewrite filter_app, length_app. Qed.

Lemma add_inputs_spec node_id inputs :
  forall g d,
    (forall u, fst (add_inputs ids node_id inputs g d) u
               = g u ++ targets u (node_edges ids node_id inputs)) /\
    (forall n, snd (add_inputs ids node_id inputs g d) n
               = (d n + Z.of_nat (count_into n (node_edges ids node_id inputs)))%Z).
Proof.
  induction inputs as [|input_id tl IH]; intros g d.
  - simpl. split; intros; [now rewrite app_nil_r | unfold count_into; simpl; lia].
  - simpl. destruct (str_in (clean_input input_id) ids) eqn:Hin.
    + destruct (IH (upd g (clean_input input_id) (g (clean_input input_id) ++ [node_id]))
                   (upd d node_id (d node_id + 1)%Z)) as [Hg Hd].
      split.
      * intros u. rewrite Hg. unfold upd, targets. simpl.
        destruct (String.eqb_spec u (clean_input input_id)).
        -- subst. simpl. now rewrite <- app_assoc.
        -- reflexivity.
      * intros n. rewrite Hd. unfold upd, count_into. simpl.
        destruct (String.eqb_spec n node_id); subst; simpl length; lia.
    + destruct (IH g (upd d node_id (d node_id + 0)%Z)) as [Hg Hd].
      split.
      * intros u. now rewrite Hg.
      * intros n. rewrite Hd. unfold upd. simpl.
        destruct (String.eqb_spec n node_id); subst; lia.
Qed.

Lemma build_graph_spec nodes :
  forall g d,
    (forall u, fst (build_graph ids nodes g d) u = g u ++ targets u (edges_of ids nodes)) /\
    (forall n, snd (build_graph ids nodes g d) n
               = (d n + Z.of_nat (count_into n (edges_of ids nodes)))%Z).
Proof.
  induction nodes as [|[node_id node] tl IH]; intros g d.
  - simpl. split; intros; [now rewrite app_nil_r | unfold count_into; simpl; lia].
  - simpl.
    destruct (add_inputs ids node_id (Node.inputs node) g d) as [g' d'] eqn:E.
    pose proof (add_inputs_spec node_id (Node.inputs node) g d) as [Hg Hd].
    rewrite E in Hg, Hd. simpl in Hg, Hd.
    destruct (IH g' d') as [Hg' Hd'].
    unfold edges_of in *. simpl. split.
    + intros u. rewrite Hg', Hg, targets_app. now rewrite app_assoc.
    + intros n. rewrite Hd', Hd, count_into_app. lia.
Qed.

Lemma reset_sources_spec ds :
  forall d x, reset_sources ds d x = if str_in x ds then 0%Z else d x.
Proof.
  induction ds as [|k tl IH]; intros d x; simpl; [reflexivity|].
  rewrite IH. unfold upd. destruct (String.eqb_spec x k); simpl.
  - now destruct (str_in x tl).
  - reflexivity.
Qed.

Lemma node_edges_in u n node_id inputs :
  In (u, n) (node_edges ids node_id inputs) <->
  n = node_id /\ In u ids /\ exists input_id, In input_id inputs /\ clean_input input_id = u.
Proof.
  unfold node_edges. rewrite in_flat_map. split.
  - intros (i & Hi & H). destruct (str_in (clean_input i) ids) eqn:E; [|contradiction].
    destruct H as [H|[]]. inversion H; subst. apply str_in_iff in E. eauto.
  - intros (-> & Hu & i & Hi & <-). exists i. split; [assumption|].
    apply str_in_iff in Hu. rewrite Hu. now left.
Qed.

Lemma pending_snoc res c n E :
  ~ In c res ->
  pending res n E = pending (res ++ [c]) n E + count_occ string_dec (targets c E) n.
Proof.
  intros Hc. unfold pending, targets.
  induction E as [|[u m] tl IH]; simpl; [reflexivity|].
  assert (Hmem : str_in u (res ++ [c]) = str_in u res || String.eqb c u).
  { unfold str_in. rewrite existsb_app. simpl. rewrite orb_false_r.
    now rewrite (String.eqb_sym u c). }
  rewrite Hmem.
  destruct (String.eqb_spec c u) as [->|Hne].
  - apply str_in_false_iff in Hc. rewrite Hc. simpl.
    rewrite andb_false_r. simpl.
    destruct (String.eqb_spec n m) as [->|Hnm]; simpl.
    + destruct (string_dec m m); [|congruence]. lia.
    + destruct (string_dec m n); [congruence|]. lia.
  - rewrite orb_false_r.
    destruct (String.eqb n m && negb (str_in u res)); simpl; lia.
Qed.

Lemma visit_spec deps :
  forall d q, exists new,
    snd (visit deps d q) = q ++ new /\
    (forall v, fst (visit deps d q) v
               = (d v - Z.of_nat (count_occ string_dec deps v))%Z) /\
    NoDup new /\
    (forall v, In v new <->
               (0 < d v /\ d v <= Z.of_nat (count_occ string_dec deps v))%Z).
Proof.
  induction deps as [|dep tl IH]; intros d q.
  - exists []. simpl. rewrite app_nil_r.
    split; [reflexivity|]. split; [intros; lia|]. split; [constructor|].
    intros v. split; [intros []|lia].
  - simpl. set (d1 := upd d dep (d dep - 1)%Z).
    assert (Hd1 : d1 dep = (d dep - 1)%Z).
    { unfold d1, upd. now rewrite String.eqb_refl. }
    assert (Hd1' : forall v, v <> dep -> d1 v = d v).
    { intros v Hv. unfold d1, upd. destruct (String.eqb_spec v dep); congruence. }
    destruct (Z.eqb_spec (d1 dep) 0) as [Hz|Hz].
    + destruct (IH d1 (q ++ [dep])) as (new & Hq & Hd & Hnd & Hin).
      exists (dep :: new). rewrite Hq, <- app_assoc. simpl.
      split; [reflexivity|]. split; [|split].
      * intros v. rewrite Hd. destruct (string_dec dep v) as [<-|Hne].
        -- rewrite Hd1. lia.
        -- rewrite Hd1' by congruence. lia.
      * constructor; [|assumption]. rewrite Hin. lia.
      * intros v. simpl. rewrite Hin. destruct (string_dec dep v) as [<-|Hne].
        -- split; [intros _|auto]. lia.
        -- rewrite Hd1' by congruence. split; [intros [?|?]; [congruence|assumption]|auto].
    + destruct (IH d1 q) as (new & Hq & Hd & Hnd & Hin).
      exists new. split; [assumption|]. split; [|split; [assumption|]].
      * intros v. rewrite Hd. destruct (string_dec dep v) as [<-|Hne].
        -- rewrite Hd1. lia.
        -- rewrite Hd1' by congruence. lia.
      * intros v. rewrite Hin. destruct (string_dec dep v) as [<-|Hne].
        -- rewrite Hd1. lia.
        -- rewrite Hd1' by congruence. lia.
Qed.

End GraphFacts.

Section Pigeonhole.
Local Open Scope list_scope.
Variable R : string -> string -> Prop.

(** A list in which every element is [R]-related to its successor. *)
Inductive chain : list string -> Prop :=
| chain_one x : chain [x]
| chain_cons x y l : R x y -> chain (y :: l) -> chain (x :: y :: l).

Lemma chain_suffix l1 l2 : l2 <> [] -> chain (l1 ++ l2) -> chain l2.
Proof.
  intros Hne. induction l1 as [|a l1 IH]; simpl; intros H; [assumption|].
  apply IH. inversion H as [x Hx | x y l Hxy Hc Hx]; subst.
  - destruct l1, l2; simpl in *; congruence.
  - assumption.
Qed.

Lemma chain_prefix l1 l2 : l1 <> [] -> chain (l1 ++ l2) -> chain l1.
Proof.
  induction l1 as [|a l1 IH]; intros Hne H; [congruence|].
  destruct l1 as [|b l1]; [constructor|].
  simpl in H. inversion H; subst. constructor; [assumption|].
  apply IH; [discriminate|assumption].
Qed.

Lemma chain_reach x l y : chain (x :: l ++ [y]) -> clos_trans string R x y.
Proof.
  revert x. induction l as [|a l IH]; intros x H; simpl in H.
  - inversion H; subst. now apply t_step.
  - inversion H; subst. eapply t_trans; [apply t_step; eassumption|]. now apply IH.
Qed.

Lemma string_eq_decidable : ListDec.decidable_eq string.
Proof. intros x y. destruct (string_dec x y); [left|right]; assumption. Qed.

(** If every member of a finite set has an [R]-predecessor in the
    set, some member reaches itself. *)
Lemma closed_set_has_cycle (M : list string) v0 :
  In v0 M ->
  (forall v, In v M -> exists u, In u M /\ R u v) ->
  exists x, clos_trans string R x x.
Proof.
  intros Hv0 Hpred.
  assert (Hchain : forall k, exists l,
             List.length l = S k /\ chain l /\ incl l M).
  { induction k as [|k (l & Hlen & Hc & Hincl)].
    - exists [v0]. split; [reflexivity|]. split; [constructor|].
      intros x [<-|[]]. assumption.
    - destruct l as [|h tl]; [discriminate|].
      destruct (Hpred h (Hincl h (or_introl eq_refl))) as (u & Hu & Huh).
      exists (u :: h :: tl). split; [simpl in *; lia|]. split.
      + now constructor.
      + intros x [<-|Hx]; [assumption|now apply Hincl]. }
  destruct (Hchain (List.length M)) as (l & Hlen & Hc & Hincl).
  assert (Hdup : ~ NoDup l).
  { intros Hnd. pose proof (NoDup_incl_length Hnd Hincl). lia. }
  apply (ListDec.not_NoDup string_eq_decidable) in Hdup
    as (a & l1 & l2 & l3 & ->).
  exists a. apply chain_suffix in Hc; [|discriminate].
  apply (chain_reach a l2 a).
  apply (chain_prefix (a :: l2 ++ [a]) l3); [discriminate|].
  simpl. now rewrite <- app_assoc.
Qed.

End Pigeonhole.

Section TopoSort.
Local Open Scope list_scope.

Variable enum : list string -> list string.
Hypothesis Henum : enum_ok enum.
Variable s : Scenario.t.

Let ids := all_ids s.
Let E := edges s.
Let dss := Dict.keys (Scenario.data_sources s).
Let graph := fst (build_graph ids (Scenario.nodes s) (fun _ => []) (fun _ => 0%Z)).
Let in_degree :=
  reset_sources dss (snd (build_graph ids (Scenario.nodes s) (fun _ => []) (fun _ => 0%Z))).

Lemma graph_targets u : graph u = targets u E.
Proof.
  unfold graph. now destruct (build_graph_spec ids (Scenario.nodes s) (fun _ => []) (fun _ => 0%Z)) as [-> _].
Qed.

Lemma in_degree_spec n :
  in_degree n = if str_in n dss then 0%Z else Z.of_nat (count_into n E).
Proof.
  unfold in_degree. rewrite reset_sources_spec.
  destruct (build_graph_spec ids (Scenario.nodes s) (fun _ => []) (fun _ => 0%Z)) as [_ ->].
  reflexivity.
Qed.

Lemma edges_iff u n : In (u, n) E <-> depends_on s u n.
Proof.
  unfold E, edges, edges_of, depends_on. rewrite in_flat_map. split.
  - intros ([k node] & Hkv & H). simpl in H.
    apply node_edges_in in H as (-> & Hu & i & Hi & Hc). eauto 8.
  - intros (node & i & Hn & Hi & Hc & Hu). exists (n, node). split; [assumption|].
    simpl. apply node_edges_in. eauto.
Qed.

Lemma edge_ids u n : In (u, n) E -> In u ids /\ In n ids.
Proof.
  intros H. apply edges_iff in H as (node & i & Hn & Hi & Hc & Hu).
  split; [assumption|]. unfold ids, all_ids. apply in_or_app. right.
  unfold Dict.keys. change n with (fst (n, node)). now apply in_map.
Qed.

Lemma in_targets u n : In n (targets u E) <-> In (u, n) E.
Proof.
  unfold targets. rewrite in_map_iff. split.
  - intros ([u' n'] & <- & H). apply filter_In in H as [H Heq].
    simpl in *. apply String.eqb_eq in Heq. now subst.
  - intros H. exists (u, n). split; [reflexivity|]. apply filter_In.
    split; [assumption|apply String.eqb_refl].
Qed.

(** The invariant of the [while queue] loop. *)
Record kinv (d : string -> Z) (queue result : list string) : Prop := {
  k_nodup : NoDup (result ++ queue);
  k_ids : forall v, In v (result ++ queue) -> In v ids;
  k_deg : forall v, In v ids -> (In v (result ++ queue) <-> (d v <= 0)%Z);
  k_src : forall v, In v dss -> (d v <= 0)%Z;
  k_pend : forall n, ~ In n dss -> d n = Z.of_nat (pending result n E);
  k_ord : forall l1 n l2, result = l1 ++ n :: l2 -> ~ In n dss ->
                          forall u, In (u, n) E -> In u l1
}.

Lemma kinv_init :
  kinv in_degree (filter (fun v => (in_degree v =? 0)%Z) (enum ids)) [].
Proof.
  destruct (Henum ids) as [Hnd Hmem].
  assert (Hnonneg : forall v, (0 <= in_degree v)%Z).
  { intros v. rewrite in_degree_spec. destruct (str_in v dss); lia. }
  constructor; simpl.
  - now apply NoDup_filter.
  - intros v Hv. apply filter_In in Hv as [Hv _]. now apply Hmem.
  - intros v Hv. rewrite filter_In, Hmem, Z.eqb_eq.
    pose proof (Hnonneg v). intuition lia.
  - intros v Hv. rewrite in_degree_spec. apply str_in_iff in Hv. now rewrite Hv.
  - intros n Hn. rewrite in_degree_spec. apply str_in_false_iff in Hn. rewrite Hn.
    unfold pending, count_into. f_equal. f_equal. apply filter_ext.
    intros e. simpl. now rewrite andb_true_r.
  - intros l1 n l2 H. destruct l1; discriminate.
Qed.

Lemma kinv_step d c q result :
  kinv d (c :: q) result ->
  kinv (fst (visit (graph c) d q)) (snd (visit (graph c) d q)) (result ++ [c]).
Proof.
  intros [Hnd Hids Hdeg Hsrc Hpend Hord].
  destruct (visit_spec (graph c) d q) as (new & -> & Hd & Hnew & Hin).
  assert (Hnew_ids : forall v, In v new -> In v ids).
  { intros v Hv. apply Hin in Hv as [Hpos Hle].
    assert (Hc : In v (graph c)).
    { apply (count_occ_In string_dec). lia. }
    rewrite graph_targets in Hc. apply in_targets in Hc.
    now apply edge_ids in Hc. }
  assert (Hshape : (result ++ [c]) ++ q ++ new = (result ++ c :: q) ++ new).
  { now rewrite <- !app_assoc. }
  assert (Hc_res : ~ In c result).
  { intros Hc. apply NoDup_remove_2 in Hnd. apply Hnd. apply in_or_app. now left. }
  constructor.
  - rewrite Hshape. apply NoDup_app; [assumption|assumption|].
    intros v Hold Hv. apply Hin in Hv as [Hpos _].
    apply Hdeg in Hold; [lia|now apply Hids].
  - rewrite Hshape. intros v Hv. apply in_app_or in Hv as [Hv|Hv]; auto.
  - rewrite Hshape. intros v Hv. rewrite Hd, in_app_iff, Hin, (Hdeg v Hv). lia.
  - intros v Hv. rewrite Hd. specialize (Hsrc v Hv). lia.
  - intros n Hn. rewrite Hd, (Hpend n Hn), graph_targets.
    rewrite (pending_snoc result c n E Hc_res). lia.
  - intros l1 n l2 Hdec Hn u Hu.
    apply snoc_decomp in Hdec as [(-> & -> & ->) | (l2' & -> & ->)].
    + assert (Hcq : In c (result ++ c :: q)) by (apply in_or_app; right; now left).
      pose proof (proj1 (Hdeg c (Hids c Hcq)) Hcq) as Hle.
      rewrite (Hpend c Hn) in Hle.
      assert (Hz : pending result c E = 0) by lia.
      pose proof (filter_length_zero _ _ Hz (u, c) Hu) as Hf. simpl in Hf.
      rewrite String.eqb_refl in Hf. simpl in Hf.
      apply negb_false_iff, str_in_iff in Hf. exact Hf.
    + eapply Hord; eauto.
Qed.

Lemma kinv_bound d q result :
  kinv d q result -> List.length result + List.length q <= List.length (enum ids).
Proof.
  intros [Hnd Hids _ _ _ _]. rewrite <- length_app.
  apply NoDup_incl_length; [assumption|].
  intros v Hv. apply (proj2 (Henum ids)). auto.
Qed.

(** The loop empties the queue within the fuel it is given. *)
Lemma kahn_spec fuel :
  forall d q result,
    kinv d q result ->
    List.length (enum ids) <= fuel + List.length result ->
    exists res d', kahn fuel graph d q result = Some res /\ kinv d' [] res.
Proof.
  induction fuel as [|fuel IH]; intros d q result Hinv Hfuel.
  - destruct q as [|c q]; [exists result, d; now split|].
    pose proof (kinv_bound _ _ _ Hinv). simpl in *. lia.
  - destruct q as [|c q]; [exists result, d; now split|].
    simpl. pose proof (kinv_step _ _ _ _ Hinv) as Hstep.
    destruct (visit (graph c) d q) as [d' q'']. simpl in Hstep.
    apply IH; [assumption|]. rewrite length_app. simpl. lia.
Qed.

(** Nothing is left over when the pure dependencies have no cycle. *)
Lemma kinv_complete d res :
  kinv d [] res -> acyclic (pure_dep s) -> forall v, In v ids -> In v res.
Proof.
  intros [Hnd Hids Hdeg Hsrc Hpend Hord] Hacyc v Hv.
  rewrite app_nil_r in *.
  destruct (in_dec string_dec v res) as [|Hmiss]; [assumption|exfalso].
  set (M := filter (fun x => negb (str_in x res)) ids).
  assert (HM : forall x, In x M <-> In x ids /\ ~ In x res).
  { intros x. unfold M. rewrite filter_In, negb_true_iff, str_in_false_iff. tauto. }
  destruct (closed_set_has_cycle (pure_dep s) M v) as (x & Hx).
  - apply HM. auto.
  - intros w Hw. apply HM in Hw as [Hw Hwres].
    assert (Hpos : (0 < d w)%Z).
    { destruct (Z_le_gt_dec (d w) 0) as [Hle|]; [|lia].
      apply (Hdeg w Hw) in Hle. contradiction. }
    assert (Hwds : ~ In w dss).
    { intros Hds. specialize (Hsrc w Hds). lia. }
    rewrite (Hpend w Hwds) in Hpos.
    assert (Hp : 0 < pending res w E) by lia.
    unfold pending in Hp. apply filter_length_pos in Hp as ([u n] & Hin & Hf).
    simpl in Hf. apply andb_true_iff in Hf as [Hn Hu].
    apply String.eqb_eq in Hn. subst n.
    apply negb_true_iff, str_in_false_iff in Hu.
    exists u. split.
    + apply HM. split; [now apply edge_ids in Hin|assumption].
    + split; [now apply edges_iff|assumption].
  - exact (Hacyc x Hx).
Qed.

(** The sort returns, and returns every vertex exactly once, whatever
    the graph. *)
Lemma topological_sort_total :
  exists result,
    _topological_sort enum s = Some result /\
    NoDup result /\ forall v, In v result <-> In v (all_ids s).
Proof.
  unfold _topological_sort; cbv zeta; fold ids.
  rewrite (surjective_pairing
             (build_graph ids (Scenario.nodes s) (fun _ => []) (fun _ => 0%Z))).
  fold graph. fold dss. fold in_degree.
  destruct (kahn_spec (S (List.length (enum ids))) _ _ _ kinv_init ltac:(simpl; lia))
    as (res & d' & -> & Hinv).
  pose proof Hinv as [Hnd Hids _ _ _ _]. rewrite app_nil_r in *.
  destruct (Henum ids) as [Hend Hemem].
  destruct (Nat.ltb_spec (List.length res) (List.length (enum ids))) as [Hlt|Hge].
  - set (missing := filter (fun x => negb (str_in x res)) ids).
    destruct (Henum missing) as [Hmnd Hmmem].
    assert (HM : forall x, In x missing <-> In x ids /\ ~ In x res).
    { intros x. unfold missing. rewrite filter_In, negb_true_iff, str_in_false_iff. tauto. }
    eexists. split; [reflexivity|]. split.
    + apply NoDup_app; [assumption|assumption|].
      intros a Ha Hm. apply Hmmem, HM in Hm. tauto.
    + intros v. rewrite in_app_iff, Hmmem, HM.
      destruct (in_dec string_dec v res); intuition.
  - eexists. split; [reflexivity|]. split; [assumption|].
    intros v. split; [apply Hids|].
    intros Hv. apply (NoDup_length_incl Hnd (l' := enum ids)); [lia| |now apply Hemem].
    intros x Hx. apply Hemem. auto.
Qed.

(** With no cycle among the pure dependencies the sorted prefix is the
    whole result and respects every dependency. *)
Lemma topological_sort_sorted :
  acyclic (pure_dep s) ->
  exists result,
    _topological_sort enum s = Some result /\
    NoDup result /\ (forall v, In v result <-> In v (all_ids s)) /\
    forall u n, clos_trans string (pure_dep s) u n -> before u n result.
Proof.
  intros Hacyc. unfold _topological_sort; cbv zeta; fold ids.
  rewrite (surjective_pairing
             (build_graph ids (Scenario.nodes s) (fun _ => []) (fun _ => 0%Z))).
  fold graph. fold dss. fold in_degree.
  destruct (kahn_spec (S (List.length (enum ids))) _ _ _ kinv_init ltac:(simpl; lia))
    as (res & d' & -> & Hinv).
  pose proof (kinv_complete _ _ Hinv Hacyc) as Hall.
  pose proof Hinv as [Hnd Hids _ _ _ Hord]. rewrite app_nil_r in *.
  destruct (Henum ids) as [Hend Hemem].
  assert (Hlen : List.length (enum ids) <= List.length res).
  { apply NoDup_incl_length; [assumption|]. intros x Hx. apply Hall. now apply Hemem. }
  destruct (Nat.ltb_spec (List.length res) (List.length (enum ids))) as [Hlt|_]; [lia|].
  exists res. split; [reflexivity|]. split; [assumption|].
  split; [intros v; split; auto|].
  assert (Hstrong : forall u n, clos_trans string (pure_dep s) u n ->
                     forall l1 l2, res = l1 ++ n :: l2 -> In u l1).
  { intros u n H. induction H as [u n [Hdep Hpure] | u m n _ IH1 _ IH2];
      intros l1 l2 Hdec.
    - eapply Hord; eauto. now apply edges_iff.
    - pose proof (IH2 l1 l2 Hdec) as Hm.
      apply in_split in Hm as (a & b & ->).
      assert (In u a).
      { apply (IH1 a (b ++ n :: l2)). rewrite Hdec, <- app_assoc. reflexivity. }
      apply in_or_app. now left. }
  intros u n H.
  assert (Hn : In n res).
  { apply Hall. apply clos_trans_tn1 in H.
    destruct H as [n [Hdep _] | m n [Hdep _] _];
      apply edges_iff, edge_ids in Hdep; tauto. }
  apply in_split in Hn as (l1 & l2 & Hdec).
  exists l1, l2. split; [assumption|]. eapply Hstrong; eauto.
Qed.

End TopoSort.

Section EnumFacts.
Local Open Scope list_scope.

Lemma nodup_order_ok : enum_ok nodup_order.
Proof.
  intros l. split; [apply NoDup_nodup|]. intros x. apply nodup_In.
Qed.

Lemma rank_acyclic (R : string -> string -> Prop) (rank : string -> nat) :
  (forall u n, R u n -> rank u < rank n) -> acyclic R.
Proof.
  intros Hrank v Hv.
  assert (H : forall a b, clos_trans string R a b -> rank a < rank b).
  { intros a b Hab. induction Hab; [auto|lia]. }
  specialize (H v v Hv). lia.
Qed.

Variable enum : list string -> list string.
Hypothesis Henum : enum_ok enum.

Lemma enum_perm l : NoDup l -> Permutation l (enum l).
Proof.
  intros Hl. destruct (Henum l) as [Hnd Hmem].
  apply NoDup_Permutation; [assumption|assumption|].
  intros x. symmetry. apply Hmem.
Qed.

Lemma enum_two a b : a <> b -> enum [a; b] = [a; b] \/ enum [a; b] = [b; a].
Proof.
  intros Hab. apply Permutation_length_2_inv, enum_perm.
  constructor; [intros [H|[]]; congruence|]. constructor; [intros []|constructor].
Qed.

Lemma filter_enum_single (f : string -> bool) l c :
  In c l -> f c = true -> (forall x, In x l -> f x = true -> x = c) ->
  filter f (enum l) = [c].
Proof.
  intros Hc Hfc Huniq. destruct (Henum l) as [Hnd Hmem].
  apply Permutation_length_1_inv, NoDup_Permutation.
  - constructor; [intros []|constructor].
  - now apply NoDup_filter.
  - intros x. rewrite filter_In, Hmem. split.
    + intros [<-|[]]. auto.
    + intros [Hx Hfx]. left. symmetry. auto.
Qed.

End EnumFacts.

(** C1 (as stated, refuted): a node whose id is also the id of a data
    source is given in-degree zero with the data sources, so it can be
    emitted before the node it reads although the graph has no cycle. *)
Lemma topological_sort_overlap_counterexample :
  enum_ok nodup_order /\
  acyclic (depends_on overlap_scenario) /\
  depends_on overlap_scenario "Y" "X" /\
  _topological_sort nodup_order overlap_scenario = Some ["X"; "Y"] /\
  ~ before "Y" "X" ["X"; "Y"].
Proof.
  assert (Hdep : forall u n, depends_on overlap_scenario u n -> u = "Y" /\ n = "X").
  { intros u n H. apply edges_iff in H. vm_compute in H.
    destruct H as [H|[]]. now inversion H. }
  split; [apply nodup_order_ok|]. split; [|split; [|split]].
  - apply (rank_acyclic _ (fun x => if String.eqb x "Y" then 0 else 1)).
    intros u n H. apply Hdep in H as [-> ->]. vm_compute. lia.
  - apply edges_iff. vm_compute. now left.
  - vm_compute. reflexivity.
  - intros (l1 & l2 & Hdec & Hin).
    destruct l1 as [|a l1]; [contradiction|].
    inversion Hdec; subst. destruct l1 as [|b l1].
    + destruct Hin as [H|[]]. discriminate.
    + inversion H1; subst. destruct l1; discriminate.
Qed.

Lemma separate_ids_pure_dep s u n :
  separate_ids s -> depends_on s u n -> pure_dep s u n.
Proof.
  intros Hsep H. split; [exact H|].
  destruct H as (node & input_id & Hn & _). apply Hsep.
  unfold Dict.keys. apply in_map_iff. now exists (n, node).
Qed.

Lemma separate_ids_chain s u n :
  separate_ids s ->
  clos_trans string (depends_on s) u n -> clos_trans string (pure_dep s) u n.
Proof.
  intros Hsep H. induction H as [u n H|u v n _ IH1 _ IH2].
  - apply t_step. now apply separate_ids_pure_dep.
  - now apply t_trans with (y := v).
Qed.

Lemma pure_dep_chain s u n :
  clos_trans string (pure_dep s) u n -> clos_trans string (depends_on s) u n.
Proof.
  intros H. induction H as [u n [H _]|u v n _ IH1 _ IH2].
  - now apply t_step.
  - now apply t_trans with (y := v).
Qed.

(** C1 (amended): for every scenario and every enumeration of its sets,
    the topological sort returns a list holding every data-source id and
    node id exactly once, whether or not the graph has a cycle.  Call an
    edge from [u] to [n] counted when the node [n] lists an input whose
    cleaned form is the vertex [u] and the id of [n] is not also the id
    of a data source.  When the counted edges have no cycle, [n] comes
    strictly after [u] for every chain of counted edges from [u] to [n].
    In particular, in a scenario where no node has the id of a data
    source and whose dependency graph has no cycle, every node comes
    strictly after everything it depends on, directly or transitively,
    after cleaning. *)
Theorem topological_sort_correct (enum : list string -> list string) (s : Scenario.t) :
  enum_ok enum ->
  exists result,
    _topological_sort enum s = Some result /\
    NoDup result /\
    (forall v, In v result <-> In v (all_ids s)) /\
    (acyclic (pure_dep s) ->
     forall u n, clos_trans string (pure_dep s) u n -> before u n result) /\
    (separate_ids s -> acyclic (depends_on s) ->
     forall u n, clos_trans string (depends_on s) u n -> before u n result).
Proof.
  intros Henum.
  destruct (topological_sort_total enum Henum s) as (result & Hres & Hnd & Hmem).
  exists result.
  assert (Hpure : acyclic (pure_dep s) ->
                  forall u n, clos_trans string (pure_dep s) u n -> before u n result).
  { intros Hacyc u n Hun.
    destruct (topological_sort_sorted enum Henum s Hacyc) as (r' & Hres' & _ & _ & Hord).
    rewrite Hres in Hres'. inversion Hres'; subst. now apply Hord. }
  repeat split; try assumption; try apply Hmem.
  intros Hsep Hacyc u n Hun. apply Hpure.
  - intros v Hv. apply (Hacyc v). now apply pure_dep_chain.
  - now apply separate_ids_chain.
Qed.

Lemma dag_scenario_depends u n :
  depends_on dag_scenario u n ->
  (u = "P" /\ n = "Q") \/ (u = "T" /\ n = "Q") \/ (u = "T" /\ n = "P").
Proof.
  intros H. apply edges_iff in H. vm_compute in H.
  destruct H as [H|[H|[H|[]]]]; inversion H; subst; auto.
Qed.

Lemma dag_scenario_acyclic : acyclic (depends_on dag_scenario).
Proof.
  apply (rank_acyclic _ (fun x => if String.eqb x "T" then 0
                                  else if String.eqb x "P" then 1 else 2)).
  intros u n H. apply dag_scenario_depends in H as [[-> ->]|[[-> ->]|[-> ->]]];
    vm_compute; lia.
Qed.

Lemma dag_scenario_separate : separate_ids dag_scenario.
Proof.
  intros n Hn Hd. vm_compute in Hn, Hd.
  destruct Hd as [<-|[]]. destruct Hn as [H|[H|[]]]; discriminate.
Qed.

Lemma topological_sort_correct_witness :
  exists result,
    _topological_sort nodup_order dag_scenario = Some result /\
    before "T" "Q" result.
Proof.
  destruct (topological_sort_correct nodup_order dag_scenario nodup_order_ok)
    as (result & Hres & _ & _ & _ & Hord).
  exists result. split; [exact Hres|].
  apply (Hord dag_scenario_separate dag_scenario_acyclic).
  apply t_trans with (y := "P"); apply t_step; apply edges_iff; vm_compute.
  - right. right. now left.
  - now left.
Defined.

(** The limit of the order: a node whose id is also the id of a data
    source is emitted with the data sources, so what reads it can come
    before what it reads.  Here [N] reads [M], [M] reads [U], the graph
    has no cycle and [N] is no data source, and [N] comes before [U]. *)
Lemma topological_sort_chain_example :
  acyclic (depends_on chain_scenario) /\
  clos_trans string (depends_on chain_scenario) "U" "N" /\
  ~ In "N" (Dict.keys (Scenario.data_sources chain_scenario)) /\
  _topological_sort nodup_order chain_scenario = Some ["M"; "W"; "N"; "U"] /\
  ~ before "U" "N" ["M"; "W"; "N"; "U"].
Proof.
  assert (Hdep : forall u n, depends_on chain_scenario u n ->
                             (u = "U" /\ n = "M") \/ (u = "W" /\ n = "U")
                             \/ (u = "M" /\ n = "N")).
  { intros u n H. apply edges_iff in H. vm_compute in H.
    destruct H as [H|[H|[H|[]]]]; inversion H; subst; auto. }
  split; [|split; [|split; [|split]]].
  - apply (rank_acyclic _ (fun x => if String.eqb x "W" then 0
                                    else if String.eqb x "U" then 1
                                    else if String.eqb x "M" then 2 else 3)).
    intros u n H. apply Hdep in H as [[-> ->]|[[-> ->]|[-> ->]]]; vm_compute; lia.
  - apply t_trans with (y := "M"); apply t_step; apply edges_iff; vm_compute.
    + now left.
    + right. right. now left.
  - vm_compute. intros [H|[]]. discriminate.
  - vm_compute. reflexivity.
  - intros (l1 & l2 & Hdec & Hin).
    destruct l1 as [|a [|b [|c [|e l1]]]]; simpl in Hdec; inversion Hdec; subst;
      simpl in Hin; try tauto.
    + destruct Hin as [H|[H|[]]]; discriminate.
    + destruct l1; discriminate.
Qed.

(** ** Terminal node *)

(** C3 (the code at the failing input): two nodes read each other
    through the prefixed references '#/0/B' and '#/0/A' and a third node
    is read by nobody.  Whatever the iteration order of the sets, the
    sort puts the free node first and the two others after it, and the
    terminal-node search, which strips only the leading '#' characters,
    takes neither reference for a reference: it returns one of the two
    nodes of the cycle, where the described search returns the free
    node. *)
Theorem find_final_node_prefixed_reference (enum : list string -> list string) :
  enum_ok enum ->
  exists ordered final,
    _topological_sort enum cycle_scenario = Some ordered /\
    _find_final_node cycle_scenario ordered = Some final /\
    (final = "A" \/ final = "B") /\
    referenced_by_other cycle_scenario final = true /\
    described_final_node cycle_scenario ordered = Some "C".
Proof.
  intros Henum.
  assert (Hsort : _topological_sort enum cycle_scenario
                  = Some ("C" :: enum ["A"; "B"])%list).
  { unfold _topological_sort. cbv zeta.
    rewrite (surjective_pairing (build_graph _ _ _ _)).
    set (ids := all_ids cycle_scenario).
    assert (Hids : ids = ["A"; "B"; "C"]) by reflexivity.
    assert (Hlen : List.length (enum ids) = 3).
    { rewrite <- (Permutation_length (enum_perm enum Henum ids ltac:(rewrite Hids; repeat constructor; simpl; intuition discriminate))).
      now rewrite Hids. }
    rewrite (filter_enum_single enum Henum _ ids "C").
    - rewrite Hlen. vm_compute. reflexivity.
    - rewrite Hids. simpl. tauto.
    - vm_compute. reflexivity.
    - rewrite Hids. intros x [<-|[<-|[<-|[]]]]; vm_compute; congruence. }
  exists ("C" :: enum ["A"; "B"])%list.
  destruct (enum_two enum Henum "A" "B" ltac:(discriminate)) as [He|He];
    rewrite He in *.
  - exists "B". split; [assumption|]. vm_compute. auto.
  - exists "A". split; [assumption|]. vm_compute. auto.
Qed.

Lemma find_final_node_prefixed_reference_witness :
  exists ordered final,
    _topological_sort nodup_order cycle_scenario = Some ordered /\
    _find_final_node cycle_scenario ordered = Some final /\
    (final = "A" \/ final = "B") /\
    referenced_by_other cycle_scenario final = true /\
    described_final_node cycle_scenario ordered = Some "C".
Proof.
  apply (find_final_node_prefixed_reference nodup_order nodup_order_ok).
Defined.

(** ** Literal type inference *)

(** Every literal made of digits only is typed as a number, whatever its
    length: the date test is never reached for it. *)
Lemma guess_literal_type_all_digits (value : string) :
  PyStr.isdigit (PyStr.strip value) = true ->
  guess_literal_type value
  = Some (DataTypeSpec.mk NUMBER
            (Some (Z.min (Z.of_nat (String.length (PyStr.strip value))) 38)) None).
Proof.
  intros H. unfold guess_literal_type.
  destruct (PyStr.strip value) eqn:E; [discriminate|]. now rewrite H.
Qed.

(** C5 (the code at the failing input): the eight-digit literal
    '20240101' matches the date pattern, but the all-digits test comes
    first and types it as a number of length 8; an ISO-dated literal is
    typed as a date and any other text as text. *)
Theorem guess_literal_type_yyyymmdd_is_number :
  is_some (Re.fullmatch false re_yyyymmdd "20240101") = true /\
  guess_literal_type "20240101" = Some (DataTypeSpec.mk NUMBER (Some 8%Z) None) /\
  guess_literal_type "2024-01-01" = Some (DataTypeSpec.mk DATE None None) /\
  guess_literal_type "EUR" = Some (DataTypeSpec.mk VARCHAR (Some 10%Z) None).
Proof. repeat split; vm_compute; reflexivity. Qed.

(** ** Structural validation *)

Section StructureFacts.
Import ValidationResult.

Lemma rstrip_empty_all_space t :
  nonempty (PyStr.rstrip t) = false -> PyStr.all_chars PyStr.isspace t = true.
Proof.
  induction t as [|c t IH]; simpl; [reflexivity|].
  destruct (PyStr.rstrip t) eqn:E; [|discriminate].
  destruct (PyStr.isspace c) eqn:Ec; [|discriminate].
  intros _. simpl. apply IH. reflexivity.
Qed.

Lemma lstrip_all_space_count x s :
  PyStr.isspace x = false ->
  PyStr.all_chars PyStr.isspace (PyStr.lstrip s) = true -> PyStr.count_char x s = 0.
Proof.
  intros Hx. induction s as [|c s IH]; simpl; [reflexivity|].
  destruct (PyStr.isspace c) eqn:Ec.
  - intros Hs. rewrite (IH Hs).
    destruct (Ascii.eqb_spec c x); [subst; congruence|reflexivity].
  - simpl. rewrite Ec. discriminate.
Qed.

(** A blank text holds no character that is not white space. *)
Lemma blank_count x s :
  PyStr.isspace x = false -> nonempty (PyStr.strip s) = false ->
  PyStr.count_char x s = 0.
Proof.
  intros Hx Hs. apply lstrip_all_space_count; [assumption|].
  now apply rstrip_empty_all_space.
Qed.

Lemma has_code_snoc c l i :
  has_code c (snoc l i) <-> has_code c l \/ ValidationIssue.code i = c.
Proof.
  unfold has_code, snoc. split.
  - intros (j & Hj & Hc). apply in_app_or in Hj as [Hj|[<-|[]]]; eauto.
  - intros [(j & Hj & Hc)|Hc].
    + exists j. split; [apply in_or_app; now left|assumption].
    + exists i. split; [apply in_or_app; right; now left|assumption].
Qed.

Lemma has_code_nil c : ~ has_code c [].
Proof. intros (i & [] & _). Qed.

(** Adding an error under another code does not change whether a code
    is present. *)
Lemma add_error_other c message code line r :
  code <> c ->
  (has_code c (errors (add_error message code line r)) <-> has_code c (errors r)).
Proof.
  intros Hne. unfold add_error. simpl. rewrite has_code_snoc. simpl. tauto.
Qed.

Lemma add_warning_errors message code r :
  errors (add_warning message code r) = errors r.
Proof. reflexivity. Qed.

Lemma when_add_error_other c b message code line r :
  code <> c ->
  (has_code c (errors (when b (add_error message code line) r)) <-> has_code c (errors r)).
Proof. intros Hne. destruct b; simpl; [now apply add_error_other|tauto]. Qed.

Lemma when_add_warning_errors b message code r :
  errors (when b (add_warning message code) r) = errors r.
Proof. now destruct b. Qed.

Lemma duplicate_ctes_other c names :
  c <> "DUPLICATE_CTE" ->
  forall i seen r,
    has_code c (errors (duplicate_ctes i names seen r)) <-> has_code c (errors r).
Proof.
  intros Hne. induction names as [|name tl IH]; intros i seen r; simpl; [tauto|].
  rewrite IH. apply when_add_error_other. congruence.
Qed.

End StructureFacts.

(** C10: the structural pass reports the unbalanced-parentheses error
    exactly when the '(' and the ')' characters of the whole SQL text
    differ in number, the characters inside string literals counted with
    the others; so a text whose parentheses balance outside its literals
    but which holds a lone parenthesis inside a quoted literal is
    reported. *)
Theorem unbalanced_parentheses_iff (sql : string) :
  (has_code "UNBALANCED_PARENTHESES"
     (ValidationResult.errors (validate_sql_structure sql))
   <-> PyStr.count_char "(" sql <> PyStr.count_char ")" sql)
  /\
  (PyStr.count_char "(" "SELECT '(' FROM T" <> PyStr.count_char ")" "SELECT '(' FROM T"
   /\ has_code "UNBALANCED_PARENTHESES"
        (ValidationResult.errors (validate_sql_structure "SELECT '(' FROM T"))).
Proof.
  assert (Hmain : forall s,
             has_code "UNBALANCED_PARENTHESES"
               (ValidationResult.errors (validate_sql_structure s))
             <-> PyStr.count_char "(" s <> PyStr.count_char ")" s).
  { intros s. unfold validate_sql_structure.
    destruct (negb (nonempty s) || negb (nonempty (PyStr.strip s))) eqn:Hempty.
    - (* empty or blank text: an EMPTY_SQL error only, and no parenthesis *)
      assert (Hs : nonempty (PyStr.strip s) = false).
      { destruct s; [reflexivity|]. simpl in Hempty.
        now destruct (nonempty (PyStr.strip (String a s))). }
      rewrite (blank_count "("%char s eq_refl Hs), (blank_count ")"%char s eq_refl Hs).
      split; [|congruence].
      intros H. apply add_error_other in H; [|discriminate].
      now apply has_code_nil in H.
    - cbv zeta.
      rewrite when_add_error_other by discriminate.
      destruct (PyStr.contains "WITH" (PyStr.upper s)).
      + rewrite when_add_error_other by discriminate.
        rewrite duplicate_ctes_other by discriminate.
        rewrite !when_add_warning_errors.
        destruct (Nat.eqb_spec (PyStr.count_char "(" s) (PyStr.count_char ")" s)) as [He|Hne];
          simpl.
        * rewrite when_add_error_other by discriminate.
          split; [intros H; now apply has_code_nil in H|congruence].
        * rewrite has_code_snoc. simpl.
          rewrite when_add_error_other by discriminate. tauto.
      + rewrite !when_add_warning_errors.
        destruct (Nat.eqb_spec (PyStr.count_char "(" s) (PyStr.count_char ")" s)) as [He|Hne];
          simpl.
        * rewrite when_add_error_other by discriminate.
          split; [intros H; now apply has_code_nil in H|congruence].
        * rewrite has_code_snoc. simpl.
          rewrite when_add_error_other by discriminate. tauto. }
  split; [apply Hmain|]. split.
  - vm_compute. discriminate.
  - apply Hmain. vm_compute. discriminate.
Qed.

(** ** Filters *)

(** C7: a COMPARISON predicate with [including] false and operator '='
    is rendered with the operator '<>' between its two operands, not
    wrapped in NOT (without a right operand it renders nothing), and
    negating '=' twice gives '=' again. *)
Theorem negated_equality_renders_as_inequality
        (C : Collaborators) (pred : Predicate.t) (table_alias : option string)
        (ctx ctx1 ctx2 : RenderContext.t) (right_operand : Expression.t)
        (left right : string) :
  Predicate.kind pred = PredicateKind.COMPARISON ->
  Predicate.including pred = false ->
  Predicate.operator pred = Some "=" ->
  Predicate.right pred = Some right_operand ->
  _render_expression C (Predicate.left pred) table_alias ctx = (Ok left, ctx1) ->
  _render_expression C right_operand table_alias ctx1 = (Ok right, ctx2) ->
  render_predicate C table_alias pred ctx = (Ok [left ++ " <> " ++ right], ctx2) /\
  _render_filters C [pred] table_alias ctx = (Ok (left ++ " <> " ++ right), ctx2) /\
  _negate_operator "=" = "<>" /\
  _negate_operator (_negate_operator "=") = "=".
Proof.
  intros Hkind Hincl Hop Hright Hl Hr.
  assert (Hpred : render_predicate C table_alias pred ctx
                  = (Ok [left ++ " <> " ++ right], ctx2)).
  { unfold render_predicate, bind. rewrite Hkind, Hl, Hincl, Hop, Hright. simpl.
    rewrite Hr. reflexivity. }
  split; [exact Hpred|]. split; [|split; reflexivity].
  unfold _render_filters, filter_conditions, foldM, bind.
  rewrite Hpred. reflexivity.
Qed.

Lemma negated_equality_renders_as_inequality_witness :
  _render_filters plain_collaborators [excluding_filter] (Some "t") empty_context
  = (Ok "t.STATUS <> 'X'", empty_context).
Proof.
  apply (negated_equality_renders_as_inequality
           plain_collaborators excluding_filter (Some "t")
           empty_context empty_context empty_context (literal "'X'") "t.STATUS" "'X'");
    reflexivity.
Defined.

(** Without a right operand the predicate adds no condition. *)
Lemma comparison_without_right_operand
      (C : Collaborators) (pred : Predicate.t) (table_alias : option string)
      (ctx ctx1 : RenderContext.t) (left : string) :
  Predicate.kind pred = PredicateKind.COMPARISON ->
  Predicate.right pred = None ->
  _render_expression C (Predicate.left pred) table_alias ctx = (Ok left, ctx1) ->
  render_predicate C table_alias pred ctx = (Ok [], ctx1).
Proof.
  intros Hkind Hright Hl. unfold render_predicate, bind.
  now rewrite Hkind, Hl, Hright.
Qed.

(** ** The scenario is read, never written *)

Section Frame.

Lemma preserves_ret {A} (a : A) : preserves_scenario (ret a).
Proof. intros ctx. reflexivity. Qed.

Lemma preserves_raise {A} e : preserves_scenario (@raise A e).
Proof. intros ctx. reflexivity. Qed.

Lemma preserves_diverge {A} : preserves_scenario (@diverge A).
Proof. intros ctx. reflexivity. Qed.

Lemma preserves_lift {A} (o : outcome A) : preserves_scenario (lift o).
Proof. intros ctx. reflexivity. Qed.

Lemma preserves_ask : preserves_scenario ask.
Proof. intros ctx. reflexivity. Qed.

Lemma preserves_warn msg : preserves_scenario (warn msg).
Proof. intros ctx. reflexivity. Qed.

Lemma preserves_set_alias k v : preserves_scenario (set_alias k v).
Proof. intros ctx. reflexivity. Qed.

Lemma preserves_bind {A B} (m : M A) (k : A -> M B) :
  preserves_scenario m -> (forall a, preserves_scenario (k a)) ->
  preserves_scenario (bind m k).
Proof.
  intros Hm Hk ctx. unfold bind. specialize (Hm ctx).
  destruct (m ctx) as [[a|e|] ctx']; simpl in *; try assumption.
  now rewrite Hk.
Qed.

Lemma preserves_foldM {A B} (f : B -> A -> M B) l :
  (forall b a, preserves_scenario (f b a)) ->
  forall acc, preserves_scenario (foldM f l acc).
Proof.
  intros Hf. induction l as [|x tl IH]; intros acc; simpl.
  - apply preserves_ret.
  - apply preserves_bind; auto.
Qed.

Lemma preserves_forM_ {A} (f : A -> M unit) l :
  (forall a, preserves_scenario (f a)) -> preserves_scenario (forM_ l f).
Proof.
  intros Hf. induction l as [|x tl IH]; simpl.
  - apply preserves_ret.
  - apply preserves_bind; auto.
Qed.

End Frame.

Create HintDb frame.
#[local] Hint Resolve preserves_ret preserves_raise preserves_diverge preserves_lift
  preserves_ask preserves_warn preserves_set_alias : frame.

(** Splits a computation along its binds, loops and case analyses down
    to the primitives and the functions already known to preserve the
    scenario. *)
Ltac frame :=
  repeat first
    [ progress auto with frame
    | apply preserves_bind; [|intros ?]
    | apply preserves_foldM; intros ? ?
    | apply preserves_forM_; intros ?
    | match goal with
      | |- preserves_scenario (match ?x with _ => _ end) => destruct x
      | |- preserves_scenario (if ?x then _ else _) => destruct x
      end ].

Section FrameRenderer.

Variable C : Collaborators.
Hypothesis HC : read_only C.
Variable enum : list string -> list string.

Let He := ro_expression C HC.
Let Hf := ro_formula C HC.
Let Hp := ro_projection C HC.
Let Ha := ro_aggregation C HC.
Let Hu := ro_union C HC.
Let Hr := ro_rank C HC.
Let Hc := ro_calculation C HC.

Lemma preserves_the_scenario : preserves_scenario the_scenario.
Proof. unfold the_scenario. frame. Qed.

Lemma preserves_get_cte_alias node_id : preserves_scenario (get_cte_alias node_id).
Proof. unfold get_cte_alias. frame. Qed.

Hint Resolve preserves_the_scenario preserves_get_cte_alias : frame.

Lemma preserves_render_from input_id : preserves_scenario (_render_from C input_id).
Proof. unfold _render_from. frame. Qed.

Lemma preserves_render_predicate a pred :
  preserves_scenario (render_predicate C a pred).
Proof. unfold render_predicate. frame. Qed.

Hint Resolve preserves_render_from preserves_render_predicate : frame.

Lemma preserves_render_filters filters a :
  preserves_scenario (_render_filters C filters a).
Proof. unfold _render_filters, filter_conditions. frame. Qed.

Lemma preserves_expand_columns column_map :
  forall formula, preserves_scenario (expand_columns column_map formula).
Proof.
  induction column_map as [|[col_name col_expr] tl IH]; intros formula; simpl; frame.
Qed.

Hint Resolve preserves_render_filters preserves_expand_columns : frame.

Lemma preserves_render_join node jt conds :
  preserves_scenario (_render_join C node jt conds).
Proof.
  unfold _render_join, join_condition, join_mapping, join_calculated. frame.
Qed.

Hint Resolve preserves_render_join : frame.

Lemma preserves_render_node node : preserves_scenario (_render_node C node).
Proof. unfold _render_node. frame. Qed.

Hint Resolve preserves_render_node : frame.

Lemma preserves_render_cte ctes node_id :
  preserves_scenario (render_cte C ctes node_id).
Proof. unfold render_cte. frame. Qed.

Lemma preserves_merge_validation results :
  preserves_scenario (merge_validation results).
Proof. unfold merge_validation. frame. Qed.

Lemma preserves_return_sql rw sql : preserves_scenario (return_sql rw sql).
Proof. unfold return_sql. frame. Qed.

Lemma preserves_data_source_select from_clause :
  preserves_scenario (data_source_select C from_clause).
Proof. unfold data_source_select, logical_calculated_item. frame. Qed.

Lemma preserves_assemble ctes final_select cv vn :
  preserves_scenario (assemble ctes final_select cv vn).
Proof. unfold assemble. frame. Qed.

Hint Resolve preserves_render_cte preserves_merge_validation preserves_return_sql
  preserves_data_source_select preserves_assemble : frame.

Lemma preserves_render_ordered ord cv vn rw validate :
  preserves_scenario (render_ordered C enum ord cv vn rw validate).
Proof. unfold render_ordered. frame. Qed.

Hint Resolve preserves_render_ordered : frame.


Lemma preserves_cte_loop ord ctes :
  preserves_scenario (foldM (render_cte C) ord ctes).
Proof. frame. Qed.

End FrameRenderer.

Section ReturnedWarnings.





End ReturnedWarnings.

Lemma new_context_scenario scenario so ts cl la dm hv xf cu cs ct :
  RenderContext.scenario (new_context scenario so ts cl la dm hv xf cu cs ct) = scenario.
Proof. reflexivity. Qed.


Lemma plain_collaborators_read_only : read_only plain_collaborators.
Proof. constructor; intros; simpl; frame. Qed.


(** ** A join without conditions, end to end *)

Section SmallSets.
Local Open Scope list_scope.

Variable enum : list string -> list string.
Hypothesis Henum : enum_ok enum.

Lemma enum_nil : enum [] = [].
Proof.
  destruct (Henum []) as [_ Hmem]. destruct (enum []) as [|x l]; [reflexivity|].
  destruct (proj1 (Hmem x) (or_introl eq_refl)).
Qed.

Lemma enum_nodup l : Permutation (nodup string_dec l) (enum l).
Proof.
  destruct (Henum l) as [Hnd Hmem].
  apply NoDup_Permutation; [apply NoDup_nodup|assumption|].
  intros x. rewrite nodup_In. symmetry. apply Hmem.
Qed.

Lemma perm_three (a b c : string) l :
  a <> b -> a <> c -> b <> c -> Permutation [a; b; c] l ->
  l = [a; b; c] \/ l = [a; c; b] \/ l = [b; a; c] \/
  l = [b; c; a] \/ l = [c; a; b] \/ l = [c; b; a].
Proof.
  intros Hab Hac Hbc Hp.
  pose proof (Permutation_length Hp) as Hlen.
  assert (Hnd : NoDup l).
  { eapply Permutation_NoDup; [exact Hp|].
    repeat constructor; simpl; intuition congruence. }
  assert (Hin : forall x, In x l -> x = a \/ x = b \/ x = c).
  { intros x Hx. apply (Permutation_in x (Permutation_sym Hp)) in Hx.
    simpl in Hx. intuition congruence. }
  destruct l as [|x [|y [|z [|]]]]; try discriminate.
  inversion Hnd as [|? ? Hx Hnd']; subst.
  inversion Hnd' as [|? ? Hy Hnd'']; subst. simpl in Hx, Hy.
  destruct (Hin x ltac:(simpl; auto)) as [-> | [-> | ->]];
    destruct (Hin y ltac:(simpl; auto)) as [-> | [-> | ->]];
    destruct (Hin z ltac:(simpl; auto)) as [-> | [-> | ->]];
    try (exfalso; intuition congruence); auto 10.
Qed.

Lemma filter_enum_two (f : string -> bool) l a b :
  a <> b -> In a l -> In b l -> f a = true -> f b = true ->
  (forall x, In x l -> f x = true -> x = a \/ x = b) ->
  filter f (enum l) = [a; b] \/ filter f (enum l) = [b; a].
Proof.
  intros Hab Ha Hb Hfa Hfb Honly. destruct (Henum l) as [Hnd Hmem].
  apply Permutation_length_2_inv, NoDup_Permutation.
  - repeat constructor; simpl; intuition congruence.
  - now apply NoDup_filter.
  - intros x. rewrite filter_In, Hmem. simpl. split.
    + intros [<-|[<-|[]]]; auto.
    + intros [Hx Hfx]. destruct (Honly x Hx Hfx); subst; auto.
Qed.

End SmallSets.

(** ** The validation block *)

Section ValidationBlock.

Lemma forM_warn {A} (f : A -> string) (l : list A) ctx :
  forM_ l (fun x => warn (f x)) ctx
  = (Ok tt, RenderContext.with_warnings
              (RenderContext.warnings ctx ++ map f l)%list ctx).
Proof.
  revert ctx. induction l as [|x tl IH]; intros ctx; simpl.
  - unfold ret. rewrite app_nil_r. now destruct ctx.
  - unfold bind, warn. rewrite IH. simpl. now rewrite <- app_assoc.
Qed.

(** Without an error the block appends the warnings and the info of
    the passes, pass by pass, and does nothing else. *)
Lemma merge_validation_ok all_results ctx :
  existsb ValidationResult.has_errors all_results = false ->
  merge_validation all_results ctx
  = (Ok tt, RenderContext.with_warnings
              (RenderContext.warnings ctx ++ validation_warnings all_results)%list ctx).
Proof.
  intros Hno. unfold merge_validation. rewrite Hno. clear Hno.
  revert ctx. induction all_results as [|r tl IH]; intros ctx.
  - simpl. unfold ret. rewrite app_nil_r. now destruct ctx.
  - cbn [forM_ validation_warnings flat_map]. unfold bind at 1 2.
    rewrite forM_warn. rewrite forM_warn. rewrite IH. simpl.
    now rewrite <- !app_assoc.
Qed.

(** With an error in any pass the block raises, the message listing
    every error of every pass, and leaves the context alone. *)
Lemma merge_validation_raise all_results ctx :
  existsb ValidationResult.has_errors all_results = true ->
  merge_validation all_results ctx
  = (Raise (validation_message (flat_map ValidationResult.errors all_results)), ctx).
Proof. intros Hany. unfold merge_validation. now rewrite Hany. Qed.

Variable C : Collaborators.
Variable enum : list string -> list string.

(** On the validated path the two settings of [validate] run the same
    code up to the assembled SQL; the validated run then goes through
    the validation block. *)
Lemma render_ordered_validated ord cv vn rw ctx ctes ctx1 :
  foldM (render_cte C) ord [] ctx = (Ok ctes, ctx1) ->
  validated_path (RenderContext.scenario ctx1) ord = true ->
  exists sql ctx2,
    render_ordered C enum ord cv vn rw false ctx = return_sql rw sql ctx2 /\
    render_ordered C enum ord cv vn rw true ctx
    = bind (merge_validation
              (validation_passes enum (RenderContext.scenario ctx2) sql ctx2))
           (fun _ => return_sql rw sql) ctx2.
Proof.
  intros Hloop Hpath. unfold validated_path in Hpath.
  destruct (_find_final_node (RenderContext.scenario ctx1) ord) as [final|] eqn:Hfinal;
    [|discriminate].
  apply andb_true_iff in Hpath as [Hne Hds]. apply negb_true_iff in Hds.
  destruct final as [|c final]; [discriminate|].
  unfold render_ordered, bind. rewrite Hloop.
  unfold the_scenario, bind, ask, ret. cbv beta iota. rewrite Hfinal.
  cbn [truthy negb or_else]. cbv beta iota zeta. rewrite Hds.
  unfold set_alias, warn, assemble, bind, ask, ret. cbv beta iota.
  destruct (negb (Dict.mem (String c final) (RenderContext.cte_aliases ctx1)));
    [destruct ctes|]; destruct cv; cbv beta iota;
    eexists; eexists; (split; [reflexivity|]); reflexivity.
Qed.

End ValidationBlock.

(** ** Validation errors abort the rendering *)

Lemma render_body_unfold C enum cv vn rw validate ctx :
  render_body C enum cv vn rw validate ctx
  = match _topological_sort enum (RenderContext.scenario ctx) with
    | None => (Diverge, ctx)
    | Some ordered_nodes => render_ordered C enum ordered_nodes cv vn rw validate ctx
    end.
Proof.
  unfold render_body, bind, the_scenario, ask, ret. simpl.
  now destruct (_topological_sort enum (RenderContext.scenario ctx)).
Qed.

Lemma return_sql_inv rw sql ctx r ctx' :
  return_sql rw sql ctx = (Ok r, ctx') -> ctx' = ctx /\ sql_of r = sql.
Proof.
  unfold return_sql, bind, ask, ret. intros H. injection H as <- <-.
  now destruct rw.
Qed.

(** C8: on the path of [render_scenario] that reaches the validation
    block (the terminal node is a rendered node), take the SQL and the
    context of the run without validation.  With validation enabled, if
    any of the five passes over that SQL reports an error, the call
    raises the message that joins every error of every pass, and returns
    no SQL; if no pass reports an error, the call returns the same SQL,
    and the warnings and the info of the passes are appended to the
    warnings of the context, which are the warnings returned with the
    SQL. *)
Theorem validation_errors_abort_rendering
        (C : Collaborators) (enum : list string -> list string)
        (scenario : Scenario.t)
        (schema_overrides : option (Dict.t string))
        (target_schema client language : option string)
        (database_mode : DatabaseMode)
        (hana_version : option HanaVersion)
        (xml_format : option XMLFormat)
        (create_view : bool)
        (view_name : option string)
        (currency_udf currency_schema currency_table : option string)
        (return_warnings : bool)
        (ordered : list string) (r : rendered) (ctx : RenderContext.t) :
  read_only C ->
  _topological_sort enum scenario = Some ordered ->
  validated_path scenario ordered = true ->
  render_scenario C enum scenario schema_overrides target_schema client language
                  database_mode hana_version xml_format create_view view_name
                  currency_udf currency_schema currency_table return_warnings false
  = (Ok r, ctx) ->
  let all_results := validation_passes enum scenario (sql_of r) ctx in
  let validated :=
    render_scenario C enum scenario schema_overrides target_schema client language
                    database_mode hana_version xml_format create_view view_name
                    currency_udf currency_schema currency_table return_warnings true in
  (existsb ValidationResult.has_errors all_results = true ->
   validated
   = (Raise (validation_message (flat_map ValidationResult.errors all_results)), ctx))
  /\
  (existsb ValidationResult.has_errors all_results = false ->
   let warnings :=
     List.app (RenderContext.warnings ctx) (validation_warnings all_results) in
   validated
   = (Ok (if return_warnings then SqlAndWarnings (sql_of r) warnings
          else Sql (sql_of r)),
      RenderContext.with_warnings warnings ctx)).
Proof.
  intros HC Hsort Hpath Hrun all_results validated.
  subst all_results validated. unfold render_scenario in *.
  rewrite render_body_unfold in *. rewrite new_context_scenario in *.
  rewrite Hsort in *.
  set (ctx0 := new_context _ _ _ _ _ _ _ _ _ _ _) in *.
  assert (Hsc0 : RenderContext.scenario ctx0 = scenario) by reflexivity.
  pose proof (preserves_cte_loop C HC ordered [] ctx0) as Hloop_sc.
  pose proof (preserves_render_ordered C HC enum ordered create_view view_name
                return_warnings false ctx0) as Hrun_sc.
  rewrite Hrun in Hrun_sc. change (RenderContext.scenario ctx = scenario) in Hrun_sc.
  destruct (foldM (render_cte C) ordered [] ctx0) as [[ctes|e|] ctx1] eqn:Hloop;
    try (unfold render_ordered, bind in Hrun; rewrite Hloop in Hrun; discriminate).
  change (RenderContext.scenario ctx1 = scenario) in Hloop_sc.
  destruct (render_ordered_validated C enum ordered create_view view_name
              return_warnings ctx0 ctes ctx1 Hloop) as (sql & ctx2 & Hoff & Hon).
  { now rewrite Hloop_sc. }
  rewrite Hoff in Hrun. apply return_sql_inv in Hrun as [-> Hsql].
  rewrite Hsql, Hon, Hrun_sc. unfold bind. split; intros Herr.
  - now rewrite (merge_validation_raise _ _ Herr).
  - rewrite (merge_validation_ok _ _ Herr). unfold return_sql, bind, ask, ret.
    reflexivity.
Qed.

Lemma validation_errors_abort_rendering_witness :
  fst (render_with_warnings plain_collaborators nodup_order colliding_scenario true)
  = Raise "SQL validation failed: [ERROR] DUPLICATE_CTE: Duplicate CTE name: J_1 (line 2)".
Proof.
  edestruct (validation_errors_abort_rendering
               plain_collaborators nodup_order colliding_scenario
               None None None None SNOWFLAKE None None false None None None None true
               ["T1"; "T2"; "J 1"; "j_1"])
    as [Hraise _].
  - exact plain_collaborators_read_only.
  - vm_compute. reflexivity.
  - vm_compute. reflexivity.
  - vm_compute. reflexivity.
  - unfold render_with_warnings. rewrite Hraise.
    + vm_compute. reflexivity.
    + vm_compute. reflexivity.
Defined.

(** ** A join without conditions, end to end *)

(** The validated run in terms of the run without validation, for any
    collaborators. *)
Lemma render_scenario_validated
      (C : Collaborators) (enum : list string -> list string) (scenario : Scenario.t)
      so ts cl la dm hv xf cv vn cu cs ct rw ordered ctes ctx1 r ctx :
  _topological_sort enum scenario = Some ordered ->
  foldM (render_cte C) ordered [] (new_context scenario so ts cl la dm hv xf cu cs ct)
  = (Ok ctes, ctx1) ->
  validated_path (RenderContext.scenario ctx1) ordered = true ->
  render_scenario C enum scenario so ts cl la dm hv xf cv vn cu cs ct rw false
  = (Ok r, ctx) ->
  render_scenario C enum scenario so ts cl la dm hv xf cv vn cu cs ct rw true
  = bind (merge_validation
            (validation_passes enum (RenderContext.scenario ctx) (sql_of r) ctx))
         (fun _ => return_sql rw (sql_of r)) ctx.
Proof.
  intros Hsort Hloop Hpath Hrun. unfold render_scenario in *.
  rewrite render_body_unfold in *. rewrite new_context_scenario in *.
  rewrite Hsort in *.
  destruct (render_ordered_validated C enum ordered cv vn rw _ ctes ctx1 Hloop Hpath)
    as (sql & ctx2 & Hoff & Hon).
  rewrite Hoff in Hrun. apply return_sql_inv in Hrun as [-> Hsql].
  now rewrite Hsql, Hon.
Qed.

Lemma join_scenario_sorted enum join_type :
  enum_ok enum ->
  _topological_sort enum (join_scenario_of join_type) = Some ["T1"; "T2"; "J"] \/
  _topological_sort enum (join_scenario_of join_type) = Some ["T2"; "T1"; "J"].
Proof.
  intros Henum. unfold _topological_sort. cbv zeta.
  rewrite (surjective_pairing (build_graph _ _ _ _)).
  set (ids := all_ids (join_scenario_of join_type)).
  assert (Hids : ids = ["T1"; "T2"; "J"]) by reflexivity.
  assert (Hlen : List.length (enum ids) = 3).
  { rewrite <- (Permutation_length (enum_perm enum Henum ids
       ltac:(rewrite Hids; repeat constructor; simpl; intuition discriminate))).
    now rewrite Hids. }
  destruct (filter_enum_two enum Henum
              (fun node_id =>
                 (reset_sources
                    (Dict.keys (Scenario.data_sources (join_scenario_of join_type)))
                    (snd (build_graph ids (Scenario.nodes (join_scenario_of join_type))
                            (fun _ => []) (fun _ => 0%Z))) node_id =? 0)%Z)
              ids "T1" "T2") as [Hq|Hq];
    try (rewrite Hq, Hlen; vm_compute; auto).
  - discriminate.
  - rewrite Hids. simpl. auto.
  - rewrite Hids. simpl. auto.
  - reflexivity.
  - reflexivity.
  - rewrite Hids. intros x [<-|[<-|[<-|[]]]]; vm_compute; intros; auto; discriminate.
Qed.

(** C4 (as stated, refuted): the count of warnings follows the joins
    that are rendered.  Two joins without conditions leave two warnings
    with the word, with validation off and on; and a join without
    conditions whose id is also the id of a data source is never
    rendered, so the SQL has no join and no condition 1=1, and there is
    no warning at all. *)
Lemma join_without_conditions_counterexample :
  (exists sql warnings,
      fst (render_with_warnings idle_collaborators nodup_order two_joins_scenario false)
      = Ok (SqlAndWarnings sql warnings) /\
      List.length (filter mentions_cartesian warnings) = 2) /\
  (exists sql warnings,
      fst (render_with_warnings idle_collaborators nodup_order two_joins_scenario true)
      = Ok (SqlAndWarnings sql warnings) /\
      List.length (filter mentions_cartesian warnings) = 2) /\
  fst (render_with_warnings idle_collaborators nodup_order shadowed_join_scenario false)
  = Ok (SqlAndWarnings "SELECT * FROM S.J" []) /\
  fst (render_with_warnings idle_collaborators nodup_order shadowed_join_scenario true)
  = Ok (SqlAndWarnings "SELECT * FROM S.J" []).
Proof.
  split; [|split; [|split]].
  - eexists _, _. split; vm_compute; reflexivity.
  - eexists _, _. split; vm_compute; reflexivity.
  - vm_compute. reflexivity.
  - vm_compute. reflexivity.
Qed.

Lemma join_scenario_unvalidated C enum join_type :
  enum_ok enum ->
  render_with_warnings C enum (join_scenario_of join_type) false
  = (Ok (SqlAndWarnings (join_sql_of join_type) [join_warning]),
     join_context_of join_type).
Proof.
  intros Henum. unfold render_with_warnings, render_scenario.
  rewrite render_body_unfold, new_context_scenario.
  destruct (join_scenario_sorted enum join_type Henum) as [Hs|Hs]; rewrite Hs;
    destruct join_type; vm_compute; reflexivity.
Qed.

Lemma join_scenario_validated C enum join_type :
  enum_ok enum ->
  render_with_warnings C enum (join_scenario_of join_type) true
  = bind (merge_validation
            (validation_passes enum (join_scenario_of join_type)
                               (join_sql_of join_type) (join_context_of join_type)))
         (fun _ => return_sql true (join_sql_of join_type)) (join_context_of join_type).
Proof.
  intros Henum. pose proof (join_scenario_unvalidated C enum join_type Henum) as Hoff.
  unfold render_with_warnings in *.
  change (join_scenario_of join_type)
    with (RenderContext.scenario (join_context_of join_type)) at 2.
  change (join_sql_of join_type)
    with (sql_of (SqlAndWarnings (join_sql_of join_type) [join_warning])) at 1 2.
  destruct join_type;
    (match goal with
     | |- context [join_scenario_of ?jt] =>
         destruct (join_scenario_sorted enum jt Henum) as [Hs|Hs]
     end;
     (eapply render_scenario_validated;
      [exact Hs | vm_compute; reflexivity | vm_compute; reflexivity | exact Hoff])).
Qed.

(** The names that the completeness pass and the dialect pass put in
    their sets for the SQL of the join scenario. *)
Lemma join_sql_referenced join_type :
  List.app (referenced_names re_from_ref (join_sql_of join_type))
           (referenced_names re_join_ref (join_sql_of join_type))
  = ["S"; "J"; "J"; "CONDITIONS"; "S"].
Proof. destruct join_type; vm_compute; reflexivity. Qed.

(** The two passes that iterate over a set depend on the iteration
    order only through the one set they iterate over. *)
Lemma validate_query_completeness_ext enum1 enum2 scenario sql ctx :
  enum1 (List.app (referenced_names re_from_ref sql) (referenced_names re_join_ref sql))
  = enum2 (List.app (referenced_names re_from_ref sql) (referenced_names re_join_ref sql)) ->
  validate_query_completeness enum1 scenario sql ctx
  = validate_query_completeness enum2 scenario sql ctx.
Proof. intros H. unfold validate_query_completeness. cbv zeta. now rewrite H. Qed.

Lemma validate_snowflake_specific_ext enum1 enum2 sql :
  (forall l, l = [] -> enum1 l = enum2 l) ->
  List.app
    (flat_map (context_identifiers (PyStr.upper sql)) identifier_contexts)
    (filter (fun identifier => str_in identifier SNOWFLAKE_RESERVED_KEYWORDS)
            (map (fun m => Re.group_or_empty (PyStr.upper sql) m 1)
                 (Re.finditer false re_with_cte (PyStr.upper sql)))) = [] ->
  validate_snowflake_specific enum1 sql = validate_snowflake_specific enum2 sql.
Proof.
  intros H Hnone. unfold validate_snowflake_specific. cbv zeta.
  now rewrite (H _ Hnone).
Qed.

(** With validation on, the scenario of one join compiles, and its
    warnings hold the word once in lower case and twice in any case. *)
Lemma join_scenario_validated_warnings C enum join_type :
  enum_ok enum ->
  exists warnings,
    fst (render_with_warnings C enum (join_scenario_of join_type) true)
    = Ok (SqlAndWarnings (join_sql_of join_type) warnings) /\
    List.length (filter mentions_cartesian warnings) = 1 /\
    List.length (filter mentions_cartesian_any_case warnings) = 2.
Proof.
  intros Henum.
  rewrite (join_scenario_validated C enum join_type Henum).
  pose proof (enum_nil enum Henum) as Hnil.
  assert (Hrefs := enum_nodup enum Henum ["S"; "J"; "J"; "CONDITIONS"; "S"]).
  change (nodup string_dec ["S"; "J"; "J"; "CONDITIONS"; "S"])
    with ["J"; "CONDITIONS"; "S"] in Hrefs.
  apply perm_three in Hrefs; try discriminate.
  unfold validation_passes.
  rewrite (validate_snowflake_specific_ext enum (fun _ => []) (join_sql_of join_type));
    [|now intros l -> | destruct join_type; vm_compute; reflexivity].
  rewrite (validate_query_completeness_ext enum
             (fun _ => enum ["S"; "J"; "J"; "CONDITIONS"; "S"]))
    by (now rewrite join_sql_referenced).
  destruct join_type;
    destruct Hrefs as [H|[H|[H|[H|[H|H]]]]];
    rewrite H;
    eexists; (split; [vm_compute; reflexivity|]); split; vm_compute; reflexivity.
Qed.

(** ** A join without conditions, in any context *)

Lemma string_app_assoc (a b c : string) : (a ++ b) ++ c = a ++ b ++ c.
Proof. induction a as [|x a IH]; simpl; [reflexivity|]. now rewrite IH. Qed.

Lemma get_cte_alias_run (node_id : string) (ctx : RenderContext.t) :
  get_cte_alias node_id ctx
  = match Dict.get node_id (RenderContext.cte_aliases ctx) with
    | Some alias => (Ok alias, ctx)
    | None =>
        let normalized :=
          PyStr.replace "/" "_"
            (PyStr.replace " " "_"
               (PyStr.lower (Re.sub false re_digit_prefix "" (_clean_ref node_id)))) in
        (Ok normalized,
         RenderContext.with_cte_aliases
           (Dict.set node_id normalized (RenderContext.cte_aliases ctx)) ctx)
    end.
Proof.
  unfold get_cte_alias, bind, ask, ret, set_alias.
  now destruct (Dict.get node_id (RenderContext.cte_aliases ctx)).
Qed.


Section BareJoin.

Variable C : Collaborators.

(** The FROM clause of an input is always rendered; it leaves the
    scenario alone and records at most the warning of a missing
    package. *)
Lemma render_from_run input_id ctx :
  exists from ctx',
    _render_from C input_id ctx = (Ok from, ctx') /\
    RenderContext.scenario ctx' = RenderContext.scenario ctx /\
    RenderContext.database_mode ctx' = RenderContext.database_mode ctx /\
    (RenderContext.warnings ctx' = RenderContext.warnings ctx \/
     exists cv_name,
       RenderContext.warnings ctx'
       = snoc (RenderContext.warnings ctx)
              ("Package not found for CV " ++ cv_name
               ++ ", using _SYS_BIC without path")).
Proof.
  unfold _render_from, bind, ask, ret, warn.
  repeat match goal with
         | |- context [match ?x with _ => _ end] =>
             lazymatch x with
             | get_cte_alias _ _ => fail
             | _ => destruct x
             end
         end;
    try rewrite get_cte_alias_run;
    repeat match goal with
           | |- context [match ?x with _ => _ end] => destruct x
           end;
    eexists _, _; (split; [reflexivity|]);
    (split; [reflexivity|]); (split; [reflexivity|]);
    first [left; reflexivity | right; eexists; reflexivity].
Qed.

Lemma alias_run node_id ctx :
  exists alias ctx',
    get_cte_alias node_id ctx = (Ok alias, ctx') /\
    RenderContext.scenario ctx' = RenderContext.scenario ctx /\
    RenderContext.database_mode ctx' = RenderContext.database_mode ctx /\
    RenderContext.warnings ctx' = RenderContext.warnings ctx.
Proof.
  rewrite get_cte_alias_run.
  destruct (Dict.get node_id (RenderContext.cte_aliases ctx));
    eexists _, _; repeat split; reflexivity.
Qed.

(** A join of two inputs with no condition, mapping, calculated
    attribute or filter is always rendered: with the condition 1=1,
    and with its warning as the last one. *)
Lemma render_join_without_conditions node join_type ctx input0 input1 others :
  Node.inputs node = input0 :: input1 :: others ->
  Node.mappings node = [] ->
  Node.calculated_attributes node = [] ->
  Node.filters node = [] ->
  exists select_from right ctx0 package_warnings,
    _render_join C node join_type [] ctx
    = (Ok (select_from ++ PyStr.nl ++ _map_join_type_to_sql join_type
           ++ " JOIN " ++ right ++ " ON 1=1"),
       RenderContext.with_warnings
         (snoc (RenderContext.warnings ctx0)
               ("Join " ++ Node.node_id node
                ++ " creates cartesian product (no join conditions)")) ctx0) /\
    RenderContext.scenario ctx0 = RenderContext.scenario ctx /\
    RenderContext.warnings ctx0
    = List.app (RenderContext.warnings ctx) package_warnings /\
    List.length package_warnings <= 2 /\
    Forall (fun w => PyStr.startswith "Package not found for CV " w = true)
           package_warnings.
Proof.
  intros Hi Hm Hc Hf. unfold _render_join. rewrite Hi, Hm, Hc, Hf.
  destruct (render_from_run (PyStr.lstrip_char "#" input0) ctx)
    as (left_from & ctx1 & E1 & Hs1 & Hd1 & Hw1).
  destruct (render_from_run (PyStr.lstrip_char "#" input1) ctx1)
    as (right_from & ctx2 & E2 & Hs2 & Hd2 & Hw2).
  destruct (alias_run (PyStr.lstrip_char "#" input0) ctx2)
    as (left_alias & ctx3 & E3 & Hs3 & Hd3 & Hw3).
  destruct (alias_run (PyStr.lstrip_char "#" input1) ctx3)
    as (right_alias & ctx4 & E4 & Hs4 & Hd4 & Hw4).
  unfold bind at 1. rewrite E1.
  unfold bind at 1. rewrite E2.
  unfold bind at 1. rewrite E3.
  unfold bind at 1. rewrite E4.
  cbn [foldM _render_filters]. unfold bind, ret, warn, ask.
  cbn [nonempty andb PyStr.join].
  rewrite Bool.andb_false_r. cbn [nonempty].
  exists ("SELECT" ++ PyStr.nl ++ "    "
          ++ PyStr.join ("," ++ PyStr.nl ++ "    ")
               [left_alias ++ ".*"; right_alias ++ ".*"]
          ++ PyStr.nl ++ "FROM " ++ left_from ++ " AS " ++ left_alias),
    (right_from ++ " AS " ++ right_alias), ctx4.
  assert (Hw : exists package_warnings,
             RenderContext.warnings ctx4
             = List.app (RenderContext.warnings ctx) package_warnings /\
             List.length package_warnings <= 2 /\
             Forall (fun w => PyStr.startswith "Package not found for CV " w = true)
                    package_warnings).
  { rewrite Hw4, Hw3.
    destruct Hw1 as [Hw1|[cv1 Hw1]], Hw2 as [Hw2|[cv2 Hw2]];
      rewrite Hw2, Hw1; unfold snoc.
    - exists []. rewrite app_nil_r. repeat split; [simpl; lia|constructor].
    - eexists [_]. repeat split; [simpl; lia|]. repeat constructor.
    - eexists [_]. repeat split; [simpl; lia|]. repeat constructor.
    - eexists [_; _]. rewrite <- app_assoc. repeat split; [simpl; lia|].
      repeat constructor. }
  destruct Hw as (package_warnings & Hw & Hlen & Hall).
  exists package_warnings. split; [|repeat split; try assumption; congruence].
  f_equal. f_equal. rewrite !string_app_assoc. reflexivity.
Qed.

End BareJoin.

(** C4 (amended): a join of two inputs with no condition, and with no
    mapping, calculated attribute or filter, is rendered in every
    context and for every collaborator behaviour: the SQL of the join
    ends in the condition 1=1, and exactly one warning is added for it,
    'Join <id> creates cartesian product (no join conditions)', after at
    most the two warnings of missing packages of its inputs.  End to
    end, the scenario of two tables and one such join, inner, left,
    right or full, compiles without an exception for every iteration
    order of the sets: without validation the warnings are that one
    warning; with validation (the default) they hold exactly one
    warning with the lower-case word 'cartesian' and, with the
    performance pass's 'Cartesian product detected', two when case is
    ignored. *)
Theorem join_without_conditions_end_to_end
        (C : Collaborators) (enum : list string -> list string)
        (join_type : JoinType.t) (node : Node.t) (ctx : RenderContext.t)
        (input0 input1 : string) (others : list string) :
  enum_ok enum ->
  Node.inputs node = input0 :: input1 :: others ->
  Node.mappings node = [] ->
  Node.calculated_attributes node = [] ->
  Node.filters node = [] ->
  (exists select_from right ctx0 package_warnings,
      _render_join C node join_type [] ctx
      = (Ok (select_from ++ PyStr.nl ++ _map_join_type_to_sql join_type
             ++ " JOIN " ++ right ++ " ON 1=1"),
         RenderContext.with_warnings
           (snoc (RenderContext.warnings ctx0)
                 ("Join " ++ Node.node_id node
                  ++ " creates cartesian product (no join conditions)")) ctx0) /\
      RenderContext.scenario ctx0 = RenderContext.scenario ctx /\
      RenderContext.warnings ctx0
      = List.app (RenderContext.warnings ctx) package_warnings /\
      List.length package_warnings <= 2 /\
      Forall (fun w => PyStr.startswith "Package not found for CV " w = true)
             package_warnings) /\
  fst (render_with_warnings C enum (join_scenario_of join_type) false)
  = Ok (SqlAndWarnings (join_sql_of join_type) [join_warning]) /\
  PyStr.contains (_map_join_type_to_sql join_type ++ " JOIN S.T2 AS t2 ON 1=1")
                 (join_sql_of join_type) = true /\
  exists warnings,
    fst (render_with_warnings C enum (join_scenario_of join_type) true)
    = Ok (SqlAndWarnings (join_sql_of join_type) warnings) /\
    List.length (filter mentions_cartesian warnings) = 1 /\
    List.length (filter mentions_cartesian_any_case warnings) = 2.
Proof.
  intros Henum Hi Hm Hc Hf.
  split; [exact (render_join_without_conditions C node join_type ctx _ _ _ Hi Hm Hc Hf)|].
  split; [now rewrite join_scenario_unvalidated|].
  split; [destruct join_type; vm_compute; reflexivity|].
  exact (join_scenario_validated_warnings C enum join_type Henum).
Qed.

Lemma join_without_conditions_end_to_end_witness :
  fst (render_with_warnings idle_collaborators nodup_order
         (join_scenario_of JoinType.LEFT_OUTER) false)
  = Ok (SqlAndWarnings (join_sql_of JoinType.LEFT_OUTER) [join_warning]) /\
  exists warnings,
    fst (render_with_warnings idle_collaborators nodup_order
           (join_scenario_of JoinType.LEFT_OUTER) true)
    = Ok (SqlAndWarnings (join_sql_of JoinType.LEFT_OUTER) warnings) /\
    List.length (filter mentions_cartesian warnings) = 1 /\
    List.length (filter mentions_cartesian_any_case warnings) = 2.
Proof.
  destruct (join_without_conditions_end_to_end
              idle_collaborators nodup_order JoinType.LEFT_OUTER join_node
              empty_context "T1" "T2" [] nodup_order_ok
              eq_refl eq_refl eq_refl eq_refl)
    as (_ & Hoff & _ & Hon).
  split; [exact Hoff|exact Hon].
Defined.

(** ** The text-level rewrites applied twice *)

(** C2 (refuted at concrete formulas): neither pass is idempotent on
    formulas with balanced parentheses, and the parameter pass does not
    keep the balance.  The IN pass turns [IN(a, b, c)] into
    [a IN (b, c)], and applied to that it takes [b] for the expression:
    [a b IN (c)]; the same happens to the example of its documentation.
    The parameter pass replaces one pair of doubled ANDs per
    application, and its clean-up of empty parentheses removes the
    parenthesis in front of [()] with it, which leaves [(() AND x)]
    with one closing parenthesis and no opening one. *)
Theorem text_rewrites_applied_twice :
  (balanced "IN(a, b, c)" = true /\
   _convert_in_function_to_operator "IN(a, b, c)" = "a IN (b, c)" /\
   _convert_in_function_to_operator "a IN (b, c)" = "a b IN (c)") /\
  (let documented :=
     "IN(RIGHT(" ++ PyStr.dq ++ "CALMONTH" ++ PyStr.dq ++ ", 2), '01', '02', '03')" in
   let once := _convert_in_function_to_operator documented in
   balanced documented = true /\
   once = "RIGHT(" ++ PyStr.dq ++ "CALMONTH" ++ PyStr.dq ++ ", 2) IN ('01', '02', '03')" /\
   _convert_in_function_to_operator once
   = "RIGHT(" ++ PyStr.dq ++ "CALMONTH" ++ PyStr.dq ++ ", 2) '01' IN ('02', '03')") /\
  (balanced "x AND AND AND y" = true /\
   _remove_parameter_clauses_hana "x AND AND AND y" = "x AND AND y" /\
   _remove_parameter_clauses_hana "x AND AND y" = "x AND y") /\
  (balanced "(() AND x)" = true /\
   _remove_parameter_clauses_hana "(() AND x)" = "AND x)" /\
   same_paren_count "AND x)" = false /\
   balanced "AND x)" = false).
Proof. repeat split; vm_compute; reflexivity. Qed.

(** ** More facts about strings *)

Module StringFacts.
Import PyStr.

Ltac each_char c := destruct c as [[] [] [] [] [] [] [] []]; vm_compute; try reflexivity.

Lemma upper_app a b : upper (a ++ b) = upper a ++ upper b.
Proof.
  induction a as [|c a IH]; simpl; [reflexivity|].
  destruct (code c =? 223); simpl; now rewrite IH.
Qed.

Lemma upper_char_fixed c :
  code c <> 223 ->
  upper_char (upper_char c) = upper_char c /\ (code (upper_char c) =? 223) = false.
Proof. each_char c; intros H; try (split; reflexivity); now destruct H. Qed.

Lemma upper_idempotent s : upper (upper s) = upper s.
Proof.
  induction s as [|c s IH]; simpl; [reflexivity|].
  destruct (code c =? 223) eqn:E.
  - simpl. now rewrite IH.
  - apply Nat.eqb_neq in E. destruct (upper_char_fixed c E) as [H1 H2].
    simpl. now rewrite H2, H1, IH.
Qed.

Lemma count_char_app x a b : count_char x (a ++ b) = count_char x a + count_char x b.
Proof. induction a as [|c a IH]; simpl; [reflexivity|]. rewrite IH. lia. Qed.

Lemma contains_char x s :
  contains (String x EmptyString) s = negb (count_char x s =? 0).
Proof.
  unfold contains. induction s as [|c s IH]; simpl; [reflexivity|].
  rewrite Ascii.eqb_sym.
  destruct (Ascii.eqb c x); simpl; [reflexivity|].
  destruct (find_here (String x EmptyString) s); simpl in *; exact IH.
Qed.

Lemma rstrip_idempotent s : rstrip (rstrip s) = rstrip s.
Proof.
  induction s as [|c s IH]; simpl; [reflexivity|].
  destruct (rstrip s) as [|d r] eqn:E.
  - destruct (isspace c) eqn:Ec; simpl; [reflexivity|]. now rewrite Ec.
  - simpl in *. now rewrite IH.
Qed.

Lemma lstrip_head s :
  match lstrip s with
  | EmptyString => True
  | String c _ => isspace c = false
  end.
Proof.
  induction s as [|c s IH]; simpl; [exact I|].
  destruct (isspace c) eqn:E; [exact IH|]. exact E.
Qed.

Lemma lstrip_fixed c s : isspace c = false -> lstrip (String c s) = String c s.
Proof. intros H. simpl. now rewrite H. Qed.

Lemma rstrip_head c s :
  isspace c = false -> exists r, rstrip (String c s) = String c r.
Proof.
  intros H. simpl. destruct (rstrip s); [rewrite H|]; eauto.
Qed.

Lemma strip_idempotent s : strip (strip s) = strip s.
Proof.
  unfold strip. pose proof (lstrip_head s) as Hh.
  destruct (lstrip s) as [|c t] eqn:E; [reflexivity|].
  destruct (rstrip_head c t Hh) as [r Hr]. rewrite Hr.
  rewrite (lstrip_fixed c r Hh). rewrite <- Hr. apply rstrip_idempotent.
Qed.

Lemma rstrip_snoc s c :
  isspace c = false -> rstrip (s ++ String c EmptyString) = s ++ String c EmptyString.
Proof.
  intros H. induction s as [|d s IH]; simpl.
  - now rewrite H.
  - rewrite IH. destruct s; reflexivity.
Qed.

Lemma strip_between c s d :
  isspace c = false -> isspace d = false ->
  strip (String c (s ++ String d EmptyString)) = String c (s ++ String d EmptyString).
Proof.
  intros Hc Hd. unfold strip. rewrite (lstrip_fixed c _ Hc).
  change (String c (s ++ String d EmptyString))
    with ((String c s) ++ String d EmptyString).
  now apply rstrip_snoc.
Qed.

End StringFacts.

(** ** Operators and their negation *)

Section Operators.
Import PyStr StringFacts.

Lemma negation_keys u :
  Dict.mem u negation_map = true ->
  str_in u ["="; "<>"; "!="; ">"; ">="; "<"; "<="; "IN"; "NOT IN"; "LIKE";
            "NOT LIKE"; "BETWEEN"; "NOT BETWEEN"] = true.
Proof.
  unfold Dict.mem, negation_map, Dict.get, str_in, existsb.
  repeat (destruct (String.eqb u _); [reflexivity|]).
  discriminate.
Qed.

Lemma str_in_cases x l : str_in x l = true -> In x l.
Proof.
  unfold str_in. intros H. apply existsb_exists in H as (y & Hy & E).
  apply String.eqb_eq in E. now subst.
Qed.

End Operators.

(** X1: negating an operator twice.  For an operator of the negation
    table (compared in upper case) the second negation gives the
    operator back in upper case, except for '!=', which comes back as
    '<>'; for any other operator each negation puts another NOT in
    front. *)
Theorem negate_operator_twice (op : string) :
  (Dict.mem (PyStr.upper op) negation_map = true ->
   _negate_operator (_negate_operator op)
   = if String.eqb (PyStr.upper op) "!=" then "<>" else PyStr.upper op) /\
  (Dict.mem (PyStr.upper op) negation_map = false ->
   _negate_operator op = "NOT " ++ op /\
   _negate_operator (_negate_operator op) = "NOT NOT " ++ op).
Proof.
  split.
  - intros Hmem. apply negation_keys in Hmem. apply str_in_cases in Hmem.
    unfold _negate_operator at 2. cbv zeta.
    simpl in Hmem.
    repeat (destruct Hmem as [Hmem|Hmem]; [rewrite <- Hmem; reflexivity|]).
    contradiction.
  - intros Hmem.
    assert (H1 : _negate_operator op = "NOT " ++ op).
    { unfold _negate_operator. cbv zeta. unfold Dict.mem in Hmem.
      now destruct (Dict.get (PyStr.upper op) negation_map). }
    split; [exact H1|]. rewrite H1.
    unfold _negate_operator. cbv zeta.
    change (PyStr.upper ("NOT " ++ op)) with ("NOT " ++ PyStr.upper op).
    unfold Dict.mem in Hmem.
    destruct (Dict.get ("NOT " ++ PyStr.upper op) negation_map) eqn:E; [|reflexivity].
    exfalso. revert E Hmem. generalize (PyStr.upper op). intros u E Hmem.
    simpl in E.
    destruct (String.eqb_spec u "IN"); [subst; discriminate|].
    destruct (String.eqb_spec u "LIKE"); [subst; discriminate|].
    destruct (String.eqb_spec u "BETWEEN"); [subst; discriminate|].
    discriminate.
Qed.

Lemma negate_operator_twice_witness :
  _negate_operator (_negate_operator "like") = "LIKE" /\
  _negate_operator (_negate_operator "~") = "NOT NOT ~".
Proof.
  split.
  - apply (proj1 (negate_operator_twice "like")). reflexivity.
  - apply (proj2 (negate_operator_twice "~")). reflexivity.
Defined.

Lemma filter_operator_keys u :
  Dict.mem u filter_operator_mapping = true ->
  In u ["EQ"; "NE"; "GT"; "GE"; "LT"; "LE"; "BETWEEN"; "IN"; "LIKE"].
Proof.
  intros H. apply str_in_cases.
  revert H. unfold Dict.mem, filter_operator_mapping, Dict.get, str_in, existsb.
  repeat (destruct (String.eqb u _); [reflexivity|]).
  discriminate.
Qed.

(** X2: the operators that the parser produces for the nine operator
    codes of the XML (compared in upper case), and for a missing or
    empty code, all have an entry in the negation table of the renderer,
    and negating them twice gives them back unchanged. *)
Theorem parsed_operator_negation (value : option string) :
  truthy value = false
  \/ Dict.mem (PyStr.upper (or_else value EmptyString)) filter_operator_mapping = true ->
  let op := _map_filter_operator value in
  Dict.mem (PyStr.upper op) negation_map = true /\
  _negate_operator (_negate_operator op) = op.
Proof.
  intros H op. subst op. unfold _map_filter_operator.
  destruct (truthy value) eqn:Et; simpl.
  - destruct H as [H|H]; [discriminate|]. cbv zeta.
    pose proof (filter_operator_keys _ H) as Hk. simpl in Hk.
    repeat (destruct Hk as [Hk|Hk]; [rewrite <- Hk; split; reflexivity|]).
    contradiction.
  - split; reflexivity.
Qed.

Lemma parsed_operator_negation_witness :
  _map_filter_operator (Some "ne") = "<>" /\
  _negate_operator (_negate_operator (_map_filter_operator (Some "ne"))) = "<>".
Proof.
  split; [reflexivity|].
  apply (parsed_operator_negation (Some "ne")). right. reflexivity.
Defined.

(** ** Data types of HANA *)

Lemma map_hana_datatype_some (d : string) :
  d <> EmptyString ->
  _map_hana_datatype (Some d)
  = if PyStr.contains "(" (PyStr.upper d) then d
    else match Dict.get (PyStr.upper d) type_defaults with
         | Some mapped => mapped
         | None => PyStr.upper d ++ "(100)"
         end.
Proof. destruct d; [congruence|reflexivity]. Qed.

(** X3: mapping a data type to its HANA type is idempotent: the mapped
    type maps to itself, whatever the input, a missing one included. *)
Theorem map_hana_datatype_idempotent (datatype : option string) :
  _map_hana_datatype (Some (_map_hana_datatype datatype)) = _map_hana_datatype datatype.
Proof.
  destruct datatype as [[|c s]|]; try reflexivity.
  set (d := String c s). assert (Hd : d <> EmptyString) by discriminate.
  rewrite (map_hana_datatype_some d Hd).
  destruct (PyStr.contains "(" (PyStr.upper d)) eqn:Ec.
  - rewrite (map_hana_datatype_some d Hd). now rewrite Ec.
  - destruct (Dict.get (PyStr.upper d) type_defaults) as [mapped|] eqn:Eg.
    + revert Eg. unfold type_defaults, Dict.get.
      repeat (destruct (String.eqb (PyStr.upper d) _);
              [intros E; injection E as <-; reflexivity|]).
      discriminate.
    + rewrite map_hana_datatype_some by (destruct (PyStr.upper d); discriminate).
      rewrite StringFacts.upper_app, StringFacts.upper_idempotent.
      change (PyStr.upper "(100)") with "(100)".
      assert (Hc : PyStr.contains "(" (PyStr.upper d ++ "(100)") = true).
      { rewrite StringFacts.contains_char, StringFacts.count_char_app.
        generalize (PyStr.count_char "(" (PyStr.upper d)). intros n.
        change (PyStr.count_char "(" "(100)") with 1.
        apply negb_true_iff, Nat.eqb_neq. lia. }
      now rewrite Hc.
Qed.

(** ** Scalars of function arguments *)

(** X4: normalising a scalar argument is idempotent: a double-quoted
    literal becomes a single-quoted one, anything else is stripped, and
    the result is left alone by a second normalisation. *)
Theorem normalize_scalar_idempotent (argument : string) :
  _normalize_scalar (_normalize_scalar argument) = _normalize_scalar argument.
Proof.
  unfold _normalize_scalar at 2 3. cbv zeta.
  destruct (PyStr.startswith PyStr.dq (PyStr.strip argument)
            && PyStr.endswith PyStr.dq (PyStr.strip argument)) eqn:E.
  - set (inner := PyStr.replace _ _ _).
    unfold _normalize_scalar. cbv zeta.
    change ("'" ++ inner ++ "'") with (String "'" (inner ++ String "'" EmptyString)).
    rewrite StringFacts.strip_between by reflexivity. reflexivity.
  - unfold _normalize_scalar. cbv zeta.
    rewrite StringFacts.strip_idempotent. now rewrite E.
Qed.

(** ** Splitting arguments *)

Section SplitArguments.
Import PyStr StringFacts.

Lemma count_char_lstrip x s : isspace x = false -> count_char x (lstrip s) = count_char x s.
Proof.
  intros Hx. induction s as [|c s IH]; simpl; [reflexivity|].
  destruct (isspace c) eqn:Ec; [|reflexivity].
  rewrite IH. destruct (Ascii.eqb_spec c x); [congruence|reflexivity].
Qed.

Lemma count_char_rstrip x s : isspace x = false -> count_char x (rstrip s) = count_char x s.
Proof.
  intros Hx. induction s as [|c s IH]; simpl; [reflexivity|].
  destruct (rstrip s) as [|d r] eqn:E.
  - simpl in IH. rewrite <- IH.
    destruct (isspace c) eqn:Ec; simpl.
    + destruct (Ascii.eqb_spec c x); [congruence|reflexivity].
    + lia.
  - simpl in *. now rewrite IH.
Qed.

Lemma count_char_strip x s : isspace x = false -> count_char x (strip s) = count_char x s.
Proof.
  intros Hx. unfold strip. now rewrite count_char_rstrip, count_char_lstrip.
Qed.

Lemma held_snoc x args a : held x (snoc args a) = held x args + count_char x a.
Proof.
  unfold held, snoc. rewrite map_app, list_sum_app. simpl. lia.
Qed.

Lemma held_append_stripped x args current :
  isspace x = false ->
  held x (append_stripped args current) = held x args + count_char x current.
Proof.
  intros Hx. unfold append_stripped. cbv zeta.
  pose proof (count_char_strip x current Hx) as Hs.
  destruct (strip current) eqn:E; simpl nonempty; cbv iota.
  - simpl in Hs. lia.
  - rewrite held_snoc. lia.
Qed.

Lemma count_char_push x current c :
  count_char x (push current c) = count_char x current + (if Ascii.eqb c x then 1 else 0).
Proof. unfold push. rewrite count_char_app. simpl. lia. Qed.

Lemma count_list_chars x s : count_list x (Re.chars s) = count_char x s.
Proof.
  unfold count_list, Re.chars. induction s as [|c s IH]; simpl; [reflexivity|].
  destruct (Ascii.eqb c x); simpl; now rewrite IH.
Qed.

Lemma count_list_cons x c l :
  count_list x (c :: l) = (if Ascii.eqb c x then 1 else 0) + count_list x l.
Proof. unfold count_list. cbn [filter]. now destruct (Ascii.eqb c x). Qed.

Lemma count_char_cons x c s :
  count_char x (String c s) = (if Ascii.eqb c x then 1 else 0) + count_char x s.
Proof. reflexivity. Qed.

Lemma split_loop_held x n :
  isspace x = false -> x <> comma ->
  forall rest depth in_quote current args,
    List.length rest <= n ->
    held x (split_arguments_loop rest depth in_quote current args)
    = held x args + count_char x current + count_list x rest.
Proof.
  intros Hx Hcomma. induction n as [|n IH]; intros rest depth in_quote current args Hlen.
  - destruct rest; [|simpl in Hlen; lia]. simpl.
    rewrite held_append_stripped by assumption. unfold count_list. simpl. lia.
  - destruct rest as [|ch tl].
    + simpl. rewrite held_append_stripped by assumption. unfold count_list. simpl. lia.
    + simpl in Hlen. assert (Htl : List.length tl <= n) by lia.
      cbn [split_arguments_loop].
      assert (Hstep : forall d q,
                 held x (split_arguments_loop tl d q (push current ch) args)
                 = held x args + count_char x current + count_list x (ch :: tl)).
      { intros d q. rewrite IH by assumption. rewrite count_char_push.
        unfold count_list. simpl. destruct (Ascii.eqb ch x); simpl; lia. }
      destruct (Ascii.eqb_spec ch apostrophe) as [Hap|Hap].
      * destruct in_quote; [|apply Hstep].
        destruct tl as [|next tl']; [apply Hstep|].
        destruct (Ascii.eqb_spec next apostrophe) as [Hn|Hn]; [|apply Hstep].
        simpl in Htl. rewrite IH by lia. subst ch next.
        rewrite count_char_app, !count_list_cons.
        change "''" with (String apostrophe (String apostrophe EmptyString)).
        rewrite !count_char_cons. cbn [count_char]. lia.
      * destruct (negb in_quote); [|apply Hstep].
        destruct (Ascii.eqb ch open_paren); [apply Hstep|].
        destruct (Ascii.eqb ch close_paren); [apply Hstep|].
        destruct (Ascii.eqb_spec ch comma) as [Hc|Hc]; simpl; [|apply Hstep].
        destruct (depth =? 0); [|apply Hstep].
        rewrite IH by assumption. rewrite held_append_stripped by assumption.
        unfold count_list. simpl. subst ch.
        destruct (Ascii.eqb_spec comma x); [congruence|]. simpl. lia.
Qed.

Lemma clean_append_stripped args current :
  Forall clean_argument args -> Forall clean_argument (append_stripped args current).
Proof.
  intros H. unfold append_stripped. cbv zeta.
  destruct (strip current) eqn:E; simpl nonempty; cbv iota; [assumption|].
  unfold snoc. apply Forall_app. split; [assumption|].
  constructor; [|constructor]. split; [discriminate|].
  rewrite <- E. apply strip_idempotent.
Qed.

Lemma split_loop_clean n :
  forall rest depth in_quote current args,
    List.length rest <= n ->
    Forall clean_argument args ->
    Forall clean_argument (split_arguments_loop rest depth in_quote current args).
Proof.
  induction n as [|n IH]; intros rest depth in_quote current args Hlen Hargs.
  - destruct rest; [|simpl in Hlen; lia]. simpl. now apply clean_append_stripped.
  - destruct rest as [|ch tl]; [simpl; now apply clean_append_stripped|].
    simpl in Hlen. assert (Htl : List.length tl <= n) by lia.
    cbn [split_arguments_loop].
    destruct (Ascii.eqb ch apostrophe).
    + destruct in_quote; [|now apply IH].
      destruct tl as [|next tl']; [now apply IH|].
      destruct (Ascii.eqb next apostrophe); [|now apply IH].
      simpl in Htl. apply IH; [lia|assumption].
    + destruct (negb in_quote); [|now apply IH].
      destruct (Ascii.eqb ch open_paren); [now apply IH|].
      destruct (Ascii.eqb ch close_paren); [now apply IH|].
      destruct (Ascii.eqb ch comma && (depth =? 0)); [|now apply IH].
      apply IH; [assumption|]. now apply clean_append_stripped.
Qed.

End SplitArguments.

(** X5: every argument that [_split_arguments] returns is non-empty and
    has no surrounding whitespace, whatever the argument string. *)
Theorem split_arguments_clean (arg_string a : string) :
  In a (_split_arguments arg_string) ->
  a <> EmptyString /\ PyStr.strip a = a.
Proof.
  intros H. unfold _split_arguments in H.
  pose proof (split_loop_clean (List.length (Re.chars arg_string))
                (Re.chars arg_string) 0 false EmptyString [] (le_n _) (Forall_nil _)) as Hall.
  rewrite Forall_forall in Hall. exact (Hall a H).
Qed.

Lemma split_arguments_clean_witness :
  _split_arguments " f(a, b) ,, 'x,y' , " = ["f(a, b)"; "'x,y'"] /\
  "f(a, b)" <> EmptyString /\ PyStr.strip "f(a, b)" = "f(a, b)".
Proof.
  split; [reflexivity|].
  apply (split_arguments_clean " f(a, b) ,, 'x,y' , " "f(a, b)").
  simpl. auto.
Defined.

(** X6: [_split_arguments] drops nothing but commas and whitespace:
    every other character occurs in the arguments together as often as
    in the argument string; in particular the parentheses are kept. *)
Theorem split_arguments_keeps_characters (arg_string : string) (x : ascii) :
  PyStr.isspace x = false -> x <> comma ->
  list_sum (map (PyStr.count_char x) (_split_arguments arg_string))
  = PyStr.count_char x arg_string.
Proof.
  intros Hx Hc. unfold _split_arguments.
  pose proof (split_loop_held x (List.length (Re.chars arg_string)) Hx Hc
                (Re.chars arg_string) 0 false EmptyString [] (le_n _)) as H.
  unfold held in H. rewrite H. simpl. apply count_list_chars.
Qed.

Lemma split_arguments_keeps_characters_witness :
  list_sum (map (PyStr.count_char "(") (_split_arguments "f(a, g(b)), (c)")) = 3.
Proof.
  rewrite (split_arguments_keeps_characters "f(a, g(b)), (c)" "(");
    [reflexivity | reflexivity | discriminate].
Defined.

(** ** Literals *)

Section Literals.
Import PyStr StringFacts.

Lemma startswith_app x b : startswith x (x ++ b) = true.
Proof.
  induction x as [|c x IH]; simpl; [reflexivity|].
  now rewrite Ascii.eqb_refl, IH.
Qed.

Lemma find_here_start x s : startswith x s = true -> find_here x s = Some 0.
Proof. intros H. destruct s; simpl; now rewrite H. Qed.

Lemma find_here_app x a b : exists k, find_here x (a ++ x ++ b) = Some k.
Proof.
  induction a as [|c a IH].
  - exists 0. apply find_here_start. exact (startswith_app x b).
  - destruct IH as [k Hk]. cbn [String.append find_here].
    destruct (startswith x (String c (a ++ x ++ b))); [eauto|].
    rewrite Hk. simpl. eauto.
Qed.

Lemma contains_refl x : contains x x = true.
Proof.
  unfold contains. rewrite find_here_start; [reflexivity|].
  induction x as [|c x IH]; simpl; [reflexivity|]. now rewrite Ascii.eqb_refl.
Qed.

(** A text that holds [x] contains it. *)
Lemma contains_app x a b : contains x (a ++ x ++ b) = true.
Proof. unfold contains. destruct (find_here_app x a b) as [k ->]. reflexivity. Qed.

(** The text [v] between apostrophes inside a longer text. *)
Lemma contains_quoted v a b :
  contains ("'" ++ v ++ "'") (a ++ "'" ++ v ++ "'" ++ b) = true.
Proof.
  pose proof (contains_app ("'" ++ v ++ "'") a b) as H.
  rewrite !string_app_assoc in H. exact H.
Qed.

Lemma all_chars_count p s x :
  all_chars p s = true -> p x = false -> count_char x s = 0.
Proof.
  intros Hall Hx. induction s as [|c s IH]; simpl in *; [reflexivity|].
  apply andb_true_iff in Hall as [Hc Hs]. rewrite (IH Hs).
  destruct (Ascii.eqb_spec c x); [congruence|reflexivity].
Qed.

Lemma isdigit_count s x :
  isdigit s = true -> isdigit_char x = false -> count_char x s = 0.
Proof.
  intros H. destruct s; [discriminate|]. now apply all_chars_count.
Qed.

Lemma replace_apostrophes_count fuel s :
  String.length s < fuel ->
  count_char "'" (replace_from fuel "'" "''" s) = 2 * count_char "'" s.
Proof.
  revert fuel. induction s as [|c s IH]; intros fuel Hlen.
  - destruct fuel; reflexivity.
  - destruct fuel as [|fuel]; [lia|]. simpl in Hlen.
    cbn [replace_from startswith]. rewrite andb_true_r.
    cbn [String.length PyStr.drop].
    rewrite (Ascii.eqb_sym "'" c).
    destruct (Ascii.eqb c "'") eqn:E.
    + rewrite count_char_app, (IH fuel) by lia.
      cbn [count_char]. rewrite E, Ascii.eqb_refl. lia.
    + cbn [count_char]. rewrite E, (IH fuel) by lia. lia.
Qed.

Lemma double_apostrophes_count v :
  count_char "'" (double_apostrophes v) = 2 * count_char "'" v.
Proof. unfold double_apostrophes, replace. apply replace_apostrophes_count. lia. Qed.

Lemma replace_absent fuel s :
  count_char "'" s = 0 -> replace_from fuel "'" "''" s = s.
Proof.
  revert fuel. induction s as [|c s IH]; intros fuel H.
  - destruct fuel; reflexivity.
  - destruct fuel as [|fuel]; [reflexivity|].
    cbn [replace_from startswith]. rewrite andb_true_r.
    cbn [count_char] in H. rewrite (Ascii.eqb_sym "'" c).
    destruct (Ascii.eqb c "'"); [discriminate|].
    now rewrite IH.
Qed.

Lemma double_apostrophes_digits v : isdigit v = true -> double_apostrophes v = v.
Proof.
  intros H. unfold double_apostrophes, replace. apply replace_absent.
  now apply isdigit_count.
Qed.

End Literals.

(** X7: a digit string with a leading zero (a code such as 01 or 007)
    is never rendered bare: whatever the data type, the rendered
    literal holds the text between apostrophes, and it differs from the
    text itself. *)
Theorem render_literal_leading_zero (value : string) (data_type : option DataTypeSpec.t) :
  PyStr.isdigit value = true ->
  1 < String.length value ->
  PyStr.startswith "0" value = true ->
  PyStr.contains ("'" ++ value ++ "'") (_render_literal value data_type) = true /\
  _render_literal value data_type <> value.
Proof.
  intros Hd Hlen Hz. unfold _render_literal. cbv zeta.
  rewrite Hd, Hz. apply Nat.ltb_lt in Hlen. rewrite Hlen. cbn [andb negb].
  rewrite (double_apostrophes_digits value Hd).
  assert (Hq : PyStr.contains ("'" ++ value ++ "'") ("'" ++ value ++ "'") = true).
  { apply contains_refl. }
  destruct value as [|c value]; [discriminate|].
  set (v := String c value) in *.
  assert (Hne : forall s : string, String "'" s <> v /\ String "T" s <> v).
  { apply PyStrFacts.startswith_cons_inv in Hz as (s' & E & _). rewrite E.
    intros s. split; discriminate. }
  split.
  - destruct data_type as [[[] ? ?]|]; cbn [DataTypeSpec.type]; try exact Hq.
    + destruct (String.length v =? 8); cbn [andb].
      * apply (contains_quoted v "TO_DATE(" ", 'YYYYMMDD')").
      * apply (contains_quoted v EmptyString "::DATE").
    + apply (contains_quoted v EmptyString "::TIMESTAMP_NTZ").
  - destruct data_type as [[[] ? ?]|]; cbn [DataTypeSpec.type]; try apply Hne.
    destruct (String.length v =? 8); apply Hne.
Qed.

Lemma render_literal_leading_zero_witness :
  _render_literal "01" None = "'01'" /\
  PyStr.contains "'01'" (_render_literal "01" None) = true.
Proof.
  split; [reflexivity|].
  apply (render_literal_leading_zero "01" None); [reflexivity | simpl; lia | reflexivity].
Defined.

(** X8: for every value and every data type other than DATE and
    TIMESTAMP_NTZ a rendered literal holds an even number of
    apostrophes: a number is rendered bare and any other text between
    apostrophes with its own apostrophes doubled.  For DATE and
    TIMESTAMP_NTZ the text is inserted as it is. *)
Theorem render_literal_apostrophes (value : string) (data_type : option DataTypeSpec.t) :
  (forall spec, data_type = Some spec ->
                DataTypeSpec.type spec <> DATE /\ DataTypeSpec.type spec <> TIMESTAMP_NTZ) ->
  Nat.even (PyStr.count_char "'" (_render_literal value data_type)) = true.
Proof.
  intros Htype. unfold _render_literal. cbv zeta.
  assert (Hquoted : Nat.even (PyStr.count_char "'" ("'" ++ double_apostrophes value ++ "'"))
                    = true).
  { cbn [String.append PyStr.count_char]. rewrite Ascii.eqb_refl.
    rewrite StringFacts.count_char_app, double_apostrophes_count.
    cbn [PyStr.count_char]. rewrite Ascii.eqb_refl.
    replace (1 + (2 * PyStr.count_char "'" value + (1 + 0)))
      with (2 * (PyStr.count_char "'" value + 1)) by lia.
    rewrite Nat.even_mul. reflexivity. }
  match goal with |- context [if ?b then value else _] => destruct b eqn:Ebare end.
  - apply andb_true_iff in Ebare as [_ Hnum]. apply orb_true_iff in Hnum as [Hnum|Hnum].
    + now rewrite (isdigit_count value "'" Hnum).
    + apply andb_true_iff in Hnum as [Hminus Hnum].
      destruct value as [|c value]; [discriminate|].
      apply PyStrFacts.startswith_cons_inv in Hminus as (s' & E & _).
      injection E as -> ->. cbn [PyStr.drop] in Hnum.
      cbn [PyStr.count_char]. now rewrite (isdigit_count s' "'" Hnum).
  - destruct data_type as [spec|]; [|exact Hquoted].
    destruct (Htype spec eq_refl) as [H1 H2].
    destruct (DataTypeSpec.type spec); try exact Hquoted; congruence.
Qed.

Lemma render_literal_apostrophes_witness :
  _render_literal "O'Neil" None = "'O''Neil'" /\
  Nat.even (PyStr.count_char "'" (_render_literal "O'Neil" None)) = true /\
  _render_literal "O'Neil" (Some (DataTypeSpec.mk DATE None None)) = "'O'Neil'::DATE".
Proof.
  split; [reflexivity|]. split; [|reflexivity].
  apply (render_literal_apostrophes "O'Neil" None). intros spec H. discriminate.
Defined.

(** ** Results of the validator *)

Section ResultFacts.
Import ValidationResult.

Lemma consistent_empty : consistent empty.
Proof. reflexivity. Qed.

Lemma consistent_add_error message code line r : consistent (add_error message code line r).
Proof. unfold consistent, add_error, has_errors, snoc. simpl. now destruct (errors r). Qed.

Lemma consistent_add_warning message code r :
  consistent r -> consistent (add_warning message code r).
Proof. intros H. exact H. Qed.

Lemma consistent_add_info message code r :
  consistent r -> consistent (add_info message code r).
Proof. intros H. exact H. Qed.

Lemma consistent_when b f r :
  (forall r', consistent r' -> consistent (f r')) -> consistent r -> consistent (when b f r).
Proof. intros Hf Hr. destruct b; simpl; auto. Qed.

Lemma consistent_for_each {A} (l : list A) f r :
  (forall x r', consistent r' -> consistent (f x r')) ->
  consistent r -> consistent (for_each l f r).
Proof.
  intros Hf. unfold for_each. revert r.
  induction l as [|x l IH]; intros r Hr; simpl; auto.
Qed.

Lemma consistent_duplicate_ctes names :
  forall i seen r, consistent r -> consistent (duplicate_ctes i names seen r).
Proof.
  induction names as [|name tl IH]; intros i seen r Hr; simpl; [assumption|].
  apply IH. apply consistent_when; [|assumption].
  intros r' _. apply consistent_add_error.
Qed.

Lemma consistent_merge other self :
  consistent other -> consistent self -> consistent (merge other self).
Proof.
  unfold consistent, merge, has_errors. simpl. intros Ho Hs.
  destruct (errors other), (errors self); simpl in *; try rewrite app_nil_r;
    congruence.
Qed.

Lemma error_free_empty : error_free empty.
Proof. split; reflexivity. Qed.

Lemma error_free_add_warning message code r :
  error_free r -> error_free (add_warning message code r).
Proof. intros H. exact H. Qed.

Lemma error_free_add_info message code r :
  error_free r -> error_free (add_info message code r).
Proof. intros H. exact H. Qed.

Lemma error_free_when b f r :
  (forall r', error_free r' -> error_free (f r')) -> error_free r -> error_free (when b f r).
Proof. intros Hf Hr. destruct b; simpl; auto. Qed.

Lemma merge_errors other self :
  errors (merge other self) = (errors self ++ errors other)%list.
Proof. reflexivity. Qed.

Lemma merge_warnings other self :
  warnings (merge other self) = (warnings self ++ warnings other)%list.
Proof. reflexivity. Qed.

Lemma merge_info other self :
  info (merge other self) = (info self ++ info other)%list.
Proof. reflexivity. Qed.

Lemma has_errors_app_false (r : ValidationResult.t) :
  has_errors r = false <-> errors r = [].
Proof. unfold has_errors. destruct (errors r); split; congruence. Qed.

End ResultFacts.

Ltac consistent_step :=
  lazymatch goal with
  | H : consistent ?r |- consistent ?r => exact H
  | |- consistent ValidationResult.empty => apply consistent_empty
  | |- consistent (add_error _ _ _ _) => apply consistent_add_error
  | |- consistent (add_warning _ _ _) => apply consistent_add_warning
  | |- consistent (add_info _ _ _) => apply consistent_add_info
  | |- consistent (merge _ _) => apply consistent_merge
  | |- consistent (duplicate_ctes _ _ _ _) => apply consistent_duplicate_ctes
  | |- consistent (when _ _ _) => apply consistent_when; [intros ? ?|]
  | |- consistent (for_each _ _ _) => apply consistent_for_each; [intros ? ? ?|]
  | |- consistent (if ?b then _ else _) => destruct b
  | |- consistent (match ?o with _ => _ end) => destruct o
  | |- consistent ((if ?b then _ else _) _) => destruct b
  end.

Ltac consistent_all := cbv zeta; repeat consistent_step.

Ltac error_free_step :=
  lazymatch goal with
  | H : error_free ?r |- error_free ?r => exact H
  | |- error_free ValidationResult.empty => apply error_free_empty
  | |- error_free (add_warning _ _ _) => apply error_free_add_warning
  | |- error_free (add_info _ _ _) => apply error_free_add_info
  | |- error_free (when _ _ _) => apply error_free_when; [intros ? ?|]
  | |- error_free (if ?b then _ else _) => destruct b
  | |- error_free ((if ?b then _ else _) _) => destruct b
  end.

Section PassesConsistent.

Variable enum : list string -> list string.

Lemma consistent_structure sql : consistent (validate_sql_structure sql).
Proof. unfold validate_sql_structure. consistent_all. Qed.

Lemma consistent_completeness scenario sql ctx :
  consistent (validate_query_completeness enum scenario sql ctx).
Proof. unfold validate_query_completeness. consistent_all. Qed.

Lemma consistent_performance sql scenario : consistent (validate_performance sql scenario).
Proof. unfold validate_performance. consistent_all. Qed.

Lemma consistent_snowflake sql : consistent (validate_snowflake_specific enum sql).
Proof. unfold validate_snowflake_specific. consistent_all. Qed.

Lemma consistent_complexity sql scenario :
  consistent (analyze_query_complexity sql scenario).
Proof. unfold analyze_query_complexity. consistent_all. Qed.

Lemma consistent_version_features sql version :
  consistent (_validate_hana_version_features sql version).
Proof. unfold _validate_hana_version_features. consistent_all. Qed.

Lemma consistent_hana sql scenario hana_version :
  consistent (validate_hana_sql sql scenario hana_version).
Proof.
  unfold validate_hana_sql. cbv zeta.
  repeat lazymatch goal with
         | |- consistent (validate_sql_structure _) => apply consistent_structure
         | |- consistent (validate_performance _ _) => apply consistent_performance
         | |- consistent (analyze_query_complexity _ _) => apply consistent_complexity
         | |- consistent (_validate_hana_version_features _ _) =>
             apply consistent_version_features
         | |- _ => consistent_step
         end.
Qed.

End PassesConsistent.

(** X9: the flag [is_valid] of a validation result is false exactly
    when the result holds an error: this holds for the results of the
    five passes, of the HANA validation and of the dispatcher
    [validate_sql], for every SQL text, scenario, mode and context. *)
Theorem validation_results_consistent
        (enum : list string -> list string) (sql : string) (scenario : Scenario.t)
        (mode : DatabaseMode) (hana_version : option HanaVersion)
        (ctx : RenderContext.t) (optional_ctx : option RenderContext.t) :
  Forall consistent
         (validate_sql enum sql mode scenario hana_version optional_ctx
          :: validate_hana_sql sql scenario hana_version
          :: validation_passes enum scenario sql ctx).
Proof.
  unfold validation_passes.
  repeat (apply Forall_cons; [|]); try apply Forall_nil;
    try lazymatch goal with
        | |- consistent (validate_sql_structure _) => apply consistent_structure
        | |- consistent (validate_query_completeness _ _ _ _) =>
            apply consistent_completeness
        | |- consistent (validate_performance _ _) => apply consistent_performance
        | |- consistent (validate_snowflake_specific _ _) => apply consistent_snowflake
        | |- consistent (analyze_query_complexity _ _) => apply consistent_complexity
        | |- consistent (validate_hana_sql _ _ _) => apply consistent_hana
        | |- _ => idtac
        end.
  unfold validate_sql. destruct mode; [|apply consistent_hana].
  cbv zeta.
  repeat lazymatch goal with
         | |- consistent (validate_sql_structure _) => apply consistent_structure
         | |- consistent (validate_query_completeness _ _ _ _) =>
             apply consistent_completeness
         | |- consistent (validate_performance _ _) => apply consistent_performance
         | |- consistent (validate_snowflake_specific _ _) => apply consistent_snowflake
         | |- consistent (analyze_query_complexity _ _) => apply consistent_complexity
         | |- _ => consistent_step
         end.
Qed.

(** X10: the performance pass and the complexity analysis never report
    an error: their results hold warnings and information only and stay
    valid, whatever the SQL and the scenario, so neither of them can
    abort a rendering. *)
Theorem performance_and_complexity_never_fail (sql : string) (scenario : Scenario.t) :
  (ValidationResult.errors (validate_performance sql scenario) = [] /\
   ValidationResult.is_valid (validate_performance sql scenario) = true) /\
  (ValidationResult.errors (analyze_query_complexity sql scenario) = [] /\
   ValidationResult.is_valid (analyze_query_complexity sql scenario) = true).
Proof.
  split.
  - change (error_free (validate_performance sql scenario)).
    unfold validate_performance. cbv zeta. repeat error_free_step.
  - change (error_free (analyze_query_complexity sql scenario)).
    unfold analyze_query_complexity. cbv zeta. repeat error_free_step.
Qed.

(** X11: the dispatcher in Snowflake mode, given a context, returns the
    issues of the five passes that [render_scenario] runs, pass after
    pass: its errors, warnings and information are the concatenations
    of theirs, so it reports an error exactly when rendering with
    validation would raise. *)
Theorem validate_sql_is_the_five_passes
        (enum : list string -> list string) (sql : string) (scenario : Scenario.t)
        (hana_version : option HanaVersion) (ctx : RenderContext.t) :
  let result := validate_sql enum sql SNOWFLAKE scenario hana_version (Some ctx) in
  let all_results := validation_passes enum scenario sql ctx in
  ValidationResult.errors result = flat_map ValidationResult.errors all_results /\
  ValidationResult.warnings result = flat_map ValidationResult.warnings all_results /\
  ValidationResult.info result = flat_map ValidationResult.info all_results /\
  ValidationResult.has_errors result = existsb ValidationResult.has_errors all_results.
Proof.
  cbv zeta. unfold validate_sql, validation_passes. cbv zeta.
  assert (He : ValidationResult.errors
                 (merge (analyze_query_complexity sql scenario)
                    (merge (validate_snowflake_specific enum sql)
                       (merge (validate_performance sql scenario)
                          (merge (validate_query_completeness enum scenario sql ctx)
                             (merge (validate_sql_structure sql) ValidationResult.empty)))))
               = flat_map ValidationResult.errors
                   [validate_sql_structure sql;
                    validate_query_completeness enum scenario sql ctx;
                    validate_performance sql scenario;
                    validate_snowflake_specific enum sql;
                    analyze_query_complexity sql scenario]).
  { rewrite !merge_errors. simpl. rewrite app_nil_r, <- !app_assoc. reflexivity. }
  split; [exact He|]. split; [|split].
  - rewrite !merge_warnings. simpl. rewrite app_nil_r, <- !app_assoc. reflexivity.
  - rewrite !merge_info. simpl. rewrite app_nil_r, <- !app_assoc. reflexivity.
  - unfold ValidationResult.has_errors at 1. rewrite He. simpl.
    unfold ValidationResult.has_errors.
    destruct (ValidationResult.errors (validate_sql_structure sql)); [|reflexivity].
    destruct (ValidationResult.errors (validate_query_completeness enum scenario sql ctx));
      [|reflexivity].
    destruct (ValidationResult.errors (validate_performance sql scenario)); [|reflexivity].
    destruct (ValidationResult.errors (validate_snowflake_specific enum sql)); [|reflexivity].
    destruct (ValidationResult.errors (analyze_query_complexity sql scenario)); reflexivity.
Qed.

(** ** The structure pass on empty texts and on texts without SELECT *)

Section StructureCodes.
Import ValidationResult.

Lemma when_add_error_same c b message line r :
  has_code c (errors (when b (add_error message c line) r))
  <-> b = true \/ has_code c (errors r).
Proof.
  destruct b; simpl.
  - unfold add_error. simpl. rewrite has_code_snoc. simpl. tauto.
  - split; [tauto|]. intros [H|H]; [discriminate|assumption].
Qed.

Lemma count_from_zero sub fuel s :
  String.length s < fuel ->
  (PyStr.count_from fuel sub s = 0 <-> PyStr.find_here sub s = None).
Proof.
  revert fuel. induction s as [|c s IH]; intros fuel Hlen.
  - destruct fuel as [|fuel]; [simpl in Hlen; lia|]. simpl.
    destruct (PyStr.startswith sub EmptyString); split; congruence.
  - destruct fuel as [|fuel]; [simpl in Hlen; lia|]. simpl in Hlen.
    cbn [PyStr.count_from PyStr.find_here].
    destruct (PyStr.startswith sub (String c s)); [split; congruence|].
    rewrite (IH fuel) by lia.
    destruct (PyStr.find_here sub s); simpl; split; congruence.
Qed.

Lemma count_zero_contains c sub s :
  (PyStr.count (String c sub) s =? 0) = negb (PyStr.contains (String c sub) s).
Proof.
  unfold PyStr.count, PyStr.contains.
  pose proof (count_from_zero (String c sub) (S (String.length s)) s (Nat.lt_succ_diag_r _))
    as H.
  destruct (PyStr.find_here (String c sub) s).
  - destruct (Nat.eqb_spec (PyStr.count_from (S (String.length s)) (String c sub) s) 0)
      as [E|E]; [|reflexivity].
    apply H in E. discriminate.
  - rewrite (proj2 H eq_refl). reflexivity.
Qed.

Lemma blank_iff s :
  negb (nonempty s) || negb (nonempty (PyStr.strip s)) = true
  <-> PyStr.strip s = EmptyString.
Proof.
  destruct s as [|c s]; [simpl; tauto|]. cbn [nonempty negb orb].
  destruct (PyStr.strip (String c s)); simpl; split; congruence.
Qed.

End StructureCodes.

(** X12: the structure pass reports EMPTY_SQL exactly when the SQL text
    is empty or holds white space only, and then this error is the only
    issue of its result. *)
Theorem empty_sql_reported (sql : string) :
  (has_code "EMPTY_SQL" (ValidationResult.errors (validate_sql_structure sql))
   <-> PyStr.strip sql = EmptyString) /\
  (PyStr.strip sql = EmptyString ->
   validate_sql_structure sql
   = ValidationResult.mk false
       [ValidationIssue.mk ERROR "SQL is empty" "EMPTY_SQL" None None] [] []).
Proof.
  assert (Hblank : PyStr.strip sql = EmptyString ->
                   validate_sql_structure sql
                   = ValidationResult.mk false
                       [ValidationIssue.mk ERROR "SQL is empty" "EMPTY_SQL" None None] [] []).
  { intros H. apply blank_iff in H. unfold validate_sql_structure. now rewrite H. }
  split; [|exact Hblank]. split.
  - intros H. unfold validate_sql_structure in H.
    destruct (negb (nonempty sql) || negb (nonempty (PyStr.strip sql))) eqn:E.
    + now apply blank_iff.
    + exfalso. cbv zeta in H.
      rewrite when_add_error_other in H by discriminate.
      destruct (PyStr.contains "WITH" (PyStr.upper sql)).
      * rewrite when_add_error_other in H by discriminate.
        rewrite duplicate_ctes_other in H by discriminate.
        rewrite !when_add_warning_errors in H.
        rewrite !when_add_error_other in H by discriminate.
        now apply has_code_nil in H.
      * rewrite !when_add_warning_errors in H.
        rewrite !when_add_error_other in H by discriminate.
        now apply has_code_nil in H.
  - intros H. rewrite (Hblank H). exists (ValidationIssue.mk ERROR "SQL is empty" "EMPTY_SQL" None None).
    split; [now left|reflexivity].
Qed.

Lemma empty_sql_reported_witness :
  validate_sql_structure "   "
  = ValidationResult.mk false
      [ValidationIssue.mk ERROR "SQL is empty" "EMPTY_SQL" None None] [] [].
Proof. apply (empty_sql_reported "   "). reflexivity. Defined.

(** X13: the two errors of the structure pass about a missing SELECT
    come together: NO_SELECT is reported exactly when
    NO_SELECT_STATEMENT is, namely when the text is not blank and its
    upper-case form does not contain SELECT. *)
Theorem select_errors_come_together (sql : string) :
  let errors := ValidationResult.errors (validate_sql_structure sql) in
  (has_code "NO_SELECT" errors
   <-> PyStr.strip sql <> EmptyString /\ PyStr.contains "SELECT" (PyStr.upper sql) = false)
  /\
  (has_code "NO_SELECT_STATEMENT" errors <-> has_code "NO_SELECT" errors).
Proof.
  cbv zeta.
  assert (H1 : has_code "NO_SELECT" (ValidationResult.errors (validate_sql_structure sql))
               <-> PyStr.strip sql <> EmptyString
                   /\ PyStr.contains "SELECT" (PyStr.upper sql) = false).
  { unfold validate_sql_structure.
    destruct (negb (nonempty sql) || negb (nonempty (PyStr.strip sql))) eqn:E.
    - apply blank_iff in E. rewrite add_error_other by discriminate.
      split; [intros H; now apply has_code_nil in H|]. intros [H _]. congruence.
    - assert (Hne : PyStr.strip sql <> EmptyString).
      { intros H. apply blank_iff in H. congruence. }
      cbv zeta. rewrite when_add_error_other by discriminate.
      assert (Hcore : has_code "NO_SELECT"
                        (ValidationResult.errors
                           (when (negb (PyStr.contains "SELECT" (PyStr.upper sql)))
                                 (add_error "SQL does not contain a SELECT statement"
                                            "NO_SELECT" (Some 1))
                                 ValidationResult.empty))
                      <-> PyStr.contains "SELECT" (PyStr.upper sql) = false).
      { rewrite when_add_error_same. rewrite negb_true_iff.
        split; [intros [H|H]; [assumption|now apply has_code_nil in H]|tauto]. }
      destruct (PyStr.contains "WITH" (PyStr.upper sql)).
      + rewrite when_add_error_other by discriminate.
        rewrite duplicate_ctes_other by discriminate.
        rewrite !when_add_warning_errors.
        rewrite when_add_error_other by discriminate. rewrite Hcore. tauto.
      + rewrite !when_add_warning_errors.
        rewrite when_add_error_other by discriminate. rewrite Hcore. tauto. }
  split; [exact H1|]. rewrite H1.
  unfold validate_sql_structure.
  destruct (negb (nonempty sql) || negb (nonempty (PyStr.strip sql))) eqn:E.
  - apply blank_iff in E. rewrite add_error_other by discriminate.
    split; [intros H; now apply has_code_nil in H|]. intros [H _]. congruence.
  - assert (Hne : PyStr.strip sql <> EmptyString).
    { intros H. apply blank_iff in H. congruence. }
    cbv zeta. rewrite when_add_error_same.
    change "SELECT" with (String "S" "ELECT") at 1. rewrite count_zero_contains.
    rewrite negb_true_iff.
    assert (Hrest : forall r,
               has_code "NO_SELECT_STATEMENT" (ValidationResult.errors r) <-> False ->
               (PyStr.contains "SELECT" (PyStr.upper sql) = false
                \/ has_code "NO_SELECT_STATEMENT" (ValidationResult.errors r))
               <-> PyStr.strip sql <> EmptyString
                   /\ PyStr.contains "SELECT" (PyStr.upper sql) = false) by tauto.
    apply Hrest.
    destruct (PyStr.contains "WITH" (PyStr.upper sql)).
    + rewrite when_add_error_other by discriminate.
      rewrite duplicate_ctes_other by discriminate.
      rewrite !when_add_warning_errors.
      rewrite !when_add_error_other by discriminate.
      split; [apply has_code_nil|tauto].
    + rewrite !when_add_warning_errors.
      rewrite !when_add_error_other by discriminate.
      split; [apply has_code_nil|tauto].
Qed.

(** ** Version checks of HANA *)

Ltac compare_versions :=
  repeat match goal with
         | |- context [version_lt ?a ?b] =>
             let v := eval vm_compute in (version_lt a b) in
             change (version_lt a b) with v
         end.

(** X14: the members of [HanaVersion] are compared as strings, and no
    member is below "1.0": the check for ADD_MONTHS never reports, for
    no SQL and no version; an error of the version checks can only come
    with the versions 1.0 and 2.0, and for 2.0 SPS03 and 2.0 SPS04 the
    checks report nothing at all. *)
Theorem hana_version_checks (sql : string) (version : HanaVersion) :
  let result := _validate_hana_version_features sql version in
  ~ has_code "HANA_VERSION_ADD_MONTHS" (ValidationResult.errors result) /\
  (ValidationResult.has_errors result = true ->
   version = HANA_1_0 \/ version = HANA_2_0) /\
  (version = HANA_2_0_SPS03 \/ version = HANA_2_0_SPS04 ->
   result = ValidationResult.empty).
Proof.
  cbv zeta. split; [|split].
  - unfold _validate_hana_version_features. cbv zeta.
    destruct version; compare_versions; cbv iota;
      rewrite ?when_add_warning_errors, ?when_add_error_other by discriminate;
      apply has_code_nil.
  - destruct version; auto; unfold _validate_hana_version_features; cbv zeta;
      compare_versions; cbv iota; unfold ValidationResult.has_errors;
      rewrite ?when_add_warning_errors; discriminate.
  - intros [-> | ->]; reflexivity.
Qed.

Lemma hana_version_checks_witness :
  _validate_hana_version_features "SELECT ADD_MONTHS(D, 1) FROM T INTERSECT SELECT 1 FROM T"
                                  HANA_2_0_SPS04
  = ValidationResult.empty.
Proof.
  apply (hana_version_checks "SELECT ADD_MONTHS(D, 1) FROM T INTERSECT SELECT 1 FROM T"
                             HANA_2_0_SPS04).
  right. reflexivity.
Defined.

(** ** Aliases of the common table expressions *)

Section Aliases.
Import PyStr.

Lemma dict_get_set_same {A} k (v : A) d : Dict.get k (Dict.set k v d) = Some v.
Proof.
  induction d as [|[k' v'] d IH]; simpl.
  - now rewrite String.eqb_refl.
  - destruct (String.eqb k k') eqn:E; simpl; rewrite ?String.eqb_refl, ?E; auto.
Qed.

Lemma dict_get_set_other {A} k k' (v : A) d :
  k' <> k -> Dict.get k' (Dict.set k v d) = Dict.get k' d.
Proof.
  intros Hne. induction d as [|[k0 v0] d IH]; simpl.
  - destruct (String.eqb_spec k' k); [congruence|reflexivity].
  - destruct (String.eqb_spec k k0) as [->|Hk]; simpl.
    + destruct (String.eqb_spec k' k0); [congruence|reflexivity].
    + destruct (String.eqb k' k0); [reflexivity|exact IH].
Qed.

Lemma replace_char_count x o new fuel s :
  String.length s < fuel ->
  count_char x (replace_from fuel (String o EmptyString) new s)
  = count_char x new * count_char o s
    + (if Ascii.eqb o x then 0 else count_char x s).
Proof.
  revert fuel. induction s as [|c s IH]; intros fuel Hlen.
  - destruct fuel; simpl; destruct (Ascii.eqb o x); lia.
  - destruct fuel as [|fuel]; [simpl in Hlen; lia|]. simpl in Hlen.
    cbn [replace_from startswith]. rewrite andb_true_r.
    cbn [String.length drop count_char].
    destruct (Ascii.eqb_spec o c) as [->|Hoc].
    + rewrite StringFacts.count_char_app, (IH fuel) by lia.
      rewrite Ascii.eqb_refl.
      destruct (Ascii.eqb c x); lia.
    + cbn [count_char]. rewrite (IH fuel) by lia.
      destruct (Ascii.eqb_spec c o) as [E|_]; [congruence|].
      destruct (Ascii.eqb_spec o x) as [->|Hox].
      * destruct (Ascii.eqb_spec c x); [congruence|]. lia.
      * lia.
Qed.

Lemma replace_char_gone o new s :
  count_char o new = 0 -> count_char o (replace (String o EmptyString) new s) = 0.
Proof.
  intros H. unfold replace. rewrite replace_char_count by lia.
  rewrite H, Ascii.eqb_refl. lia.
Qed.

Lemma replace_char_kept x o new s :
  x <> o -> count_char x new = 0 ->
  count_char x (replace (String o EmptyString) new s) = count_char x s.
Proof.
  intros Hne H. unfold replace. rewrite replace_char_count by lia.
  rewrite H. destruct (Ascii.eqb_spec o x); [congruence|]. lia.
Qed.

End Aliases.

(** X15: [get_cte_alias] never fails, and it remembers: after a call
    the alias of the node is in the map of the context, a second call
    returns the same alias and leaves the context as it is, the aliases
    of the other nodes are untouched, and a node that had an alias
    keeps it with the context unchanged. *)
Theorem get_cte_alias_cached (node_id : string) (ctx : RenderContext.t) :
  exists alias,
    let ctx1 := snd (get_cte_alias node_id ctx) in
    fst (get_cte_alias node_id ctx) = Ok alias /\
    Dict.get node_id (RenderContext.cte_aliases ctx1) = Some alias /\
    get_cte_alias node_id ctx1 = (Ok alias, ctx1) /\
    (forall other, other <> node_id ->
                   Dict.get other (RenderContext.cte_aliases ctx1)
                   = Dict.get other (RenderContext.cte_aliases ctx)) /\
    (Dict.mem node_id (RenderContext.cte_aliases ctx) = true -> ctx1 = ctx).
Proof.
  cbv zeta. rewrite (get_cte_alias_run node_id ctx). unfold Dict.mem.
  destruct (Dict.get node_id (RenderContext.cte_aliases ctx)) as [alias|] eqn:E;
    cbn [fst snd].
  - exists alias. repeat split; auto.
    rewrite get_cte_alias_run. now rewrite E.
  - eexists. split; [reflexivity|]. split; [apply dict_get_set_same|].
    split; [|split; [|discriminate]].
    + rewrite get_cte_alias_run. simpl. now rewrite dict_get_set_same.
    + intros other Hne. now apply dict_get_set_other.
Qed.

(** X16: an alias that [get_cte_alias] makes for a node without one
    holds no space and no slash, whatever the id of the node. *)
Theorem fresh_cte_alias_characters (node_id alias : string) (ctx ctx1 : RenderContext.t) :
  Dict.get node_id (RenderContext.cte_aliases ctx) = None ->
  get_cte_alias node_id ctx = (Ok alias, ctx1) ->
  PyStr.count_char " " alias = 0 /\ PyStr.count_char "/" alias = 0.
Proof.
  intros Hnew Hrun. rewrite get_cte_alias_run, Hnew in Hrun.
  cbv zeta in Hrun.
  remember (PyStr.replace "/" "_" _) as normalized eqn:En in Hrun.
  injection Hrun as <- _. subst normalized.
  split.
  - rewrite replace_char_kept; [|discriminate|reflexivity].
    now apply replace_char_gone.
  - now apply replace_char_gone.
Qed.

Lemma fresh_cte_alias_characters_witness :
  fst (get_cte_alias "#/0/Star Join/Join 1" empty_context) = Ok "star_join_join_1" /\
  PyStr.count_char " " "star_join_join_1" = 0 /\ PyStr.count_char "/" "star_join_join_1" = 0.
Proof.
  split; [reflexivity|].
  apply (fresh_cte_alias_characters "#/0/Star Join/Join 1" "star_join_join_1" empty_context
           (snd (get_cte_alias "#/0/Star Join/Join 1" empty_context)));
    reflexivity.
Defined.

(** ** The terminal node in general *)

Section FindLast.

Context {A : Type} (p : A -> bool).

Lemma find_app l1 l2 :
  find p (l1 ++ l2) = match find p l1 with Some x => Some x | None => find p l2 end.
Proof. induction l1 as [|a l1 IH]; simpl; [reflexivity|]. now destruct (p a). Qed.

(** The first hit of a search from the end is the last hit in the
    list. *)
Lemma find_rev_some l n :
  find p (rev l) = Some n ->
  exists l1 l2, l = (l1 ++ n :: l2)%list /\ p n = true /\ forall m, In m l2 -> p m = false.
Proof.
  induction l as [|a l IH]; simpl; [discriminate|].
  rewrite find_app. destruct (find p (rev l)) as [x|] eqn:E.
  - intros H. injection H as ->. destruct (IH eq_refl) as (l1 & l2 & -> & Hp & Hl2).
    exists (a :: l1), l2. auto.
  - simpl. destruct (p a) eqn:Ea; [|discriminate]. intros H. injection H as ->.
    exists [], l. repeat split; auto.
    intros m Hm. apply (find_none p (rev l) E). now apply in_rev in Hm.
Qed.

Lemma find_rev_none l : find p (rev l) = None -> forall m, In m l -> p m = false.
Proof. intros H m Hm. apply (find_none p (rev l) H). now apply in_rev in Hm. Qed.

End FindLast.

Lemma last_in {A} (l : list A) (d : A) : l <> [] -> In (List.last l d) l.
Proof.
  induction l as [|a l IH]; [congruence|]. intros _.
  destruct l as [|b l]; [now left|]. right. apply IH. discriminate.
Qed.

(** X17: the terminal node in general.  Without ordered ids there is
    none.  Otherwise a base node declared by the logical model is the
    terminal node, whether or not it is among the ordered ids; without
    such a declaration the terminal node is the last of the ordered ids
    that is a node and is no input of any node (the inputs compared
    after removal of their leading '#' characters), and when there is
    no such id it is the last of the ordered ids. *)
Theorem find_final_node_cases (scenario : Scenario.t) (ordered : list string) :
  (ordered = [] -> _find_final_node scenario ordered = None) /\
  (ordered <> [] ->
   match base_node scenario with
   | Some declared => _find_final_node scenario ordered = Some declared
   | None =>
       let free node_id :=
         negb (str_in node_id (referenced scenario))
         && Dict.mem node_id (Scenario.nodes scenario) in
       exists final,
         _find_final_node scenario ordered = Some final /\ In final ordered /\
         ((exists before after,
              ordered = (before ++ final :: after)%list /\ free final = true /\
              forall later, In later after -> free later = false)
          \/ ((forall node_id, In node_id ordered -> free node_id = false) /\
              final = List.last ordered EmptyString))
   end).
Proof.
  split; [intros ->; reflexivity|].
  intros Hne. unfold _find_final_node.
  destruct ordered as [|first rest]; [congruence|].
  destruct (base_node scenario) as [declared|]; [reflexivity|].
  cbv zeta.
  destruct (find _ (rev (first :: rest))) as [final|] eqn:E.
  - destruct (find_rev_some _ _ _ E) as (l1 & l2 & Hdec & Hp & Hl2).
    exists final. split; [reflexivity|]. split.
    + rewrite Hdec. apply in_or_app. right. now left.
    + left. exists l1, l2. auto.
  - exists (List.last (first :: rest) EmptyString). split; [reflexivity|]. split.
    + apply last_in. discriminate.
    + right. split; [|reflexivity]. exact (find_rev_none _ _ E).
Qed.

Lemma find_final_node_cases_witness :
  exists final, _find_final_node dag_scenario ["T"; "P"; "Q"] = Some final /\
                In final ["T"; "P"; "Q"].
Proof.
  pose proof (proj2 (find_final_node_cases dag_scenario ["T"; "P"; "Q"])
                ltac:(discriminate)) as H.
  simpl base_node in H. cbv zeta in H.
  destruct H as (final & Hf & Hin & _). exists final. split; assumption.
Defined.

(** ** Renders without a rendered terminal node *)

Lemma topological_sort_empty enum scenario :
  enum_ok enum ->
  Scenario.data_sources scenario = [] -> Scenario.nodes scenario = [] ->
  _topological_sort enum scenario = Some [].
Proof.
  intros Henum Hds Hnodes. unfold _topological_sort, all_ids.
  rewrite Hds, Hnodes. simpl. rewrite (enum_nil enum Henum). reflexivity.
Qed.

(** X18: a scenario without data sources and without nodes has no
    terminal node, whatever its logical model says.  With validation
    the render raises the MISSING_FINAL_NODE message; without
    validation it returns the placeholder SQL, with the warning as a
    comment, and no CREATE VIEW statement even when a view is asked
    for. *)
Theorem render_empty_scenario
        (C : Collaborators) (enum : list string -> list string)
        (scenario : Scenario.t)
        (schema_overrides : option (Dict.t string))
        (target_schema client language : option string)
        (database_mode : DatabaseMode)
        (hana_version : option HanaVersion)
        (xml_format : option XMLFormat)
        (create_view : bool)
        (view_name : option string)
        (currency_udf currency_schema currency_table : option string)
        (return_warnings : bool) :
  enum_ok enum ->
  Scenario.data_sources scenario = [] ->
  Scenario.nodes scenario = [] ->
  fst (render_scenario C enum scenario schema_overrides target_schema client language
                       database_mode hana_version xml_format create_view view_name
                       currency_udf currency_schema currency_table return_warnings true)
  = Raise ("SQL validation failed: [ERROR] MISSING_FINAL_NODE: " ++ missing_final_node)
  /\
  fst (render_scenario C enum scenario schema_overrides target_schema client language
                       database_mode hana_version xml_format create_view view_name
                       currency_udf currency_schema currency_table return_warnings false)
  = Ok (if return_warnings then SqlAndWarnings placeholder_sql [missing_final_node]
        else Sql placeholder_sql).
Proof.
  intros Henum Hds Hnodes. unfold render_scenario.
  rewrite !render_body_unfold, !new_context_scenario.
  rewrite (topological_sort_empty enum scenario Henum Hds Hnodes).
  split.
  - reflexivity.
  - destruct return_warnings; reflexivity.
Qed.

Lemma render_empty_scenario_witness :
  fst (render_scenario plain_collaborators nodup_order (scenario_of [] [])
                       None None None None SNOWFLAKE None None true (Some "V")
                       None None None false false)
  = Ok (Sql placeholder_sql).
Proof.
  apply (render_empty_scenario plain_collaborators nodup_order (scenario_of [] [])
           None None None None SNOWFLAKE None None true (Some "V") None None None false
           nodup_order_ok eq_refl eq_refl).
Defined.

(** X19: when the terminal node is a data source, the SQL is never
    validated: [render_scenario] gives the same result and leaves the
    same context with validation and without it.  The collaborators
    are taken not to write to the scenario. *)
Theorem data_source_terminal_skips_validation
        (C : Collaborators) (enum : list string -> list string)
        (scenario : Scenario.t)
        (schema_overrides : option (Dict.t string))
        (target_schema client language : option string)
        (database_mode : DatabaseMode)
        (hana_version : option HanaVersion)
        (xml_format : option XMLFormat)
        (create_view : bool)
        (view_name : option string)
        (currency_udf currency_schema currency_table : option string)
        (return_warnings : bool) (ordered : list string) :
  read_only C ->
  _topological_sort enum scenario = Some ordered ->
  terminal_data_source scenario ordered = true ->
  render_scenario C enum scenario schema_overrides target_schema client language
                  database_mode hana_version xml_format create_view view_name
                  currency_udf currency_schema currency_table return_warnings true
  = render_scenario C enum scenario schema_overrides target_schema client language
                    database_mode hana_version xml_format create_view view_name
                    currency_udf currency_schema currency_table return_warnings false.
Proof.
  intros HC Hsort Hterm. unfold render_scenario.
  rewrite !render_body_unfold, !new_context_scenario, Hsort.
  set (ctx0 := new_context _ _ _ _ _ _ _ _ _ _ _).
  pose proof (preserves_cte_loop C HC ordered [] ctx0) as Hsc.
  unfold render_ordered, bind.
  destruct (foldM (render_cte C) ordered [] ctx0) as [[ctes|e|] ctx1]; try reflexivity.
  change (RenderContext.scenario ctx1 = scenario) in Hsc.
  unfold the_scenario, bind, ask, ret. cbv beta iota. rewrite Hsc.
  unfold terminal_data_source in Hterm.
  destruct (_find_final_node scenario ordered) as [final|]; [|discriminate].
  apply andb_true_iff in Hterm as [Hne Hmem].
  destruct final as [|c final]; [discriminate|].
  cbn [truthy negb or_else]. cbv beta iota zeta. rewrite Hmem. reflexivity.
Qed.

Lemma data_source_terminal_skips_validation_witness :
  render_with_warnings plain_collaborators nodup_order (scenario_of [table "T1"] []) true
  = render_with_warnings plain_collaborators nodup_order (scenario_of [table "T1"] []) false
  /\ fst (render_with_warnings plain_collaborators nodup_order
            (scenario_of [table "T1"] []) true)
     = Ok (SqlAndWarnings "SELECT * FROM S.T1" []).
Proof.
  split; [|vm_compute; reflexivity].
  apply (data_source_terminal_skips_validation plain_collaborators nodup_order
           (scenario_of [table "T1"] []) None None None None SNOWFLAKE None None
           false None None None None true ["T1"] plain_collaborators_read_only);
    vm_compute; reflexivity.
Defined.

(** ** Filters other than comparisons *)

Lemma foldM_map_ext {A A' B} (f : B -> A' -> M B) (g : B -> A -> M B) (h : A -> A')
      (l : list A) :
  (forall acc x ctx, In x l -> f acc (h x) ctx = g acc x ctx) ->
  forall acc ctx, foldM f (map h l) acc ctx = foldM g l acc ctx.
Proof.
  induction l as [|x l IH]; intros H acc ctx; simpl; [reflexivity|].
  unfold bind. rewrite (H acc x ctx (or_introl eq_refl)).
  destruct (g acc x ctx) as [[acc'|e|] ctx']; try reflexivity.
  apply IH. intros acc0 y ctx0 Hy. apply H. now right.
Qed.

(** X20: the flag [including] only matters for comparisons: a list of
    filters without a COMPARISON predicate is rendered to the same text,
    with the same effect on the context, whatever the flags are set to;
    an excluding IS NULL filter is rendered as [... IS NULL] like an
    including one. *)
Theorem including_only_affects_comparisons
        (C : Collaborators) (filters : list Predicate.t) (table_alias : option string)
        (flag : bool) (ctx : RenderContext.t) :
  Forall (fun pred => Predicate.kind pred <> PredicateKind.COMPARISON) filters ->
  _render_filters C (map (with_including flag) filters) table_alias ctx
  = _render_filters C filters table_alias ctx.
Proof.
  intros Hall. unfold _render_filters.
  destruct filters as [|pred filters]; [reflexivity|].
  cbn [map]. unfold bind, filter_conditions.
  change (with_including flag pred :: map (with_including flag) filters)
    with (map (with_including flag) (pred :: filters)).
  rewrite (foldM_map_ext _ (fun conditions pred0 =>
                              added <- render_predicate C table_alias pred0 ;;
                              ret (conditions ++ added)%list)
                         (with_including flag) (pred :: filters)); [reflexivity|].
  intros acc x ctx0 Hx. rewrite Forall_forall in Hall. specialize (Hall x Hx).
  unfold bind, render_predicate. cbn [with_including Predicate.kind Predicate.left].
  destruct (Predicate.kind x); try reflexivity. congruence.
Qed.

Lemma including_only_affects_comparisons_witness :
  let is_null := Predicate.mk PredicateKind.IS_NULL (column "STATUS") None None true in
  _render_filters plain_collaborators (map (with_including false) [is_null]) (Some "t")
                  empty_context
  = (Ok "t.STATUS IS NULL", empty_context).
Proof.
  cbv zeta.
  rewrite (including_only_affects_comparisons plain_collaborators
             [Predicate.mk PredicateKind.IS_NULL (column "STATUS") None None true]
             (Some "t") false empty_context).
  - reflexivity.
  - repeat constructor. discriminate.
Defined.

(** ** Cleaning keeps a suffix *)

Lemma take_drop n s : s = PyStr.take n s ++ PyStr.drop n s.
Proof.
  revert s. induction n as [|n IH]; intros [|c s]; simpl; try reflexivity.
  now rewrite <- IH.
Qed.

(** X21: cleaning a reference only removes from its front: the cleaned
    reference is the stripped reference without a prefix; the prefix is
    empty exactly when the stripped reference does not start with '#',
    and a prefix that is removed starts with '#'. *)
Theorem clean_ref_is_suffix (value : string) :
  exists prefix,
    PyStr.strip value = prefix ++ _clean_ref value /\
    (PyStr.startswith "#" (PyStr.strip value) = false -> prefix = EmptyString) /\
    (PyStr.startswith "#" (PyStr.strip value) = true -> PyStr.startswith "#" prefix = true).
Proof.
  destruct (PyStr.startswith "#" (PyStr.strip value)) eqn:E.
  - assert (Hk : exists k, 0 < k /\ _clean_ref value = PyStr.drop k (PyStr.strip value)).
    { unfold _clean_ref. cbv zeta.
      destruct (PyStr.startswith "#//" (PyStr.strip value)); [exists 3; split; [lia|reflexivity]|].
      destruct (PyStr.startswith "#/" (PyStr.strip value)).
      - destruct (PyStr.find "/" (PyStr.strip value) 2 >? 0)%Z.
        + eexists. split; [|reflexivity]. lia.
        + exists 2. split; [lia|reflexivity].
      - rewrite E. exists 1. split; [lia|reflexivity]. }
    destruct Hk as (k & Hk & Hclean).
    exists (PyStr.take k (PyStr.strip value)). rewrite Hclean.
    split; [apply take_drop|]. split; [discriminate|]. intros _.
    destruct (PyStr.strip value) as [|c s]; [discriminate|].
    destruct k as [|k]; [lia|]. exact E.
  - exists EmptyString. rewrite (clean_ref_unmarked value E).
    split; [reflexivity|]. split; [reflexivity|discriminate].
Qed.

(** ** The range of the inferred literal types *)

(** X22: the type inferred for a literal.  There is none exactly when
    the literal is blank.  A number comes with a length between 1 and
    38, a text with a length of at least 10, a date with no length, and
    no other type and never a scale is inferred. *)
Theorem guess_literal_type_range (value : string) :
  (guess_literal_type value = None <-> PyStr.strip value = EmptyString) /\
  (forall spec, guess_literal_type value = Some spec ->
     DataTypeSpec.scale spec = None /\
     match DataTypeSpec.type spec with
     | NUMBER => exists n, DataTypeSpec.length spec = Some n /\ (1 <= n <= 38)%Z
     | VARCHAR => exists n, DataTypeSpec.length spec = Some n /\ (10 <= n)%Z
     | DATE => DataTypeSpec.length spec = None
     | _ => False
     end).
Proof.
  unfold guess_literal_type. cbv zeta.
  destruct (PyStr.strip value) as [|c s] eqn:E.
  - split; [tauto|]. intros spec H. discriminate.
  - cbv iota. destruct (PyStr.isdigit (String c s)).
    + split; [split; intros H; discriminate|].
      intros spec H. injection H as <-. simpl. split; [reflexivity|].
      eexists. split; [reflexivity|]. lia.
    + destruct (is_some _ || is_some _).
      * split; [split; intros H; discriminate|].
        intros spec H. injection H as <-. simpl. split; reflexivity.
      * split; [split; intros H; discriminate|].
        intros spec H. injection H as <-. simpl. split; [reflexivity|].
        eexists. split; [reflexivity|]. lia.
Qed.

Lemma guess_literal_type_range_witness :
  guess_literal_type (" 1234567890123456789012345678901234567890 ")
  = Some (DataTypeSpec.mk NUMBER (Some 38%Z) None) /\
  DataTypeSpec.scale (DataTypeSpec.mk NUMBER (Some 38%Z) None) = None.
Proof.
  split; [vm_compute; reflexivity|].
  apply (proj2 (guess_literal_type_range " 1234567890123456789012345678901234567890 ")
               (DataTypeSpec.mk NUMBER (Some 38%Z) None)).
  vm_compute. reflexivity.
Defined.

(** ** The checks of the names of the CTEs and of the nodes *)

Section CteChecks.
Import ValidationResult.

Lemma has_duplicate_spec names :
  forall seen,
    has_duplicate seen names = false
    <-> NoDup names /\ forall name, In name names -> ~ In name seen.
Proof.
  induction names as [|name tl IH]; intros seen; simpl.
  - split; [intros _; split; [constructor|intros ? []]|reflexivity].
  - rewrite orb_false_iff, IH, str_in_false_iff. unfold snoc. split.
    + intros (Hseen & Hnd & Hdisj). split.
      * constructor; [|assumption].
        intros Hin. apply (Hdisj name Hin). apply in_or_app. right. now left.
      * intros x [<-|Hx]; [assumption|].
        intros Hs. apply (Hdisj x Hx). apply in_or_app. now left.
    + intros (Hnd & Hdisj). inversion Hnd as [|? ? Hnotin Hnd']; subst.
      split; [apply Hdisj; now left|]. split; [assumption|].
      intros x Hx Hs. apply in_app_or in Hs as [Hs|[<-|[]]].
      * apply (Hdisj x); [now right|assumption].
      * contradiction.
Qed.

Lemma duplicate_ctes_reported names :
  forall i seen r,
    has_code "DUPLICATE_CTE" (errors (duplicate_ctes i names seen r))
    <-> has_code "DUPLICATE_CTE" (errors r) \/ has_duplicate seen names = true.
Proof.
  induction names as [|name tl IH]; intros i seen r; simpl.
  - split; [tauto|]. intros [H|H]; [assumption|discriminate].
  - rewrite IH, when_add_error_same, orb_true_iff. tauto.
Qed.

Lemma for_each_errors {A} (l : list A) f r :
  (forall x r', errors (f x r') = errors r') -> errors (for_each l f r) = errors r.
Proof.
  intros Hf. unfold for_each. revert r.
  induction l as [|x l IH]; intros r; simpl; [reflexivity|].
  now rewrite IH, Hf.
Qed.

Lemma when_errors b f r :
  (forall r', errors (f r') = errors r') -> errors (when b f r) = errors r.
Proof. intros Hf. destruct b; simpl; auto. Qed.

Lemma for_each_add_error_codes c {A} (l : list A) (p : A -> bool) (m : A -> string) r :
  Forall (fun e => ValidationIssue.code e = c) (errors r) ->
  Forall (fun e => ValidationIssue.code e = c)
         (errors (for_each l (fun x => when (p x) (add_error (m x) c None)) r)).
Proof.
  unfold for_each. revert r. induction l as [|x l IH]; intros r Hr; simpl; [assumption|].
  apply IH. destruct (p x); simpl; [|assumption].
  unfold snoc. apply Forall_app. split; [assumption|]. now repeat constructor.
Qed.

Lemma for_each_add_error c {A} (l : list A) (p : A -> bool) (m : A -> string) r :
  has_code c (errors (for_each l (fun x => when (p x) (add_error (m x) c None)) r))
  <-> has_code c (errors r) \/ exists x, In x l /\ p x = true.
Proof.
  unfold for_each. revert r. induction l as [|x l IH]; intros r; simpl.
  - split; [tauto|]. intros [H|(x & [] & _)]. assumption.
  - rewrite IH, when_add_error_same. split.
    + intros [[H|H]|(y & Hy & Hp)]; eauto.
    + intros [H|(y & [<-|Hy] & Hp)]; eauto.
Qed.

End CteChecks.

Ltac same_errors :=
  cbv beta;
  repeat match goal with |- context [let '(_, _) := ?p in _] => destruct p end;
  cbv zeta;
  repeat (rewrite when_errors; [|intros; same_errors]);
  try reflexivity.

(** X23: the structure pass reports DUPLICATE_CTE exactly when the text
    is not blank, holds WITH in upper case, and two of the names found
    in front of [AS (] are the same in upper case. *)
Theorem duplicate_cte_reported (sql : string) :
  has_code "DUPLICATE_CTE" (ValidationResult.errors (validate_sql_structure sql))
  <-> PyStr.strip sql <> EmptyString
      /\ PyStr.contains "WITH" (PyStr.upper sql) = true
      /\ ~ NoDup (map PyStr.upper (Re.findall1 true re_cte sql)).
Proof.
  unfold validate_sql_structure.
  destruct (negb (nonempty sql) || negb (nonempty (PyStr.strip sql))) eqn:E.
  - apply blank_iff in E. rewrite add_error_other by discriminate.
    split; [intros H; now apply has_code_nil in H|]. intros [H _]. congruence.
  - assert (Hne : PyStr.strip sql <> EmptyString).
    { intros H. apply blank_iff in H. congruence. }
    cbv zeta. rewrite when_add_error_other by discriminate.
    destruct (PyStr.contains "WITH" (PyStr.upper sql)).
    + rewrite when_add_error_other by discriminate.
      rewrite duplicate_ctes_reported.
      rewrite !when_add_warning_errors.
      rewrite !when_add_error_other by discriminate.
      set (names := map PyStr.upper (Re.findall1 true re_cte sql)).
      pose proof (has_duplicate_spec names []) as Hspec.
      split.
      * intros [H|H]; [now apply has_code_nil in H|].
        split; [assumption|]. split; [reflexivity|].
        intros Hnd. assert (Hf : has_duplicate [] names = false).
        { apply Hspec. split; [assumption|]. intros ? _ []. }
        congruence.
      * intros (_ & _ & Hdup). right.
        destruct (has_duplicate [] names) eqn:Ed; [reflexivity|].
        exfalso. apply Hdup. now apply Hspec.
    + rewrite !when_add_warning_errors.
      rewrite !when_add_error_other by discriminate.
      split; [intros H; now apply has_code_nil in H|].
      intros (_ & H & _). discriminate.
Qed.

(** X24: the completeness pass reports MISSING_NODE exactly when the
    context holds an alias for an id that is neither a node nor a data
    source of the scenario, and it reports no other error, whatever the
    SQL. *)
Theorem missing_node_reported
        (enum : list string -> list string) (scenario : Scenario.t) (sql : string)
        (ctx : RenderContext.t) :
  let errors :=
    ValidationResult.errors (validate_query_completeness enum scenario sql ctx) in
  (has_code "MISSING_NODE" errors
   <-> exists node_id,
         In node_id (Dict.keys (RenderContext.cte_aliases ctx)) /\
         Dict.mem node_id (Scenario.nodes scenario) = false /\
         Dict.mem node_id (Scenario.data_sources scenario) = false) /\
  (forall code, has_code code errors -> code = "MISSING_NODE").
Proof.
  cbv zeta.
  assert (Herr : ValidationResult.errors (validate_query_completeness enum scenario sql ctx)
                 = ValidationResult.errors
                     (for_each (Dict.keys (RenderContext.cte_aliases ctx))
                        (fun node_id =>
                           when (negb (Dict.mem node_id (Scenario.nodes scenario))
                                 && negb (Dict.mem node_id (Scenario.data_sources scenario)))
                                (add_error ("Node " ++ node_id
                                            ++ " referenced but not found in scenario")
                                           "MISSING_NODE" None))
                        ValidationResult.empty)).
  { unfold validate_query_completeness. cbv zeta.
    destruct (Scenario.nodes scenario) eqn:En;
      repeat match goal with
             | |- context [ValidationResult.errors (when ?b ?f ?r)] =>
                 rewrite (when_errors b f r) by (intros; same_errors)
             | |- context [ValidationResult.errors (for_each ?l ?f ?r)] =>
                 rewrite (for_each_errors l f r) by (intros; same_errors)
             end; reflexivity. }
  rewrite Herr. split.
  - rewrite (for_each_add_error "MISSING_NODE" _
               (fun node_id => negb (Dict.mem node_id (Scenario.nodes scenario))
                               && negb (Dict.mem node_id (Scenario.data_sources scenario)))
               (fun node_id => "Node " ++ node_id ++ " referenced but not found in scenario")).
    split.
    + intros [H|(x & Hx & Hp)]; [now apply has_code_nil in H|].
      apply andb_true_iff in Hp as [H1 H2]. apply negb_true_iff in H1, H2. eauto.
    + intros (x & Hx & H1 & H2). right. exists x. split; [assumption|].
      now rewrite H1, H2.
  - intros code (e & He & Hcode).
    pose proof (for_each_add_error_codes "MISSING_NODE"
                  (Dict.keys (RenderContext.cte_aliases ctx))
                  (fun node_id => negb (Dict.mem node_id (Scenario.nodes scenario))
                                  && negb (Dict.mem node_id (Scenario.data_sources scenario)))
                  (fun node_id => "Node " ++ node_id ++ " referenced but not found in scenario")
                  ValidationResult.empty (Forall_nil _)) as Hall.
    rewrite Forall_forall in Hall. rewrite <- Hcode. now apply Hall.
Qed.

(** ** What a match consumes *)

Section Matcher.

Variable icase : bool.

Lemma advances_refl st : advances st st [].
Proof. split; simpl; [reflexivity|lia]. Qed.

Lemma advances_trans st1 st2 st3 w1 w2 :
  advances st1 st2 w1 -> advances st2 st3 w2 -> advances st1 st3 (w1 ++ w2).
Proof.
  intros [H1 P1] [H2 P2]. split.
  - rewrite H1, H2. now rewrite app_assoc.
  - rewrite P2, P1, length_app. lia.
Qed.

Lemma advances_step c tl st : Re.rest st = c :: tl -> advances st (Re.step c tl st) [c].
Proof. intros H. split; simpl; [assumption|lia]. Qed.

Lemma run_rep R greedy lo hi body st k :
  Re.run icase R (Re.Rep greedy lo hi body) st k
  = rep_loop R greedy lo hi (fun st' k' => Re.run icase R body st' k') k
             (List.length (Re.rest st) + lo + 1) 0 st.
Proof. reflexivity. Qed.

Lemma rep_loop_sound R greedy lo hi body (k : Re.mstate -> option R) x :
  sound icase body ->
  forall fuel n st,
    rep_loop R greedy lo hi (fun st' k' => Re.run icase R body st' k') k fuel n st = Some x ->
    exists w st',
      advances st st' w /\
      (exists ws, w = concat ws /\ Forall (lang icase body) ws) /\
      k st' = Some x.
Proof.
  intros Hbody. induction fuel as [|fuel IH]; intros n st H; [discriminate|].
  assert (Hstop : k st = Some x ->
                  exists w st', advances st st' w /\
                                (exists ws, w = concat ws /\ Forall (lang icase body) ws) /\
                                k st' = Some x).
  { intros Hk. exists [], st. split; [apply advances_refl|].
    split; [exists []; split; [reflexivity|constructor]|assumption]. }
  assert (Hmore : Re.run icase R body st
                    (fun st' => if (Re.pos st <? Re.pos st') || (n <? lo)
                                then rep_loop R greedy lo hi
                                       (fun st'0 k' => Re.run icase R body st'0 k') k
                                       fuel (S n) st'
                                else None) = Some x ->
                  exists w st', advances st st' w /\
                                (exists ws, w = concat ws /\ Forall (lang icase body) ws) /\
                                k st' = Some x).
  { intros Hrun. apply Hbody in Hrun as (w1 & st1 & Hadv1 & Hl1 & Hk1).
    destruct ((Re.pos st <? Re.pos st1) || (n <? lo)); [|discriminate].
    apply IH in Hk1 as (w2 & st2 & Hadv2 & (ws & -> & Hws) & Hk2).
    exists (w1 ++ concat ws)%list, st2. split; [now apply advances_trans with st1|].
    split; [|assumption]. exists (w1 :: ws). split; [reflexivity|now constructor]. }
  cbn [rep_loop] in H. destruct greedy.
  - destruct (Re.below n hi).
    + match type of H with
      | match ?e with _ => _ end = _ => destruct e eqn:E
      end.
      * injection H as ->. now apply Hmore.
      * destruct (lo <=? n); [now apply Hstop|discriminate].
    + destruct (lo <=? n); [now apply Hstop|discriminate].
  - destruct (lo <=? n).
    + destruct (k st) eqn:Ek.
      * injection H as ->. now apply Hstop.
      * destruct (Re.below n hi); [now apply Hmore|discriminate].
    + destruct (Re.below n hi); [now apply Hmore|discriminate].
Qed.

(** Whatever a pattern hands to its continuation lies after a text of
    its language. *)
Lemma run_sound r : sound icase r.
Proof.
  induction r as [| p | | neg items | a IHa b IHb | a IHa b IHb
                  | greedy lo hi body IH | i body IH | | | neg | neg body IH | ];
    intros R st k x H.
  - exists [], st. split; [apply advances_refl|]. split; [reflexivity|exact H].
  - cbn [Re.run] in H. destruct (Re.rest st) as [|c tl] eqn:E; [discriminate|].
    destruct (Re.lit_ok icase p c) eqn:Ec; [|discriminate].
    exists [c], (Re.step c tl st). split; [now apply advances_step|].
    split; [exists c; auto|exact H].
  - cbn [Re.run] in H. destruct (Re.rest st) as [|c tl] eqn:E; [discriminate|].
    destruct (PyStr.code c =? 10) eqn:Ec; [discriminate|].
    exists [c], (Re.step c tl st). split; [now apply advances_step|].
    split; [exists c; auto|exact H].
  - cbn [Re.run] in H. destruct (Re.rest st) as [|c tl] eqn:E; [discriminate|].
    destruct (Re.set_ok icase neg items c) eqn:Ec; [|discriminate].
    exists [c], (Re.step c tl st). split; [now apply advances_step|].
    split; [exists c; auto|exact H].
  - cbn [Re.run] in H. apply IHa in H as (w1 & st1 & Hadv1 & Hl1 & H).
    apply IHb in H as (w2 & st2 & Hadv2 & Hl2 & H).
    exists (w1 ++ w2)%list, st2. split; [now apply advances_trans with st1|].
    split; [exists w1, w2; auto|exact H].
  - cbn [Re.run] in H. destruct (Re.run icase R a st k) eqn:E.
    + injection H as ->. apply IHa in E as (w & st' & Hadv & Hl & Hk).
      exists w, st'. split; [assumption|]. split; [now left|assumption].
    + apply IHb in H as (w & st' & Hadv & Hl & Hk).
      exists w, st'. split; [assumption|]. split; [now right|assumption].
  - rewrite run_rep in H. apply (rep_loop_sound R greedy lo hi body k x IH) in H.
    exact H.
  - cbn [Re.run] in H. apply IH in H as (w & st' & Hadv & Hl & Hk).
    exists w, (Re.set_cap i (Re.pos st) (Re.pos st') st').
    split; [exact Hadv|]. split; [exact Hl|exact Hk].
  - cbn [Re.run] in H. destruct (Re.pos st =? 0); [|discriminate].
    exists [], st. split; [apply advances_refl|]. split; [reflexivity|exact H].
  - cbn [Re.run] in H. exists [], st. split; [apply advances_refl|].
    split; [reflexivity|].
    destruct (Re.rest st) as [|c [|d tl]]; try discriminate; [exact H|].
    destruct (PyStr.code c =? 10); [exact H|discriminate].
  - cbn [Re.run] in H. destruct (xorb neg (Re.at_boundary st)); [|discriminate].
    exists [], st. split; [apply advances_refl|]. split; [reflexivity|exact H].
  - cbn [Re.run] in H. exists [], st. split; [apply advances_refl|].
    split; [reflexivity|].
    destruct (Re.run icase unit body st (fun _ => Some tt)); destruct neg;
      try discriminate; exact H.
  - discriminate.
Qed.

End Matcher.

(** ** Spans of matches *)

Section Spans.

Variables (icase : bool) (r : Re.re).

Lemma attempt_span st m :
  Re.attempt icase r st = Some m ->
  exists w tl,
    Re.rest st = (w ++ tl)%list /\ lang icase r w /\
    Re.m_start m = Re.pos st /\ Re.m_end m = Re.pos st + List.length w.
Proof.
  unfold Re.attempt. intros H.
  apply run_sound in H as (w & st' & [Hrest Hpos] & Hl & Hk).
  simpl in Hrest, Hpos. injection Hk as <-.
  exists w, (Re.rest st'). simpl. auto.
Qed.

Lemma scan_span l :
  forall p pv m,
    Re.scan icase r p pv l = Some m ->
    exists pre w tl,
      l = (pre ++ w ++ tl)%list /\ lang icase r w /\
      Re.m_start m = p + List.length pre /\
      Re.m_end m = p + List.length pre + List.length w.
Proof.
  induction l as [|c l IH]; intros p pv m H; cbn [Re.scan] in H.
  - destruct (Re.attempt icase r _) eqn:E; [|discriminate]. injection H as ->.
    apply attempt_span in E as (w & tl & Hrest & Hl & Hs & He). simpl in *.
    exists [], w, tl. simpl. repeat split; auto; lia.
  - destruct (Re.attempt icase r _) eqn:E.
    + injection H as ->.
      apply attempt_span in E as (w & tl & Hrest & Hl & Hs & He). simpl in *.
      exists [], w, tl. simpl. repeat split; auto; lia.
    + apply IH in H as (pre & w & tl & -> & Hl & Hs & He).
      exists (c :: pre), w, tl. simpl. repeat split; auto; lia.
Qed.

(** A match of [re.search] lies in the text, and what it spans is in
    the language of the pattern. *)
Lemma search_span s m :
  Re.search icase r s = Some m ->
  exists pre w tl,
    Re.chars s = (pre ++ w ++ tl)%list /\ lang icase r w /\
    Re.m_start m = List.length pre /\
    Re.m_end m = List.length pre + List.length w.
Proof.
  unfold Re.search, Re.search_at, Re.state_at. cbn [Re.pos Re.prev Re.rest].
  intros H. apply scan_span in H as (pre & w & tl & Hl & Hlang & Hs & He).
  exists pre, w, tl. repeat split; auto.
Qed.

End Spans.

(** ** Texts as lists of characters *)

Section Texts.
Import PyStr.

Lemma chars_drop n s : Re.chars (drop n s) = skipn n (Re.chars s).
Proof.
  unfold Re.chars. revert s. induction n as [|n IH]; intros [|c s]; simpl; auto.
Qed.

Lemma chars_take n s : Re.chars (take n s) = firstn n (Re.chars s).
Proof.
  unfold Re.chars. revert s. induction n as [|n IH]; intros [|c s]; simpl; auto.
  now rewrite IH.
Qed.

Lemma drop_drop a b s : drop a (drop b s) = drop (b + a) s.
Proof.
  revert s. induction b as [|b IH]; intros s; simpl; [reflexivity|].
  destruct s as [|c s]; [now destruct a|]. apply IH.
Qed.

Lemma skipn_length_app {A} (a b : list A) : skipn (List.length a) (a ++ b) = b.
Proof. induction a; simpl; auto. Qed.

Lemma firstn_length_app {A} (a b : list A) : firstn (List.length a) (a ++ b) = a.
Proof. induction a; simpl; [reflexivity|]. now f_equal. Qed.

Lemma count_list_app x a b : count_list x (a ++ b) = count_list x a + count_list x b.
Proof. unfold count_list. now rewrite filter_app, length_app. Qed.

Lemma count_char_split x n s :
  count_char x s = count_char x (take n s) + count_list x (Re.chars (drop n s)).
Proof.
  rewrite (take_drop n s) at 1. rewrite StringFacts.count_char_app.
  now rewrite count_list_chars.
Qed.

End Texts.

(** ** The IN pass and the parentheses *)

Section InPass.
Import PyStr.

Lemma scan_in_close_done s rest i d q qc :
  (d <= 0)%Z -> scan_in_close s rest i d q qc = (i, d).
Proof.
  intros Hd. destruct rest; simpl; [reflexivity|].
  destruct (Z.gtb_spec d 0); [lia|reflexivity].
Qed.

(** The scan ends behind a closing parenthesis when it ends at depth
    zero. *)
Lemma scan_in_close_found s rest :
  forall i0 d q qc i,
    (0 < d)%Z ->
    scan_in_close s rest i0 d q qc = (i, 0%Z) ->
    exists pre post,
      rest = (pre ++ close_paren :: post)%list /\ i = i0 + List.length pre + 1.
Proof.
  induction rest as [|c tl IH]; intros i0 d q qc i Hd H.
  - simpl in H. injection H as _ H. lia.
  - cbn [scan_in_close] in H.
    destruct (Z.gtb_spec d 0) as [_|Hle]; [|lia].
    destruct (if is_quote c && unescaped_at s i0
              then if negb q then (true, Some c)
                   else if is_char qc c then (false, None) else (q, qc)
              else (q, qc)) as [q' qc'].
    destruct (negb q').
    + destruct (Ascii.eqb_spec c open_paren) as [Ho|Ho].
      * apply IH in H as (pre & post & -> & ->); [|lia].
        exists (c :: pre), post. simpl. split; [reflexivity|lia].
      * destruct (Ascii.eqb_spec c close_paren) as [Hc|Hc].
        -- destruct (Z.eq_dec d 1) as [->|Hd1].
           ++ rewrite scan_in_close_done in H by lia. injection H as <-.
              exists [], tl. subst c. simpl. split; [reflexivity|lia].
           ++ apply IH in H as (pre & post & -> & ->); [|lia].
              exists (c :: pre), post. simpl. split; [reflexivity|lia].
        -- apply IH in H as (pre & post & -> & ->); [|lia].
           exists (c :: pre), post. simpl. split; [reflexivity|lia].
    + apply IH in H as (pre & post & -> & ->); [|lia].
      exists (c :: pre), post. simpl. split; [reflexivity|lia].
Qed.

Lemma split_in_args_held x :
  isspace x = false -> x <> comma ->
  forall rest a j pd q qc current args,
    held x (split_in_args a rest j pd q qc current args)
    = held x args + count_char x current + count_list x rest.
Proof.
  intros Hx Hcomma. induction rest as [|c tl IH]; intros a j pd q qc current args.
  - cbn [split_in_args]. unfold count_list. simpl.
    destruct current as [|d current]; cbn [nonempty].
    + simpl. lia.
    + rewrite held_snoc, count_char_strip by assumption. lia.
  - cbn [split_in_args]. rewrite count_list_cons.
    assert (Hkeep : forall j' pd' q' qc',
               held x (split_in_args a tl j' pd' q' qc' (push current c) args)
               = held x args + count_char x current
                 + ((if Ascii.eqb c x then 1 else 0) + count_list x tl)).
    { intros. rewrite IH, count_char_push. lia. }
    destruct (if is_quote c
              then if negb q then (true, Some c)
                   else if is_char qc c && unescaped_at a j then (false, None)
                        else (q, qc)
              else (q, qc)) as [q' qc'].
    destruct (negb q'); [|apply Hkeep].
    destruct (Ascii.eqb c open_paren); [apply Hkeep|].
    destruct (Ascii.eqb c close_paren); [apply Hkeep|].
    destruct (Ascii.eqb_spec c comma) as [Hc|Hc]; cbn [andb]; [|apply Hkeep].
    destruct (pd =? 0)%Z; [|apply Hkeep].
    rewrite IH, held_snoc, count_char_strip by assumption. subst c.
    destruct (Ascii.eqb_spec comma x); [congruence|]. simpl. lia.
Qed.

Lemma count_char_join x l :
  isspace x = false -> x <> comma ->
  count_char x (join ", " l) = held x l.
Proof.
  intros Hx Hc. unfold held. induction l as [|a l IH]; [reflexivity|].
  destruct l as [|b l].
  - simpl. lia.
  - change (join ", " (a :: b :: l)) with (a ++ ", " ++ join ", " (b :: l)).
    rewrite !StringFacts.count_char_app, IH.
    change (count_char x ", ")
      with ((if Ascii.eqb comma x then 1 else 0) + ((if Ascii.eqb " " x then 1 else 0) + 0)).
    destruct (Ascii.eqb_spec comma x); [congruence|].
    destruct (Ascii.eqb_spec " "%char x) as [E|_]; [subst x; discriminate|].
    simpl. lia.
Qed.

(** What [IN(] spans: one opening parenthesis and no closing one. *)
Lemma in_call_parentheses w :
  lang true re_in_call w ->
  count_list open_paren w = 1 /\ count_list close_paren w = 0.
Proof.
  change re_in_call
    with (Re.Seq (Re.WordB false)
            (Re.Seq (Re.Lit "I")
               (Re.Seq (Re.Lit "N")
                  (Re.Seq (Re.Rep true 0 None (Re.CSet false [Re.ICls false Re.ClsSpace]))
                     (Re.Lit "("))))).
  cbn [lang].
  intros (w0 & w1 & -> & -> & w2 & w3 & -> & (c1 & -> & H1) & w4 & w5 & ->
          & (c2 & -> & H2) & w6 & w7 & -> & (ws & -> & Hws) & (c3 & -> & H3)).
  assert (Hsp : count_list open_paren (concat ws) = 0
                /\ count_list close_paren (concat ws) = 0).
  { induction Hws as [|w ws (c & -> & Hc) _ IH]; [split; reflexivity|].
    cbn [concat]. rewrite !count_list_app, !count_list_cons.
    destruct IH as [-> ->].
    destruct (Ascii.eqb_spec c open_paren) as [->|_]; [discriminate|].
    destruct (Ascii.eqb_spec c close_paren) as [->|_]; [discriminate|].
    split; reflexivity. }
  destruct Hsp as [Ho Hc].
  assert (E3 : c3 = open_paren).
  { revert H3. destruct c3 as [[] [] [] [] [] [] [] []]; vm_compute; congruence. }
  subst c3. cbn [List.app].
  rewrite !count_list_cons, !count_list_app, Ho, Hc, !count_list_cons.
  destruct (Ascii.eqb_spec c1 open_paren) as [->|_]; [discriminate|].
  destruct (Ascii.eqb_spec c1 close_paren) as [->|_]; [discriminate|].
  destruct (Ascii.eqb_spec c2 open_paren) as [->|_]; [discriminate|].
  destruct (Ascii.eqb_spec c2 close_paren) as [->|_]; [discriminate|].
  split; reflexivity.
Qed.

Lemma convert_in_loop_counts x :
  x = open_paren \/ x = close_paren ->
  forall fuel result search_start,
    count_char x (convert_in_loop fuel result search_start) = count_char x result.
Proof.
  intros Hx.
  assert (Hsp : isspace x = false) by (destruct Hx; subst; reflexivity).
  assert (Hcm : x <> comma) by (destruct Hx; subst; discriminate).
  induction fuel as [|fuel IH]; intros result search_start; [reflexivity|].
  cbn [convert_in_loop].
  destruct (Re.search true re_in_call (drop search_start result)) as [m|] eqn:Es;
    [|reflexivity].
  apply search_span in Es as (pre & w & tl & Hchars & Hlang & Hstart & Hend).
  apply in_call_parentheses in Hlang as [Hwo Hwc].
  set (in_start := search_start + Re.m_start m).
  set (in_end := search_start + Re.m_end m).
  assert (Hin : Re.chars (drop in_start result) = (w ++ tl)%list).
  { unfold in_start. rewrite Hstart, <- drop_drop, chars_drop, Hchars.
    apply skipn_length_app. }
  assert (Hend' : Re.chars (drop in_end result) = tl).
  { unfold in_end. rewrite Hend.
    replace (search_start + (List.length pre + List.length w))
      with (search_start + Re.m_start m + List.length w) by lia.
    fold in_start. rewrite <- drop_drop, chars_drop, Hin. apply skipn_length_app. }
  rewrite Hend'.
  destruct (scan_in_close result tl in_end 1 false None) as [i depth] eqn:Escan.
  destruct (Z.eqb_spec depth 0) as [->|Hd]; [|reflexivity].
  cbn [negb].
  apply scan_in_close_found in Escan as (args_chars & post & Htl & Hi); [|lia].
  assert (Hclose : i - 1 = in_end + List.length args_chars) by lia.
  rewrite Hclose.
  set (close := in_end + List.length args_chars).
  assert (Hargs : Re.chars (slice in_end close result) = args_chars).
  { unfold slice, close.
    replace (in_end + List.length args_chars - in_end) with (List.length args_chars) by lia.
    rewrite chars_take, Hend', Htl. apply firstn_length_app. }
  assert (Hpost : Re.chars (drop (close + 1) result) = post).
  { unfold close.
    replace (in_end + List.length args_chars + 1)
      with (in_end + (List.length args_chars + 1)) by lia.
    rewrite <- drop_drop, chars_drop, Hend', Htl.
    replace (List.length args_chars + 1) with (List.length (args_chars ++ [close_paren]))
      by (rewrite length_app; simpl; lia).
    change (args_chars ++ close_paren :: post)%list
      with (args_chars ++ [close_paren] ++ post)%list.
    rewrite app_assoc. apply skipn_length_app. }
  pose proof (split_in_args_held x Hsp Hcm (Re.chars (slice in_end close result))
                (slice in_end close result) 0 0%Z false None EmptyString []) as Hheld.
  destruct (split_in_args (slice in_end close result)
              (Re.chars (slice in_end close result)) 0 0%Z false None EmptyString [])
    as [|expression [|value values]] eqn:Esplit; try reflexivity.
  rewrite IH.
  rewrite !StringFacts.count_char_app.
  rewrite (count_char_split x in_start result), Hin.
  rewrite count_list_app, Htl, count_list_app, count_list_cons.
  rewrite <- (count_list_chars x (drop (close + 1) result)), Hpost.
  rewrite count_char_join by assumption.
  rewrite Hargs in Hheld. unfold held in Hheld. cbn [map list_sum] in Hheld.
  unfold held. cbn [map list_sum].
  change (count_char x "") with 0 in Hheld.
  destruct Hx as [-> | ->].
  - rewrite Hwo.
    change (count_char open_paren " IN (") with 1.
    change (count_char open_paren ")") with 0.
    change (if Ascii.eqb close_paren open_paren then 1 else 0) with 0.
    unfold list_sum in *. cbn [fold_right] in *. lia.
  - rewrite Hwc.
    change (count_char close_paren " IN (") with 0.
    change (count_char close_paren ")") with 1.
    change (if Ascii.eqb close_paren close_paren then 1 else 0) with 1.
    unfold list_sum in *. cbn [fold_right] in *. lia.
Qed.

End InPass.

(** X25: the IN pass never changes the number of opening or of closing
    parentheses of a formula, whatever the formula: every [IN(] it
    rewrites gives its one opening and its one closing parenthesis to
    the operator form, and the arguments keep theirs. *)
Theorem convert_in_keeps_parentheses (formula : string) :
  PyStr.count_char "(" (_convert_in_function_to_operator formula)
  = PyStr.count_char "(" formula /\
  PyStr.count_char ")" (_convert_in_function_to_operator formula)
  = PyStr.count_char ")" formula.
Proof.
  unfold _convert_in_function_to_operator. split.
  - apply (convert_in_loop_counts open_paren). now left.
  - apply (convert_in_loop_counts close_paren). now right.
Qed.

(** ** Date literals *)

Section DateLiterals.
Import PyStr.

(** A full match puts the whole text in the language of the pattern. *)
Lemma fullmatch_lang icase r s m :
  Re.fullmatch icase r s = Some m -> lang icase r (Re.chars s).
Proof.
  unfold Re.fullmatch. intros H.
  apply run_sound in H as (w & st' & [Hrest _] & Hl & Hk).
  unfold Re.state_at in Hrest. cbn [Re.rest] in Hrest.
  destruct (Re.rest st'); [|discriminate].
  change (drop 0 s) with s in Hrest. rewrite app_nil_r in Hrest.
  now rewrite Hrest.
Qed.

Lemma digit_run_decimal g lo hi w :
  lang false (Re.Rep g lo hi digit_run) w ->
  Forall (fun c => is_decimal c = true) w.
Proof.
  cbn [lang]. intros (ws & -> & Hws).
  induction Hws as [|w ws (c & -> & Hc) _ IH]; [constructor|].
  cbn [concat List.app]. constructor; [|exact IH].
  revert Hc. destruct c as [[] [] [] [] [] [] [] []]; vm_compute; congruence.
Qed.

Lemma decimal_all_digits s :
  Forall (fun c => is_decimal c = true) (Re.chars s) ->
  all_chars isdigit_char s = true.
Proof.
  unfold Re.chars. induction s as [|c s IH]; [reflexivity|].
  cbn [list_ascii_of_string all_chars]. intros H. inversion H; subst.
  rewrite IH by assumption. unfold isdigit_char. cbv zeta. now rewrite H2.
Qed.

Lemma decimal_no_hyphen w :
  Forall (fun c => is_decimal c = true) w -> count_list "-" w = 0.
Proof.
  induction 1 as [|c w Hc _ IH]; [reflexivity|].
  rewrite count_list_cons, IH.
  destruct (Ascii.eqb_spec c "-") as [->|_]; [discriminate|reflexivity].
Qed.

Lemma yyyymmdd_isdigit s m :
  s <> EmptyString ->
  Re.fullmatch false re_yyyymmdd s = Some m -> isdigit s = true.
Proof.
  intros Hs H. apply fullmatch_lang in H.
  change re_yyyymmdd with (Re.Rep true 8 (Some 8) digit_run) in H.
  apply digit_run_decimal, decimal_all_digits in H.
  destruct s; [congruence|exact H].
Qed.

Lemma iso_date_hyphens s m :
  Re.fullmatch false re_iso_date s = Some m -> count_char "-" s = 2.
Proof.
  intros H. apply fullmatch_lang in H.
  change re_iso_date
    with (Re.Seq (Re.Rep true 4 (Some 4) digit_run)
            (Re.Seq (Re.Lit "-")
               (Re.Seq (Re.Rep true 2 (Some 2) digit_run)
                  (Re.Seq (Re.Lit "-") (Re.Rep true 2 (Some 2) digit_run))))) in H.
  cbn [lang] in H. fold (lang false (Re.Rep true 4 (Some 4) digit_run)) in H.
  rewrite <- count_list_chars.
  destruct H as (y & w1 & -> & Hy & w2 & w3 & -> & (c1 & -> & H1) & mo & w4 & ->
                 & Hm & w5 & d & -> & (c2 & -> & H2) & Hd).
  apply (digit_run_decimal true 4 (Some 4)), decimal_no_hyphen in Hy.
  apply (digit_run_decimal true 2 (Some 2)), decimal_no_hyphen in Hm.
  apply (digit_run_decimal true 2 (Some 2)), decimal_no_hyphen in Hd.
  unfold Re.lit_ok in H1, H2.
  apply Ascii.eqb_eq in H1, H2. subst c1 c2.
  cbn [List.app].
  rewrite !count_list_app, !count_list_cons, !count_list_app, !count_list_cons,
    Hy, Hm, Hd.
  reflexivity.
Qed.

End DateLiterals.

(** X26: a literal is typed DATE only in the hyphenated form: its
    stripped text fully matches the year-month-day pattern with hyphens
    and holds exactly two hyphens.  The eight-digit form never gives
    DATE, for any value: what matches eight digits is all digits, and
    the NUMBER test comes first. *)
Theorem date_literal_is_hyphenated (value : string) :
  option_map DataTypeSpec.type (guess_literal_type value) = Some DATE ->
  is_some (Re.fullmatch false re_iso_date (PyStr.strip value)) = true /\
  PyStr.count_char "-" (PyStr.strip value) = 2.
Proof.
  unfold guess_literal_type. cbv zeta.
  destruct (PyStr.strip value) as [|c s] eqn:Es; [discriminate|].
  destruct (PyStr.isdigit (String c s)) eqn:Ed; [discriminate|].
  destruct (Re.fullmatch false re_yyyymmdd (String c s)) as [m|] eqn:E8.
  - apply yyyymmdd_isdigit in E8; [congruence|discriminate].
  - destruct (Re.fullmatch false re_iso_date (String c s)) as [m|] eqn:Eiso;
      [|discriminate].
    intros _. split; [reflexivity|]. exact (iso_date_hyphens _ _ Eiso).
Qed.

Lemma date_literal_is_hyphenated_witness :
  is_some (Re.fullmatch false re_iso_date (PyStr.strip " 2024-01-31 ")) = true /\
  PyStr.count_char "-" (PyStr.strip " 2024-01-31 ") = 2.
Proof.
  apply (date_literal_is_hyphenated " 2024-01-31 "). vm_compute. reflexivity.
Defined.

(** ** Prefixed references *)

Section PrefixedReferences.
Import PyStr.

Lemma app_snoc_assoc a c b :
  (a ++ String c EmptyString) ++ b = a ++ String c b.
Proof. induction a as [|d a IH]; simpl; [reflexivity|]. now rewrite IH. Qed.

Lemma rstrip_after a c b :
  isspace c = false ->
  rstrip (a ++ String c b) = a ++ String c (rstrip b).
Proof.
  intros Hc. induction a as [|d a IH]; simpl.
  - destruct (rstrip b); [now rewrite Hc|reflexivity].
  - rewrite IH. destruct a; reflexivity.
Qed.

Lemma rstrip_begins r :
  begins_id r = true ->
  lstrip r = r /\ begins_id (rstrip r) = true /\
  startswith "#" (rstrip r) = startswith "#" r.
Proof.
  destruct r as [|c r]; [now repeat split|].
  cbn [begins_id]. intros H. apply andb_prop in H as [Hs Hl].
  apply negb_true_iff in Hs. split; [now apply StringFacts.lstrip_fixed|].
  destruct (StringFacts.rstrip_head c r Hs) as [t ->]. cbn [begins_id].
  split; [now rewrite Hs, Hl|reflexivity].
Qed.

Lemma strip_prefixed a c r :
  isspace c = false ->
  strip (String "#" (a ++ String c r)) = String "#" (a ++ String c (rstrip r)).
Proof.
  intros Hc. unfold strip. rewrite StringFacts.lstrip_fixed by reflexivity.
  apply (rstrip_after (String "#" a) c r Hc).
Qed.

Lemma find_here_index index t :
  all_chars is_decimal index = true ->
  find_here "/" (index ++ String "/" t) = Some (String.length index).
Proof.
  induction index as [|d index IH]; [reflexivity|].
  cbn [all_chars]. intros H. apply andb_prop in H as [Hd Hi].
  cbn [String.append find_here startswith String.length].
  destruct (Ascii.eqb_spec "/" d) as [<-|_]; [discriminate|].
  cbn [andb]. now rewrite (IH Hi).
Qed.

Lemma drop_past a c b : drop (S (String.length a)) (a ++ String c b) = b.
Proof. induction a; simpl; auto. Qed.

(** Cleaning a prefixed reference removes the prefix and the
    whitespace at the end. *)
Lemma clean_ref_removes_prefix p r :
  recognized p = true -> begins_id r = true ->
  _clean_ref (prefix_text p ++ r) = rstrip r.
Proof.
  intros Hp Hr. unfold _clean_ref. cbv zeta.
  destruct p as [index| |]; cbn [prefix_text recognized] in *.
  - apply andb_prop in Hp as [Hne Hdigits].
    destruct index as [|d index]; [discriminate|].
    pose proof Hdigits as Hd. cbn [all_chars] in Hd. apply andb_prop in Hd as [Hd _].
    assert (E : ("#/" ++ String d index ++ "/") ++ r
                = String "#" (String "/" (String d index) ++ String "/" r)).
    { cbn [String.append]. now rewrite app_snoc_assoc. }
    rewrite E, strip_prefixed by reflexivity.
    cbn [String.append startswith].
    destruct (Ascii.eqb_spec "/" d) as [<-|_]; [discriminate|].
    cbn [andb Ascii.eqb Bool.eqb].
    unfold find. cbn [String.length Nat.ltb Nat.leb drop].
    change (String d (index ++ String "/" (rstrip r)))
      with (String d index ++ String "/" (rstrip r)).
    rewrite (find_here_index (String d index) (rstrip r) Hdigits).
    destruct (Z.gtb_spec (Z.of_nat (2 + String.length (String d index))) 0) as [_|H];
      [|cbn [String.length] in H; lia].
    rewrite Nat2Z.id.
    replace (2 + String.length (String d index) + 1)
      with (S (S (S (String.length (String d index))))) by lia.
    apply (drop_past (String d index) "/" (rstrip r)).
  - assert (E : "#//" ++ r = String "#" (String "/" EmptyString ++ String "/" r))
      by reflexivity.
    rewrite E, strip_prefixed by reflexivity. reflexivity.
  - change ("#" ++ r) with (String "#" r). unfold strip.
    rewrite StringFacts.lstrip_fixed by reflexivity.
    destruct r as [|c r]; [reflexivity|].
    cbn [begins_id] in Hr. apply andb_prop in Hr as [Hs Hl].
    apply negb_true_iff in Hs. apply negb_true_iff in Hl.
    destruct (StringFacts.rstrip_head c r Hs) as [t Ht].
    assert (E : rstrip (String "#" (String c r)) = String "#" (String c t)).
    { change (rstrip (String "#" (String c r)))
        with (match rstrip (String c r) with
              | EmptyString => String "#" EmptyString
              | x => String "#" x
              end).
      now rewrite Ht. }
    rewrite E, Ht. cbn [startswith]. rewrite (Ascii.eqb_sym "/" c), Hl. reflexivity.
Qed.

End PrefixedReferences.

(** C6 (amended): for every reference made of one of the three
    recognized prefixes (the external one with a numeric segment index,
    the same-document one, the bare fragment marker) and a remainder
    that begins neither with whitespace nor with a slash, cleaning
    returns the remainder without its trailing whitespace; and cleaning
    the cleaned reference returns it unchanged exactly when the
    remainder does not itself begin with a fragment marker.  So
    cleaning is idempotent on a prefix followed by a plain id, and a
    doubly marked reference loses one marker per application. *)
Theorem clean_ref_prefixed_idempotent (p : RefPrefix) (r : string) :
  recognized p = true ->
  begins_id r = true ->
  _clean_ref (prefix_text p ++ r) = PyStr.rstrip r /\
  (_clean_ref (_clean_ref (prefix_text p ++ r)) = _clean_ref (prefix_text p ++ r)
   <-> PyStr.startswith "#" r = false).
Proof.
  intros Hp Hr. rewrite (clean_ref_removes_prefix p r Hp Hr).
  split; [reflexivity|].
  destruct (rstrip_begins r Hr) as (Hl & Hb & Hm).
  rewrite clean_ref_fixpoint_iff, Hm. unfold PyStr.strip.
  destruct (rstrip_begins (PyStr.rstrip r) Hb) as (Hl' & _ & _).
  rewrite Hl', StringFacts.rstrip_idempotent. tauto.
Qed.

Lemma clean_ref_prefixed_idempotent_witness :
  _clean_ref ("#/0/" ++ "Star Join/Join_1 ") = "Star Join/Join_1" /\
  (_clean_ref (_clean_ref ("#/0/" ++ "Star Join/Join_1 "))
   = _clean_ref ("#/0/" ++ "Star Join/Join_1 ")
   <-> PyStr.startswith "#" "Star Join/Join_1 " = false).
Proof.
  apply (clean_ref_prefixed_idempotent (External "0") "Star Join/Join_1 ");
    reflexivity.
Defined.
